(** * calc: expression parsers built on Go's constant evaluator

    A shallow embedding of [main.go] (package [calc]) together with a model
    of the parts of the Go standard library it delegates to:
    [go/constant] (exact untyped constant values), [go/scanner] and
    [go/parser] (expression syntax), [go/types] (package scopes, objects
    and [types.Eval]), [unicode/utf8] and [unicode].

    The standard library is not part of the repository.  Its model below
    follows the library's documented behaviour for the constant-expression
    fragment described in the specification: literals, identifiers,
    qualified identifiers, parentheses, unary and binary operators.  Two
    limits of the model are stated where they apply:
    - [go/constant] switches from exact rationals to 512-bit floats once a
      numerator or denominator needs 4096 bits or more; the model keeps
      exact rationals throughout;
    - expression syntax outside the fragment (calls, conversions, indexing,
      composite literals, string and rune literals, hexadecimal floats,
      comments, non-ASCII source text) is answered by the error
      [NotModelled]. *)

From Stdlib Require Import ZArith QArith String Ascii Bool Lia.
From Stdlib Require Import SpecFloat.
From Stdlib Require Import DecimalString DecimalPos.
From stdpp Require Import gmap strings list.

Local Open Scope Z_scope.

(* ===================================================================== *)
(** * go/token: the token alphabet *)
(* ===================================================================== *)

Module token.

Inductive Token :=
(* special tokens *)
| ILLEGAL | EOF | COMMENT
(* identifiers and basic type literals *)
| IDENT | INT | FLOAT | IMAG | CHAR | STRING
(* operators and delimiters *)
| ADD | SUB | MUL | QUO | REM
| AND | OR | XOR | SHL | SHR | AND_NOT
| ADD_ASSIGN | SUB_ASSIGN | MUL_ASSIGN | QUO_ASSIGN | REM_ASSIGN
| AND_ASSIGN | OR_ASSIGN | XOR_ASSIGN | SHL_ASSIGN | SHR_ASSIGN
| AND_NOT_ASSIGN
| LAND | LOR | ARROW | INC | DEC
| EQL | LSS | GTR | ASSIGN | NOT
| NEQ | LEQ | GEQ | DEFINE | ELLIPSIS
| LPAREN | LBRACK | LBRACE | COMMA | PERIOD
| RPAREN | RBRACK | RBRACE | SEMICOLON | COLON
| TILDE
(* keywords *)
| BREAK | CASE | CHAN | CONST | CONTINUE
| DEFAULT | DEFER | ELSE | FALLTHROUGH | FOR
| FUNC | GO | GOTO | IF | IMPORT
| INTERFACE | MAP | PACKAGE | RANGE | RETURN
| SELECT | STRUCT | SWITCH | TYPE | VAR.

Definition eq_dec (a b : Token) : {a = b} + {a <> b}.
Proof. decide equality. Defined.

Definition eqb (a b : Token) : bool := if eq_dec a b then true else false.

(** [Token.Precedence]: binary operator precedence, [LowestPrec] = 0 for
    tokens that are not binary operators. *)
Definition LowestPrec : nat := 0.

Definition Precedence (op : Token) : nat :=
  match op with
  | LOR => 1
  | LAND => 2
  | EQL | NEQ | LSS | LEQ | GTR | GEQ => 3
  | ADD | SUB | OR | XOR => 4
  | MUL | QUO | REM | SHL | SHR | AND | AND_NOT => 5
  | _ => LowestPrec
  end%nat.

(** [token.Lookup]: maps an identifier to its keyword token or [IDENT]. *)
Definition Lookup (ident : string) : Token :=
  if String.eqb ident "break" then BREAK
  else if String.eqb ident "case" then CASE
  else if String.eqb ident "chan" then CHAN
  else if String.eqb ident "const" then CONST
  else if String.eqb ident "continue" then CONTINUE
  else if String.eqb ident "default" then DEFAULT
  else if String.eqb ident "defer" then DEFER
  else if String.eqb ident "else" then ELSE
  else if String.eqb ident "fallthrough" then FALLTHROUGH
  else if String.eqb ident "for" then FOR
  else if String.eqb ident "func" then FUNC
  else if String.eqb ident "go" then GO
  else if String.eqb ident "goto" then GOTO
  else if String.eqb ident "if" then IF
  else if String.eqb ident "import" then IMPORT
  else if String.eqb ident "interface" then INTERFACE
  else if String.eqb ident "map" then MAP
  else if String.eqb ident "package" then PACKAGE
  else if String.eqb ident "range" then RANGE
  else if String.eqb ident "return" then RETURN
  else if String.eqb ident "select" then SELECT
  else if String.eqb ident "struct" then STRUCT
  else if String.eqb ident "switch" then SWITCH
  else if String.eqb ident "type" then TYPE
  else if String.eqb ident "var" then VAR
  else IDENT.

End token.

(* ===================================================================== *)
(** * go/constant: exact untyped constant values *)
(* ===================================================================== *)

Module constant.

(** [constant.Kind]. *)
Inductive Kind := Unknown | Bool | String | Int | Float | Complex.

Definition Kind_eq_dec (a b : Kind) : {a = b} + {a <> b}.
Proof. decide equality. Defined.

Definition Kind_eqb (a b : Kind) : bool :=
  if Kind_eq_dec a b then true else false.

(** [constant.Value].  [int64Val] and [intVal] of the library are the
    same mathematical integers and are merged into [intVal]; [ratVal]
    carries a rational kept in lowest terms (as [big.Rat] does); the
    components of a [complexVal] are [intVal] or [ratVal] values. *)
Inductive Value :=
| unknownVal
| boolVal (b : bool)
| stringVal (s : string)
| intVal (i : Z)
| ratVal (q : Q)
| complexVal (re im : Value).

(** [Value.Kind()]. *)
Definition Value_Kind (x : Value) : Kind :=
  match x with
  | unknownVal => Unknown
  | boolVal _ => Bool
  | stringVal _ => String
  | intVal _ => Int
  | ratVal _ => Float
  | complexVal _ _ => Complex
  end.

Definition MakeUnknown : Value := unknownVal.
Definition MakeBool (b : bool) : Value := boolVal b.
Definition MakeString (s : string) : Value := stringVal s.
Definition MakeInt64 (x : Z) : Value := intVal x.
Definition MakeUint64 (x : Z) : Value := intVal x.

Definition makeRat (q : Q) : Value := ratVal (Qred q).

(** [rat.IsInt]: the denominator of the reduced fraction is 1. *)
Definition rat_IsInt (q : Q) : bool := Pos.eqb (Qden (Qred q)) 1.

Definition itor (i : Z) : Value := ratVal (inject_Z i).

Definition vtoc (x : Value) : Value := complexVal x (intVal 0).

Definition makeComplex (re im : Value) : Value :=
  match Value_Kind re, Value_Kind im with
  | Unknown, _ | _, Unknown => unknownVal
  | _, _ => complexVal re im
  end.

(** [constant.Sign]; [None] is the library's panic on a value that is
    neither numeric nor Unknown. *)
Fixpoint Sign (x : Value) : option Z :=
  match x with
  | intVal i => Some (Z.sgn i)
  | ratVal q => Some (Z.sgn (Qnum q))
  | complexVal re im =>
      match Sign re, Sign im with
      | Some a, Some b => Some (Z.lor a b)
      | _, _ => None
      end
  | unknownVal => Some 1
  | _ => None
  end.

(** [constant.BitLen]: bits of the absolute value, 0 for 0. *)
Definition BitLen (x : Value) : option Z :=
  match x with
  | intVal i => Some (if Z.eqb i 0 then 0 else Z.log2 (Z.abs i) + 1)
  | unknownVal => Some 0
  | _ => None
  end.

(** [constant.ToFloat]. *)
Fixpoint ToFloat (x : Value) : Value :=
  match x with
  | intVal i => itor i
  | ratVal _ => x
  | complexVal re im =>
      match Sign im with
      | Some 0 => ToFloat re
      | _ => unknownVal
      end
  | _ => unknownVal
  end.

(** [constant.ToInt]. *)
Definition ToInt (x : Value) : Value :=
  match x with
  | intVal _ => x
  | ratVal q => if rat_IsInt q then intVal (Qnum (Qred q)) else unknownVal
  | complexVal _ _ =>
      match ToFloat x with
      | ratVal q => if rat_IsInt q then intVal (Qnum (Qred q)) else unknownVal
      | _ => unknownVal
      end
  | _ => unknownVal
  end.

(** [constant.ToComplex]. *)
Definition ToComplex (x : Value) : Value :=
  match x with
  | intVal _ | ratVal _ => vtoc x
  | complexVal _ _ => x
  | _ => unknownVal
  end.

(** [constant.Real] and [constant.Imag]; [None] is the library's panic. *)
Definition Real (x : Value) : option Value :=
  match x with
  | unknownVal | intVal _ | ratVal _ => Some x
  | complexVal re _ => Some re
  | _ => None
  end.

Definition Imag (x : Value) : option Value :=
  match x with
  | unknownVal => Some x
  | intVal _ | ratVal _ => Some (intVal 0)
  | complexVal _ im => Some im
  | _ => None
  end.

Definition MakeImag (x : Value) : option Value :=
  match x with
  | unknownVal => Some x
  | intVal _ | ratVal _ => Some (makeComplex (intVal 0) x)
  | _ => None
  end.

(** ** Accessors used for narrowing *)

Definition two63 : Z := 9223372036854775808.
Definition two64 : Z := 18446744073709551616.

(** Wrap-around of the machine conversions [int64(_)] and [uint64(_)]. *)
Definition wrap_int64 (z : Z) : Z := (z + two63) mod two64 - two63.
Definition wrap_uint64 (z : Z) : Z := z mod two64.

(** [constant.Int64Val]: the value and whether it is exact.  On a value
    that does not fit, the library returns the low 64 bits of the
    magnitude with the sign applied ([big.Int.Int64]).  [None] is the
    library's panic on a value that is neither Int nor Unknown. *)
Definition Int64Val (x : Value) : option (Z * bool) :=
  match x with
  | intVal i =>
      if (- two63 <=? i) && (i <? two63) then Some (i, true)
      else Some (wrap_int64 (Z.sgn i * wrap_int64 (Z.abs i mod two64)), false)
  | unknownVal => Some (0, false)
  | _ => None
  end.

(** [constant.Uint64Val]. *)
Definition Uint64Val (x : Value) : option (Z * bool) :=
  match x with
  | intVal i =>
      if (- two63 <=? i) && (i <? two63) then Some (wrap_uint64 i, 0 <=? i)
      else Some (Z.abs i mod two64, (0 <=? i) && (i <? two64))
  | unknownVal => Some (0, false)
  | _ => None
  end.

(** [constant.BoolVal] and [constant.StringVal]. *)
Definition BoolVal (x : Value) : option bool :=
  match x with
  | boolVal b => Some b
  | unknownVal => Some false
  | _ => None
  end.

Definition StringVal (x : Value) : option string :=
  match x with
  | stringVal s => Some s
  | unknownVal => Some EmptyString
  | _ => None
  end.

(** ** Machine floats.

    A [float64] or [float32] is a [spec_float] of the IEEE 754 binary64
    or binary32 format.  [rat_to_float] is the conversion of
    [big.Rat.Float64] and [big.Rat.Float32]: the nearest representable
    value, ties to even, overflowing to an infinity. *)

Definition float64 := spec_float.
Definition float32 := spec_float.

Definition rat_to_float (prec emax : Z) (q : Q) : spec_float :=
  match Qnum q with
  | Z0 => S754_zero false
  | Zpos n =>
      let '(mz, ez, lz) :=
        SFdiv_core_binary prec emax (Zpos n) 0 (Zpos (Qden q)) 0 in
      binary_round_aux prec emax false mz ez lz
  | Zneg n =>
      let '(mz, ez, lz) :=
        SFdiv_core_binary prec emax (Zpos n) 0 (Zpos (Qden q)) 0 in
      binary_round_aux prec emax true mz ez lz
  end.

(** The rational denoted by a finite float. *)
Definition float_to_rat (f : spec_float) : option Q :=
  match f with
  | S754_zero _ => Some (inject_Z 0)
  | S754_finite s m e =>
      let m' := if s then Zneg m else Zpos m in
      Some (Qred (match e with
                  | Zneg p => Qmake m' (2 ^ p)%positive
                  | _ => inject_Z (m' * 2 ^ e)
                  end))
  | _ => None
  end.

Definition float_exact (f : spec_float) (q : Q) : bool :=
  match float_to_rat f with
  | Some q' => Qeq_bool q q'
  | None => false
  end.

Definition FloatVal (prec emax : Z) (x : Value) : option (spec_float * bool) :=
  match x with
  | intVal i =>
      let f := rat_to_float prec emax (inject_Z i) in
      Some (f, float_exact f (inject_Z i))
  | ratVal q =>
      let f := rat_to_float prec emax q in Some (f, float_exact f q)
  | unknownVal => Some (S754_zero false, false)
  | _ => None
  end.

(** [constant.Float64Val] and [constant.Float32Val]. *)
Definition Float64Val : Value -> option (float64 * bool) := FloatVal 53 1024.
Definition Float32Val : Value -> option (float32 * bool) := FloatVal 24 128.

(** [constant.MakeFloat64]: Unknown for an infinity or a NaN, and the
    exact rational of a finite float, with -0 mapped to 0. *)
Definition MakeFloat64 (x : float64) : Value :=
  match float_to_rat x with
  | Some q => ratVal q
  | None => unknownVal
  end.

(** ** Operations *)

(** [ord]: the complexity order used by [match]. *)
Definition ord (x : Value) : Z :=
  match x with
  | unknownVal => 0
  | boolVal _ | stringVal _ => 1
  | intVal _ => 2
  | ratVal _ => 3
  | complexVal _ _ => 4
  end.

(** [match0], called with [ord x < ord y]. *)
Definition match0 (x y : Value) : Value * Value :=
  match y with
  | ratVal _ =>
      match x with
      | intVal i => (itor i, y)
      | _ => (x, x)
      end
  | complexVal _ _ => (vtoc x, y)
  | _ => (x, x)
  end.

(** [match]: the two values in a common representation. *)
Definition match_ (x y : Value) : Value * Value :=
  if ord x <? ord y then match0 x y
  else if ord y <? ord x then let '(y', x') := match0 y x in (x', y')
  else (x, y).

(** [BinaryOp] on operands that are not complex; [None] is the
    library's panic ("invalid binary operation", a failed type
    assertion, or a division by zero inside [math/big]). *)
Definition binaryOp_real (x_ : Value) (op : token.Token) (y_ : Value)
  : option Value :=
  let '(x, y) := match_ x_ y_ in
  match x, y with
  | unknownVal, _ => Some unknownVal
  | boolVal a, boolVal b =>
      match op with
      | token.LAND => Some (boolVal (a && b))
      | token.LOR => Some (boolVal (a || b))
      | _ => None
      end
  | intVal a, intVal b =>
      match op with
      | token.ADD => Some (intVal (a + b))
      | token.SUB => Some (intVal (a - b))
      | token.MUL => Some (intVal (a * b))
      | token.QUO =>
          match b with
          | Z0 => None
          | Zpos d => Some (makeRat (Qmake a d))
          | Zneg d => Some (makeRat (Qmake (- a) d))
          end
      | token.QUO_ASSIGN => if b =? 0 then None else Some (intVal (Z.quot a b))
      | token.REM => if b =? 0 then None else Some (intVal (Z.rem a b))
      | token.AND => Some (intVal (Z.land a b))
      | token.OR => Some (intVal (Z.lor a b))
      | token.XOR => Some (intVal (Z.lxor a b))
      | token.AND_NOT => Some (intVal (Z.ldiff a b))
      | _ => None
      end
  | ratVal a, ratVal b =>
      match op with
      | token.ADD => Some (makeRat (Qplus a b))
      | token.SUB => Some (makeRat (Qminus a b))
      | token.MUL => Some (makeRat (Qmult a b))
      | token.QUO =>
          if Qnum b =? 0 then None else Some (makeRat (Qdiv a b))
      | _ => None
      end
  | stringVal a, stringVal b =>
      match op with
      | token.ADD => Some (stringVal (a +:+ b))
      | _ => None
      end
  | _, _ => None
  end.

(** [constant.BinaryOp]. *)
Definition BinaryOp (x_ : Value) (op : token.Token) (y_ : Value)
  : option Value :=
  let '(x, y) := match_ x_ y_ in
  match x, y with
  | complexVal a b, complexVal c d =>
      let add u v := binaryOp_real u token.ADD v in
      let sub u v := binaryOp_real u token.SUB v in
      let mul u v := binaryOp_real u token.MUL v in
      let quo u v := binaryOp_real u token.QUO v in
      let bind2 (f : Value -> Value -> option Value) (u v : option Value) :=
        match u, v with
        | Some u', Some v' => f u' v'
        | _, _ => None
        end in
      let mk (re im : option Value) :=
        match re, im with
        | Some re', Some im' => Some (makeComplex re' im')
        | _, _ => None
        end in
      match op with
      | token.ADD => mk (add a c) (add b d)
      | token.SUB => mk (sub a c) (sub b d)
      | token.MUL =>
          let ac := mul a c in let bd := mul b d in
          let bc := mul b c in let ad := mul a d in
          mk (bind2 sub ac bd) (bind2 add bc ad)
      | token.QUO =>
          let ac := mul a c in let bd := mul b d in
          let bc := mul b c in let ad := mul a d in
          let s := bind2 add (mul c c) (mul d d) in
          mk (bind2 quo (bind2 add ac bd) s) (bind2 quo (bind2 sub bc ad) s)
      | _ => None
      end
  | complexVal _ _, _ => None
  | _, _ => binaryOp_real x op y
  end.

(** [constant.UnaryOp] at precision 0 (untyped operands). *)
Definition unaryOp_real (op : token.Token) (y : Value) : option Value :=
  match op, y with
  | token.ADD, (unknownVal | intVal _ | ratVal _) => Some y
  | token.SUB, unknownVal => Some y
  | token.SUB, intVal i => Some (intVal (- i))
  | token.SUB, ratVal q => Some (makeRat (Qopp q))
  | token.XOR, unknownVal => Some y
  | token.XOR, intVal i => Some (intVal (Z.lnot i))
  | token.NOT, unknownVal => Some y
  | token.NOT, boolVal b => Some (boolVal (negb b))
  | _, _ => None
  end.

Definition UnaryOp (op : token.Token) (y : Value) : option Value :=
  match op, y with
  | token.ADD, complexVal _ _ => Some y
  | token.SUB, complexVal re im =>
      match unaryOp_real token.SUB re, unaryOp_real token.SUB im with
      | Some re', Some im' => Some (makeComplex re' im')
      | _, _ => None
      end
  | _, _ => unaryOp_real op y
  end.

(** [constant.Shift]. *)
Definition Shift (x : Value) (op : token.Token) (s : Z) : option Value :=
  match x with
  | unknownVal => Some x
  | intVal i =>
      if s =? 0 then Some x
      else match op with
           | token.SHL => Some (intVal (Z.shiftl i s))
           | token.SHR => Some (intVal (Z.shiftr i s))
           | _ => None
           end
  | _ => None
  end.

Definition cmpZero (c : comparison) (op : token.Token) : option bool :=
  match op with
  | token.EQL => Some (match c with Eq => true | _ => false end)
  | token.NEQ => Some (match c with Eq => false | _ => true end)
  | token.LSS => Some (match c with Lt => true | _ => false end)
  | token.LEQ => Some (match c with Gt => false | _ => true end)
  | token.GTR => Some (match c with Gt => true | _ => false end)
  | token.GEQ => Some (match c with Lt => false | _ => true end)
  | _ => None
  end.

Definition compare_real (x_ : Value) (op : token.Token) (y_ : Value)
  : option bool :=
  let '(x, y) := match_ x_ y_ in
  match x, y with
  | unknownVal, _ => Some false
  | boolVal a, boolVal b =>
      match op with
      | token.EQL => Some (Bool.eqb a b)
      | token.NEQ => Some (negb (Bool.eqb a b))
      | _ => None
      end
  | intVal a, intVal b => cmpZero (Z.compare a b) op
  | ratVal a, ratVal b => cmpZero (Qcompare a b) op
  | stringVal a, stringVal b => cmpZero (String.compare a b) op
  | _, _ => None
  end.

(** [constant.Compare]. *)
Definition Compare (x_ : Value) (op : token.Token) (y_ : Value)
  : option bool :=
  let '(x, y) := match_ x_ y_ in
  match x, y with
  | complexVal a b, complexVal c d =>
      match compare_real a token.EQL c, compare_real b token.EQL d with
      | Some re, Some im =>
          match op with
          | token.EQL => Some (re && im)
          | token.NEQ => Some (negb re || negb im)
          | _ => None
          end
      | _, _ => None
      end
  | complexVal _ _, _ => None
  | _, _ => compare_real x op y
  end.

(** ** Literals *)

(** Value of a digit character, 255 when it is not one. *)
Definition digitVal (c : ascii) : Z :=
  let n := Z.of_N (N_of_ascii c) in
  if (48 <=? n) && (n <=? 57) then n - 48
  else if (97 <=? n) && (n <=? 102) then n - 87
  else if (65 <=? n) && (n <=? 70) then n - 55
  else 255.

(** Digits in the given base, most significant first; underscores are
    separators.  [None] on any other character. *)
Fixpoint parseDigits (base : Z) (s : string) (acc : Z) : option Z :=
  match s with
  | EmptyString => Some acc
  | String.String c r =>
      if Ascii.eqb c "_" then parseDigits base r acc
      else if digitVal c <? base then parseDigits base r (acc * base + digitVal c)
      else None
  end.

(** Integer literal, base selected by its prefix ([ParseInt] with base
    0, then [big.Int.SetString]). *)
Definition makeIntFromLiteral (lit : string) : Value :=
  let r :=
    match lit with
    | EmptyString => None
    | String.String "0" (String.String c r) =>
        if Ascii.eqb c "x" || Ascii.eqb c "X" then parseDigits 16 r 0
        else if Ascii.eqb c "o" || Ascii.eqb c "O" then parseDigits 8 r 0
        else if Ascii.eqb c "b" || Ascii.eqb c "B" then parseDigits 2 r 0
        else parseDigits 8 (String.String c r) 0
    | _ => parseDigits 10 lit 0
    end in
  match r with
  | Some i => intVal i
  | None => unknownVal
  end.

(** Longest prefix of decimal digits and underscores. *)
Fixpoint spanDigits (s : string) : string * string :=
  match s with
  | String.String c r =>
      if (digitVal c <? 10) || Ascii.eqb c "_"
      then let '(d, r') := spanDigits r in (String.String c d, r')
      else (EmptyString, s)
  | EmptyString => (EmptyString, s)
  end.

Fixpoint countDigits (s : string) : Z :=
  match s with
  | String.String c r => (if Ascii.eqb c "_" then 0 else 1) + countDigits r
  | EmptyString => 0
  end.

(** [m * 10^e] as a reduced fraction. *)
Definition scale10 (m e : Z) : Q :=
  match e with
  | Zneg p => Qred (Qmake m (10 ^ p)%positive)
  | _ => inject_Z (m * 10 ^ e)
  end.

(** Decimal floating-point literal: the exact rational its digits denote
    ([big.Rat.SetString]). *)
Definition makeFloatFromLiteral (lit : string) : option Q :=
  let '(ip, r1) := spanDigits lit in
  let '(fp, r2) :=
    match r1 with
    | String.String "." r => spanDigits r
    | _ => (EmptyString, r1)
    end in
  let ex :=
    match r2 with
    | EmptyString => Some 0
    | String.String c r =>
        if Ascii.eqb c "e" || Ascii.eqb c "E" then
          match r with
          | String.String "+" d => parseDigits 10 d 0
          | String.String "-" d => option_map Z.opp (parseDigits 10 d 0)
          | _ => parseDigits 10 r 0
          end
        else None
    end in
  match parseDigits 10 (ip +:+ fp) 0, ex with
  | Some m, Some e => Some (scale10 m (e - countDigits fp))
  | _, _ => None
  end.

Fixpoint dropLast (s : string) : string :=
  match s with
  | String.String c EmptyString => EmptyString
  | String.String c r => String.String c (dropLast r)
  | EmptyString => EmptyString
  end.

(** [constant.MakeFromLiteral] for the numeric literals of the fragment;
    Unknown when the text is not a literal of the given kind. *)
Definition MakeFromLiteral (lit : string) (tok : token.Token) : Value :=
  match tok with
  | token.INT => makeIntFromLiteral lit
  | token.FLOAT =>
      match makeFloatFromLiteral lit with
      | Some q => ratVal q
      | None => unknownVal
      end
  | token.IMAG =>
      match makeFloatFromLiteral (dropLast lit) with
      | Some q => makeComplex (intVal 0) (ratVal q)
      | None => unknownVal
      end
  | _ => unknownVal
  end.

End constant.

(* ===================================================================== *)
(** * go/scanner: tokens of the expression fragment *)
(* ===================================================================== *)

Module scanner.

Import token.

(** The scanner state that matters to an expression: the unread source
    and whether a newline or the end of input becomes a semicolon. *)
Record Scanner := { src : string; insertSemi : bool }.

(** A scan step: a token with its literal text and the next state, a
    reported error, or source text outside the modelled fragment. *)
Inductive ScanResult :=
| Scanned (tok : Token) (lit : string) (s : Scanner)
| ScanError (msg : string)
| ScanNotModelled.

Definition code (c : ascii) : N := N_of_ascii c.

Definition between (lo hi c : ascii) : bool :=
  (code lo <=? code c)%N && (code c <=? code hi)%N.

(** [lower]: sets the lower-case bit, [('a' - 'A') | ch]. *)
Definition lower (c : ascii) : ascii := ascii_of_N (N.lor 32 (code c)).

Definition isDecimal (c : ascii) : bool := between "0" "9" c.
Definition isHex (c : ascii) : bool :=
  between "0" "9" c || between "a" "f" (lower c).
(** ASCII part of [isLetter]; bytes from [utf8.RuneSelf] on are outside
    the fragment. *)
Definition isLetter (c : ascii) : bool :=
  between "a" "z" (lower c) || Ascii.eqb c "_".
Definition nonASCII (c : ascii) : bool := (128 <=? code c)%N.

(** [skipWhitespace]. *)
Fixpoint skipWhitespace (insertSemi : bool) (s : string) : string :=
  match s with
  | String c r =>
      if Ascii.eqb c " " || Ascii.eqb c "009"
         || (Ascii.eqb c "010" && negb insertSemi) || Ascii.eqb c "013"
      then skipWhitespace insertSemi r
      else s
  | EmptyString => s
  end.

(** The ASCII loop of [scanIdentifier]: the longest prefix of letters,
    digits and underscores, and what follows it. *)
Fixpoint scanIdentifier (s : string) : string * string :=
  match s with
  | String c r =>
      if isLetter c || isDecimal c
      then let '(id, r') := scanIdentifier r in (String c id, r')
      else (EmptyString, s)
  | EmptyString => (EmptyString, s)
  end.

(** [digits]: consumes digits and underscores of the given base and
    returns [digsep] (bit 0: a digit was seen, bit 1: an underscore was
    seen), whether a decimal digit not below the base was seen, the
    consumed text and the rest. *)
Fixpoint digits (base : N) (s : string) : (bool * bool) * bool * string * string :=
  match s with
  | String c r =>
      let isDig := if (base <=? 10)%N then isDecimal c else isHex c in
      if isDig || Ascii.eqb c "_" then
        let '(dig, sep, inv, lit, r') := digits base r in
        let under := Ascii.eqb c "_" in
        let bad := negb under && (base <=? 10)%N
                   && (code "0" + base <=? code c)%N in
        (dig || negb under, sep || under, inv || bad, String c lit, r')
      else (false, false, false, EmptyString, s)
  | EmptyString => (false, false, false, EmptyString, s)
  end.

(** [invalidSep] as a test: some underscore of the literal does not
    separate successive digits.  [d] is the class of the previous
    character: ["0"] a digit (or the base prefix), ["_"] an underscore,
    ["."] anything else. *)
Fixpoint invalidSep_from (hex : bool) (d : ascii) (x : string) : bool :=
  match x with
  | String c r =>
      if Ascii.eqb c "_" then
        if Ascii.eqb d "0" then invalidSep_from hex "_" r else true
      else if isDecimal c || (hex && isHex c) then invalidSep_from hex "0" r
      else if Ascii.eqb d "_" then true
      else invalidSep_from hex "." r
  | EmptyString => Ascii.eqb d "_"
  end.

Definition invalidSep (x : string) : bool :=
  match x with
  | String "0" (String c r) =>
      let x1 := lower c in
      if Ascii.eqb x1 "x" || Ascii.eqb x1 "o" || Ascii.eqb x1 "b"
      then invalidSep_from (Ascii.eqb x1 "x") "0" r
      else invalidSep_from false "." x
  | _ => invalidSep_from false "." x
  end.

Definition peek (s : string) : ascii :=
  match s with String c _ => c | EmptyString => "000" end.

Definition advance (s : string) : string :=
  match s with String _ r => r | EmptyString => s end.

(** The state of [scanNumber] between its blocks: the token kind so
    far, the base and its prefix (one of ["000"] for decimal, ["0"] for a
    leading 0, ["x"], ["o"], ["b"]), the bits of [digsep], whether an
    invalid digit was met, whether an error was reported, the text
    consumed and the text left. *)
Record number := {
  n_tok : Token;
  n_base : N;
  n_prefix : ascii;
  n_digit : bool;
  n_sep : bool;
  n_invalid : bool;
  n_err : option string;
  n_lit : string;
  n_rest : string
}.

Definition orErr (e : option string) (b : bool) (msg : string) : option string :=
  match e with
  | Some _ => e
  | None => if b then Some msg else None
  end.

(** Integer part: an optional base prefix, then digits. *)
Definition numberInt (s0 : string) : number :=
  if Ascii.eqb (peek s0) "." then
    {| n_tok := ILLEGAL; n_base := 10; n_prefix := "000"; n_digit := false;
       n_sep := false; n_invalid := false; n_err := None;
       n_lit := EmptyString; n_rest := s0 |}
  else
    let '(base, prefix, lead, s1) :=
      if Ascii.eqb (peek s0) "0" then
        let r := advance s0 in
        let l := lower (peek r) in
        if Ascii.eqb l "x" then (16%N, "x"%char, String "0" (String (peek r) EmptyString), advance r)
        else if Ascii.eqb l "o" then (8%N, "o"%char, String "0" (String (peek r) EmptyString), advance r)
        else if Ascii.eqb l "b" then (2%N, "b"%char, String "0" (String (peek r) EmptyString), advance r)
        else (8%N, "0"%char, String "0" EmptyString, r)
      else (10%N, "000"%char, EmptyString, s0) in
    let '(d, sp, iv, l, s2) := digits base s1 in
    {| n_tok := INT; n_base := base; n_prefix := prefix;
       n_digit := d || Ascii.eqb prefix "0"; n_sep := sp; n_invalid := iv;
       n_err := None; n_lit := (lead +:+ l)%string; n_rest := s2 |}.

(** Fractional part, then the test that some digit was present. *)
Definition numberFrac (n : number) : number :=
  let n1 :=
    if Ascii.eqb (peek (n_rest n)) "." then
      let '(d, sp, iv, l, r) := digits (n_base n) (advance (n_rest n)) in
      {| n_tok := FLOAT; n_base := n_base n; n_prefix := n_prefix n;
         n_digit := n_digit n || d; n_sep := n_sep n || sp;
         n_invalid := n_invalid n || iv;
         n_err := orErr (n_err n)
                    (Ascii.eqb (n_prefix n) "o" || Ascii.eqb (n_prefix n) "b")
                    "invalid radix point";
         n_lit := (n_lit n +:+ String "." l)%string; n_rest := r |}
    else n in
  {| n_tok := n_tok n1; n_base := n_base n1; n_prefix := n_prefix n1;
     n_digit := n_digit n1; n_sep := n_sep n1; n_invalid := n_invalid n1;
     n_err := orErr (n_err n1) (negb (n_digit n1)) "literal has no digits";
     n_lit := n_lit n1; n_rest := n_rest n1 |}.

(** Exponent. *)
Definition numberExp (n : number) : number :=
  let e := lower (peek (n_rest n)) in
  if Ascii.eqb e "e" || Ascii.eqb e "p" then
    let bad :=
      (Ascii.eqb e "e" && negb (Ascii.eqb (n_prefix n) "000")
       && negb (Ascii.eqb (n_prefix n) "0"))
      || (Ascii.eqb e "p" && negb (Ascii.eqb (n_prefix n) "x")) in
    let r := advance (n_rest n) in
    let '(sign, r1) :=
      if Ascii.eqb (peek r) "+" || Ascii.eqb (peek r) "-"
      then (String (peek r) EmptyString, advance r) else (EmptyString, r) in
    let '(d, sp, _, l, r2) := digits 10 r1 in
    {| n_tok := FLOAT; n_base := n_base n; n_prefix := n_prefix n;
       n_digit := n_digit n || d; n_sep := n_sep n || sp;
       n_invalid := n_invalid n;
       n_err := orErr (orErr (n_err n) bad "exponent requires another mantissa")
                      (negb d) "exponent has no digits";
       n_lit := (n_lit n +:+ String (peek (n_rest n)) (sign +:+ l))%string;
       n_rest := r2 |}
  else
    {| n_tok := n_tok n; n_base := n_base n; n_prefix := n_prefix n;
       n_digit := n_digit n; n_sep := n_sep n; n_invalid := n_invalid n;
       n_err := orErr (n_err n)
                  (Ascii.eqb (n_prefix n) "x" && token.eqb (n_tok n) FLOAT)
                  "hexadecimal mantissa requires a 'p' exponent";
       n_lit := n_lit n; n_rest := n_rest n |}.

(** Suffix [i]. *)
Definition numberImag (n : number) : number :=
  if Ascii.eqb (peek (n_rest n)) "i" then
    {| n_tok := IMAG; n_base := n_base n; n_prefix := n_prefix n;
       n_digit := n_digit n; n_sep := n_sep n; n_invalid := n_invalid n;
       n_err := n_err n; n_lit := (n_lit n +:+ "i")%string;
       n_rest := advance (n_rest n) |}
  else n.

(** [scanNumber], entered on a decimal digit or on a period followed by
    one: the four blocks, then the tests on the whole literal.  Literals
    with a base prefix that are not integers are outside the fragment. *)
Definition scanNumber (s0 : string) : ScanResult :=
  let n := numberImag (numberExp (numberFrac (numberInt s0))) in
  let err :=
    orErr (orErr (n_err n) (token.eqb (n_tok n) INT && n_invalid n) "invalid digit")
          (n_sep n && invalidSep (n_lit n)) "'_' must separate successive digits" in
  match err with
  | Some msg => ScanError msg
  | None =>
      if negb (token.eqb (n_tok n) INT)
         && (Ascii.eqb (n_prefix n) "x" || Ascii.eqb (n_prefix n) "o"
             || Ascii.eqb (n_prefix n) "b")
      then ScanNotModelled
      else Scanned (n_tok n) (n_lit n) {| src := n_rest n; insertSemi := true |}
  end.

(** [switch2], [switch3], [switch4]: operators that extend with [=] or
    a second character. *)
Definition switch2 (s : string) (tok0 tok1 : Token) : Token * string :=
  if Ascii.eqb (peek s) "=" then (tok1, advance s) else (tok0, s).

Definition switch3 (s : string) (tok0 tok1 : Token) (ch2 : ascii) (tok2 : Token)
  : Token * string :=
  if Ascii.eqb (peek s) "=" then (tok1, advance s)
  else if Ascii.eqb (peek s) ch2 then (tok2, advance s)
  else (tok0, s).

Definition switch4 (s : string) (tok0 tok1 : Token) (ch2 : ascii) (tok2 tok3 : Token)
  : Token * string :=
  if Ascii.eqb (peek s) "=" then (tok1, advance s)
  else if Ascii.eqb (peek s) ch2 then
    if Ascii.eqb (peek (advance s)) "=" then (tok3, advance (advance s))
    else (tok2, advance s)
  else (tok0, s).

Definition emit (ts : Token * string) (semi : bool) : ScanResult :=
  Scanned (fst ts) EmptyString {| src := snd ts; insertSemi := semi |}.

(** [Scanner.Scan]. *)
Definition Scan (sc : Scanner) : ScanResult :=
  let s := skipWhitespace (insertSemi sc) (src sc) in
  match s with
  | EmptyString =>
      if insertSemi sc
      then Scanned SEMICOLON (String "010" EmptyString) {| src := s; insertSemi := false |}
      else Scanned EOF EmptyString {| src := s; insertSemi := false |}
  | String ch r =>
      if nonASCII ch then ScanNotModelled
      else if isLetter ch then
        let '(lit, r') := scanIdentifier s in
        if nonASCII (peek r') then ScanNotModelled
        else
          let tok := if (1 <? String.length lit)%nat then Lookup lit else IDENT in
          let semi := match tok with
                      | IDENT | BREAK | CONTINUE | FALLTHROUGH | RETURN => true
                      | _ => false
                      end in
          Scanned tok lit {| src := r'; insertSemi := semi |}
      else if isDecimal ch || (Ascii.eqb ch "." && isDecimal (peek r)) then
        scanNumber s
      else if Ascii.eqb ch "010" then
        Scanned SEMICOLON (String "010" EmptyString) {| src := r; insertSemi := false |}
      else if Ascii.eqb ch "034" || Ascii.eqb ch "'" || Ascii.eqb ch "`" then
        ScanNotModelled
      else if Ascii.eqb ch ":" then emit (switch2 r COLON DEFINE) false
      else if Ascii.eqb ch "." then
        if Ascii.eqb (peek r) "." && Ascii.eqb (peek (advance r)) "."
        then emit (ELLIPSIS, advance (advance r)) false
        else emit (PERIOD, r) false
      else if Ascii.eqb ch "," then emit (COMMA, r) false
      else if Ascii.eqb ch ";" then
        Scanned SEMICOLON ";" {| src := r; insertSemi := false |}
      else if Ascii.eqb ch "(" then emit (LPAREN, r) false
      else if Ascii.eqb ch ")" then emit (RPAREN, r) true
      else if Ascii.eqb ch "[" then emit (LBRACK, r) false
      else if Ascii.eqb ch "]" then emit (RBRACK, r) true
      else if Ascii.eqb ch "{" then emit (LBRACE, r) false
      else if Ascii.eqb ch "}" then emit (RBRACE, r) true
      else if Ascii.eqb ch "+" then
        let ts := switch3 r ADD ADD_ASSIGN "+" INC in
        emit ts (token.eqb (fst ts) INC)
      else if Ascii.eqb ch "-" then
        let ts := switch3 r SUB SUB_ASSIGN "-" DEC in
        emit ts (token.eqb (fst ts) DEC)
      else if Ascii.eqb ch "*" then emit (switch2 r MUL MUL_ASSIGN) false
      else if Ascii.eqb ch "/" then
        if Ascii.eqb (peek r) "/" || Ascii.eqb (peek r) "*"
        then ScanNotModelled
        else emit (switch2 r QUO QUO_ASSIGN) false
      else if Ascii.eqb ch "%" then emit (switch2 r REM REM_ASSIGN) false
      else if Ascii.eqb ch "^" then emit (switch2 r XOR XOR_ASSIGN) false
      else if Ascii.eqb ch "<" then
        if Ascii.eqb (peek r) "-" then emit (ARROW, advance r) false
        else emit (switch4 r LSS LEQ "<" SHL SHL_ASSIGN) false
      else if Ascii.eqb ch ">" then
        emit (switch4 r GTR GEQ ">" SHR SHR_ASSIGN) false
      else if Ascii.eqb ch "=" then emit (switch2 r ASSIGN EQL) false
      else if Ascii.eqb ch "!" then emit (switch2 r NOT NEQ) false
      else if Ascii.eqb ch "&" then
        if Ascii.eqb (peek r) "^"
        then emit (switch2 (advance r) AND_NOT AND_NOT_ASSIGN) false
        else emit (switch3 r AND AND_ASSIGN "&" LAND) false
      else if Ascii.eqb ch "|" then emit (switch3 r OR OR_ASSIGN "|" LOR) false
      else if Ascii.eqb ch "~" then emit (TILDE, r) false
      else ScanError "illegal character"
  end.

End scanner.

(* ===================================================================== *)
(** * go/ast and go/parser: expressions of the fragment *)
(* ===================================================================== *)

Module ast.

Inductive Expr :=
| Ident (name : string)
| BasicLit (kind : token.Token) (value : string)
| ParenExpr (x : Expr)
| SelectorExpr (x : Expr) (sel : string)
| UnaryExpr (op : token.Token) (x : Expr)
| BinaryExpr (x : Expr) (op : token.Token) (y : Expr).

Fixpoint Unparen (e : Expr) : Expr :=
  match e with
  | ParenExpr x => Unparen x
  | _ => e
  end.

End ast.

Module parser.

Import token.

Inductive ParseError :=
| SyntaxError (msg : string)
| NotModelled.

(** Result of a parsing function: a value, the first error, or a
    recursion budget that ran out. *)
Inductive PResult (A : Type) :=
| POk (a : A)
| PErr (e : ParseError)
| PFuel.
Arguments POk {A} a.
Arguments PErr {A} e.
Arguments PFuel {A}.

(** The parser state: the current token and the scanner behind it. *)
Record parser := { tok : Token; lit : string; sc : scanner.Scanner }.

(** [parser.next]. *)
Definition next (p : parser) : PResult parser :=
  match scanner.Scan (sc p) with
  | scanner.Scanned t l s => POk {| tok := t; lit := l; sc := s |}
  | scanner.ScanError msg => PErr (SyntaxError msg)
  | scanner.ScanNotModelled => PErr NotModelled
  end.

#[export] Instance PResult_bind : MBind PResult := fun A B k r =>
  match r with
  | POk a => k a
  | PErr e => PErr e
  | PFuel => PFuel
  end.

(** The selector loop of [parsePrimaryExpr]. *)
Fixpoint primaryLoop (fuel : nat) (x : ast.Expr) (p : parser)
  : PResult (ast.Expr * parser) :=
  match fuel with
  | O => PFuel
  | S f =>
      match tok p with
      | PERIOD =>
          p1 ← next p;
          match tok p1 with
          | IDENT =>
              p2 ← next p1;
              primaryLoop f (ast.SelectorExpr x (lit p1)) p2
          | LPAREN => PErr NotModelled
          | _ => PErr (SyntaxError "expected selector or type assertion")
          end
      | LBRACK | LPAREN => PErr NotModelled
      | LBRACE =>
          match ast.Unparen x with
          | ast.Ident _ | ast.SelectorExpr _ _ => PErr NotModelled
          | _ => POk (x, p)
          end
      | _ => POk (x, p)
      end
  end.

(** [parseBinaryExpr], [parseUnaryExpr] and [parseOperand]; the loop of
    [parseBinaryExpr] is [binaryLoop]. *)
Fixpoint parseBinaryExpr (fuel : nat) (p : parser) (prec1 : nat)
  : PResult (ast.Expr * parser) :=
  match fuel with
  | O => PFuel
  | S f =>
      '(x, p1) ← parseUnaryExpr f p;
      binaryLoop f x p1 prec1
  end
with binaryLoop (fuel : nat) (x : ast.Expr) (p : parser) (prec1 : nat)
  : PResult (ast.Expr * parser) :=
  match fuel with
  | O => PFuel
  | S f =>
      match tok p with
      | ASSIGN => PErr (SyntaxError "expected '==', found '='")
      | op =>
          let oprec := Precedence op in
          if (oprec <? prec1)%nat then POk (x, p)
          else
            p1 ← next p;
            '(y, p2) ← parseBinaryExpr f p1 (S oprec);
            binaryLoop f (ast.BinaryExpr x op y) p2 prec1
      end
  end
with parseUnaryExpr (fuel : nat) (p : parser) : PResult (ast.Expr * parser) :=
  match fuel with
  | O => PFuel
  | S f =>
      match tok p with
      | ADD | SUB | NOT | XOR | AND | TILDE =>
          p1 ← next p;
          '(x, p2) ← parseUnaryExpr f p1;
          POk (ast.UnaryExpr (tok p) x, p2)
      | ARROW | MUL => PErr NotModelled
      | _ =>
          '(x, p1) ← parseOperand f p;
          primaryLoop f x p1
      end
  end
with parseOperand (fuel : nat) (p : parser) : PResult (ast.Expr * parser) :=
  match fuel with
  | O => PFuel
  | S f =>
      match tok p with
      | IDENT => p1 ← next p; POk (ast.Ident (lit p), p1)
      | INT | FLOAT | IMAG | CHAR | STRING =>
          p1 ← next p; POk (ast.BasicLit (tok p) (lit p), p1)
      | LPAREN =>
          p1 ← next p;
          '(x, p2) ← parseBinaryExpr f p1 (S LowestPrec);
          match tok p2 with
          | RPAREN => p3 ← next p2; POk (ast.ParenExpr x, p3)
          | _ => PErr (SyntaxError "expected ')'")
          end
      | FUNC | LBRACK | STRUCT | INTERFACE | MAP | CHAN => PErr NotModelled
      | _ => PErr (SyntaxError "expected operand")
      end
  end.

(** Recursion budget for a source text: a token other than the end of
    input costs at most three nested calls, and a text of [n] characters
    holds at most [2 * n] such tokens (a one-character token can be followed
    by an inserted semicolon).  [ParseExprFrom_total] shows that the budget
    never runs out. *)
Definition budget (src : string) : nat := (16 + 6 * String.length src)%nat.

(** [parser.ParseExprFrom]: the expression, an inserted final semicolon,
    then the end of input. *)
Definition ParseExprFrom (src : string) : PResult ast.Expr :=
  p0 ← next {| tok := ILLEGAL; lit := EmptyString;
               sc := {| scanner.src := src; scanner.insertSemi := false |} |};
  '(e, p1) ← parseBinaryExpr (budget src) p0 (S LowestPrec);
  p2 ← (match tok p1, lit p1 with
        | SEMICOLON, String "010" EmptyString => next p1
        | _, _ => POk p1
        end);
  match tok p2 with
  | EOF => POk e
  | _ => PErr (SyntaxError "expected 'EOF'")
  end.

End parser.

(* ===================================================================== *)
(** * unicode/utf8 and unicode *)
(* ===================================================================== *)

Module utf8.

Definition RuneError : Z := 65533.
Definition RuneSelf : Z := 128.

Definition byte (c : ascii) : Z := Z.of_N (N_of_ascii c).

Definition continuation (lo hi b : Z) : bool := (lo <=? b) && (b <=? hi).

(** [utf8.DecodeRuneInString]: the first rune of [s] and its width in
    bytes; [(RuneError, 0)] on the empty string and [(RuneError, 1)] on
    an invalid encoding. *)
Definition DecodeRuneInString (s : string) : Z * nat :=
  match s with
  | EmptyString => (RuneError, 0%nat)
  | String c0 r =>
      let s0 := byte c0 in
      if s0 <? 128 then (s0, 1%nat)
      else if (s0 <? 194) || (244 <? s0) then (RuneError, 1%nat)
      else
        (* width and accepted range of the second byte, from the tables
           [first] and [acceptRanges] *)
        let sz := if s0 <? 224 then 2%nat else if s0 <? 240 then 3%nat else 4%nat in
        let lo := if s0 =? 224 then 160 else if s0 =? 240 then 144 else 128 in
        let hi := if s0 =? 237 then 159 else if s0 =? 244 then 143 else 191 in
        match r with
        | EmptyString => (RuneError, 1%nat)
        | String c1 r1 =>
            let s1 := byte c1 in
            if (String.length s <? sz)%nat then (RuneError, 1%nat)
            else if negb (continuation lo hi s1) then (RuneError, 1%nat)
            else if (sz <=? 2)%nat then
              (Z.lor (Z.shiftl (Z.land s0 31) 6) (Z.land s1 63), 2%nat)
            else
              match r1 with
              | EmptyString => (RuneError, 1%nat)
              | String c2 r2 =>
                  let s2 := byte c2 in
                  if negb (continuation 128 191 s2) then (RuneError, 1%nat)
                  else if (sz <=? 3)%nat then
                    (Z.lor (Z.lor (Z.shiftl (Z.land s0 15) 12)
                                  (Z.shiftl (Z.land s1 63) 6))
                           (Z.land s2 63), 3%nat)
                  else
                    match r2 with
                    | EmptyString => (RuneError, 1%nat)
                    | String c3 _ =>
                        let s3 := byte c3 in
                        if negb (continuation 128 191 s3) then (RuneError, 1%nat)
                        else
                          (Z.lor (Z.lor (Z.lor (Z.shiftl (Z.land s0 7) 18)
                                               (Z.shiftl (Z.land s1 63) 12))
                                        (Z.shiftl (Z.land s2 63) 6))
                                 (Z.land s3 63), 4%nat)
                    end
              end
        end
  end.

End utf8.

Module unicode.

Definition MaxLatin1 : Z := 255.

(** The upper-case letters of Latin-1 (the entries of [properties] with
    class [pLu]): A-Z, U+00C0-U+00D6 and U+00D8-U+00DE. *)
Definition latin1_upper (r : Z) : bool :=
  ((65 <=? r) && (r <=? 90)) || ((192 <=? r) && (r <=? 214))
  || ((216 <=? r) && (r <=? 222)).

(** [unicode.IsUpper].  [Upper] stands for the range table
    [unicode.Upper], consulted for runes above [MaxLatin1]. *)
Definition IsUpper (Upper : Z -> bool) (r : Z) : bool :=
  if (0 <=? r) && (r <=? MaxLatin1) then latin1_upper r else Upper r.

End unicode.

(* ===================================================================== *)
(** * go/types: packages, scopes, objects and [types.Eval] *)
(* ===================================================================== *)

Module types.

Inductive BasicKind :=
| Invalid
| Bool | Int | Int8 | Int16 | Int32 | Int64
| Uint | Uint8 | Uint16 | Uint32 | Uint64 | Uintptr
| Float32 | Float64 | Complex64 | Complex128
| String | UnsafePointer
| UntypedBool | UntypedInt | UntypedRune | UntypedFloat | UntypedComplex
| UntypedString | UntypedNil.

(** [types.Type], as far as the fragment meets it: the basic types
    [Typ[k]] and the other predeclared types, by name. *)
Inductive Type_ :=
| Typ (k : BasicKind)
| Named (name : string).

(** [types.TypeAndValue]: [None] is Go's nil [Type] or nil [Value]. *)
Record TypeAndValue := {
  tv_Type : option Type_;
  tv_Value : option constant.Value
}.

(** A package is referred to by its address in the store. *)
Definition PackageRef := nat.

(** [types.Object]: what a name of a scope denotes. *)
Inductive Object :=
| Const (typ : option Type_) (val : option constant.Value)
| PkgName (imported : PackageRef)
| TypeName (typ : Type_)
| Nil
| Builtin
| Iota.

(** [types.Package] with the elements of its [types.Scope]; the parent
    of every package scope is the universe. *)
Record Package := {
  path : string;
  name : string;
  scope : gmap string Object
}.

(** The store of allocated packages: [*types.Package] is an index. *)
Abbreviation Store := (list Package).

(** [types.NewPackage]: a fresh package with an empty scope. *)
Definition NewPackage (path name : string) (h : Store) : PackageRef * Store :=
  (length h, h ++ [{| path := path; name := name; scope := ∅ |}]).

(** [Scope.Lookup] in the scope of package [p]. *)
Definition Scope_Lookup (h : Store) (p : PackageRef) (n : string) : option Object :=
  match h !! p with
  | Some pkg => scope pkg !! n
  | None => None
  end.

(** [Scope.Insert]: leaves the scope unchanged when the name is already
    there. *)
Definition Scope_Insert (h : Store) (p : PackageRef) (n : string) (obj : Object)
  : Store :=
  match h !! p with
  | Some pkg =>
      match scope pkg !! n with
      | Some _ => h
      | None =>
          <[p := {| path := path pkg; name := name pkg;
                    scope := <[n := obj]> (scope pkg) |}]> h
      end
  | None => h
  end.

(** The universe scope. *)
Definition universe_types : list (string * Type_) :=
  [ ("bool", Typ Bool); ("int", Typ Int); ("int8", Typ Int8);
    ("int16", Typ Int16); ("int32", Typ Int32); ("int64", Typ Int64);
    ("uint", Typ Uint); ("uint8", Typ Uint8); ("uint16", Typ Uint16);
    ("uint32", Typ Uint32); ("uint64", Typ Uint64); ("uintptr", Typ Uintptr);
    ("float32", Typ Float32); ("float64", Typ Float64);
    ("complex64", Typ Complex64); ("complex128", Typ Complex128);
    ("string", Typ String); ("byte", Typ Uint8); ("rune", Typ Int32);
    ("error", Named "error"); ("any", Named "any");
    ("comparable", Named "comparable") ]%string.

Definition universe_builtins : list string :=
  [ "append"; "cap"; "clear"; "close"; "complex"; "copy"; "delete"; "imag";
    "len"; "make"; "max"; "min"; "new"; "panic"; "print"; "println"; "real";
    "recover" ]%string.

Definition Universe : gmap string Object :=
  <["true" := Const (Some (Typ UntypedBool)) (Some (constant.boolVal true))]>
  (<["false" := Const (Some (Typ UntypedBool)) (Some (constant.boolVal false))]>
  (<["iota" := Iota]>
  (<["nil" := Nil]>
  (list_to_map (((λ nt, (nt.1, TypeName nt.2)) <$> universe_types)
                ++ ((λ n, (n, Builtin)) <$> universe_builtins)))))).

(** [Scope.LookupParent] from the scope [types.Eval] starts in: the
    package scope when a package is given, then the universe. *)
Definition LookupParent (h : Store) (pkg : option PackageRef) (n : string)
  : option Object :=
  match pkg with
  | Some p =>
      match Scope_Lookup h p n with
      | Some obj => Some obj
      | None => Universe !! n
      end
  | None => Universe !! n
  end.

(** ** The checker on constant expressions *)

(** Error codes of the checker ([internal/types/errors]) that the
    fragment can raise.  [OutsideFragment] is not a code of the library:
    it marks an operand the model does not follow (a typed constant, a
    method expression, a string or rune literal). *)
Inductive Code :=
| UndeclaredName | InvalidBlank | UndeclaredImportedName | UnexportedName
| InvalidPkgUse | InvalidIota | NotAnExpr | UncalledBuiltin
| UnaddressableOperand | UndefinedOp | MismatchedTypes | DivByZero
| InvalidShiftOperand | InvalidShiftCount | NumericOverflow | TruncatedFloat
| InvalidConstVal | MissingFieldOrMethod
| OutsideFragment.

(** A checker step: a result, the first reported error (the checker is
    run without an error handler and bails out), or a panic raised by an
    assertion of the checker or by [go/constant]. *)
Inductive Checked (A : Type) :=
| Done (a : A)
| Error (code : Code)
| Panic.
Arguments Done {A} a.
Arguments Error {A} code.
Arguments Panic {A}.

#[export] Instance Checked_bind : MBind Checked := fun A B k r =>
  match r with
  | Done a => k a
  | Error c => Error c
  | Panic => Panic
  end.

(** [operand] with its mode. *)
Inductive operand :=
| op_invalid
| op_builtin
| op_typexpr (t : Type_)
| op_constant (t : Type_) (v : constant.Value)
| op_value (t : Type_).

Definition isUntyped (t : Type_) : bool :=
  match t with
  | Typ (UntypedBool | UntypedInt | UntypedRune | UntypedFloat
        | UntypedComplex | UntypedString | UntypedNil) => true
  | _ => false
  end.

Definition isBoolean (t : Type_) : bool :=
  match t with Typ (Bool | UntypedBool) => true | _ => false end.

Definition isString (t : Type_) : bool :=
  match t with Typ (String | UntypedString) => true | _ => false end.

Definition isInteger (t : Type_) : bool :=
  match t with
  | Typ (Int | Int8 | Int16 | Int32 | Int64
        | Uint | Uint8 | Uint16 | Uint32 | Uint64 | Uintptr
        | UntypedInt | UntypedRune) => true
  | _ => false
  end.

Definition isFloat (t : Type_) : bool :=
  match t with Typ (Float32 | Float64 | UntypedFloat) => true | _ => false end.

Definition isComplex (t : Type_) : bool :=
  match t with Typ (Complex64 | Complex128 | UntypedComplex) => true | _ => false end.

Definition isNumeric (t : Type_) : bool := isInteger t || isFloat t || isComplex t.
Definition isOrdered (t : Type_) : bool := isInteger t || isFloat t || isString t.
Definition isNumericOrString (t : Type_) : bool := isNumeric t || isString t.

Definition Type_eq_dec (a b : Type_) : {a = b} + {a <> b}.
Proof. repeat decide equality. Defined.

Definition Identical (a b : Type_) : bool := if Type_eq_dec a b then true else false.

(** Rank of the untyped numeric kinds: integer, rune, floating-point,
    complex. *)
Definition numericRank (t : Type_) : option nat :=
  match t with
  | Typ UntypedInt => Some 0%nat
  | Typ UntypedRune => Some 1%nat
  | Typ UntypedFloat => Some 2%nat
  | Typ UntypedComplex => Some 3%nat
  | _ => None
  end.

(** [maxType]: the larger of two untyped numeric types, the type itself
    when both are the same, [None] otherwise. *)
Definition maxType (x y : Type_) : option Type_ :=
  if Identical x y then Some x
  else match numericRank x, numericRank y with
       | Some a, Some b => Some (if (a <? b)%nat then y else x)
       | _, _ => None
       end.

(** [unaryOpPredicates] and [binaryOpPredicates]. *)
Definition unaryOpPredicate (op : token.Token) : option (Type_ -> bool) :=
  match op with
  | token.ADD | token.SUB => Some isNumeric
  | token.XOR => Some isInteger
  | token.NOT => Some isBoolean
  | _ => None
  end.

Definition binaryOpPredicate (op : token.Token) : option (Type_ -> bool) :=
  match op with
  | token.ADD => Some isNumericOrString
  | token.SUB | token.MUL | token.QUO => Some isNumeric
  | token.REM => Some isInteger
  | token.AND | token.OR | token.XOR | token.AND_NOT => Some isInteger
  | token.LAND | token.LOR => Some isBoolean
  | _ => None
  end.

Definition isShift (op : token.Token) : bool :=
  match op with token.SHL | token.SHR => true | _ => false end.

Definition isComparison (op : token.Token) : bool :=
  match op with
  | token.EQL | token.NEQ | token.LSS | token.LEQ | token.GTR | token.GEQ => true
  | _ => false
  end.

(** The constant precision of untyped integers and the bound on
    constant shift counts. *)
Definition prec : Z := 512.
Definition shiftBound : Z := 1023 - 1 + 52.

(** [Checker.overflow] on an untyped constant. *)
Definition overflow (t : Type_) (v : constant.Value) : Checked operand :=
  match v with
  | constant.unknownVal => Error InvalidConstVal
  | constant.intVal i =>
      match constant.BitLen v with
      | Some n => if prec <? n then Error InvalidConstVal else Done (op_constant t v)
      | None => Panic
      end
  | _ => Done (op_constant t v)
  end.

(** [Checker.basicLit]. *)
Definition basicLit (kind : token.Token) (lit : string) : Checked operand :=
  let k := match kind with
           | token.INT => Some UntypedInt
           | token.FLOAT => Some UntypedFloat
           | token.IMAG => Some UntypedComplex
           | _ => None
           end in
  match k with
  | None => Error OutsideFragment
  | Some k =>
      if 10000 <? Z.of_nat (String.length lit) then Error InvalidConstVal
      else
        match constant.MakeFromLiteral lit kind with
        | constant.unknownVal => Error InvalidConstVal
        | v => overflow (Typ k) v
        end
  end.

(** An untyped constant as an operand; constants of other types are
    outside the fragment. *)
Definition constOperand (t : Type_) (v : constant.Value) : Checked operand :=
  if isUntyped t then Done (op_constant t v) else Error OutsideFragment.

(** [Checker.exclude] of the modes builtin and typexpr, as [Checker.expr]
    applies it to the operands of an operator. *)
Definition exclude (x : operand) : Checked operand :=
  match x with
  | op_builtin => Error UncalledBuiltin
  | op_typexpr _ => Error NotAnExpr
  | _ => Done x
  end.

(** [Checker.unary] on a checked operand. *)
Definition unary (op : token.Token) (x : operand) : Checked operand :=
  match x with
  | op_invalid => Done op_invalid
  | op_builtin => Error UncalledBuiltin
  | op_typexpr _ => Error NotAnExpr
  | op_constant t _ | op_value t =>
      match op with
      | token.AND => Error UnaddressableOperand
      | token.TILDE => Error UndefinedOp
      | _ =>
          match unaryOpPredicate op with
          | None => Error UndefinedOp
          | Some pred =>
              if negb (pred t) then Error UndefinedOp
              else
                match x with
                | op_constant t v =>
                    match v with
                    | constant.unknownVal => Done x
                    | _ =>
                        match constant.UnaryOp op v with
                        | Some v' => overflow t v'
                        | None => Panic
                        end
                    end
                | _ => Done x
                end
          end
      end
  end.

(** The part of [representableConst] used for shift counts: an untyped
    constant as a [uint] of 64 bits. *)
Definition representableUint (t : Type_) (v : constant.Value) : Checked unit :=
  match v with
  | constant.unknownVal => Done tt
  | _ =>
      match constant.ToInt v with
      | constant.intVal i =>
          if (0 <=? i) && (i <? constant.two64) then Done tt
          else if isNumeric t && negb (isInteger t) then Error TruncatedFloat
          else if isNumeric t then Error NumericOverflow
          else Error InvalidConstVal
      | _ =>
          if isNumeric t && negb (isInteger t) then Error TruncatedFloat
          else if isNumeric t then Error NumericOverflow
          else Error InvalidConstVal
      end
  end.

(** [Checker.shift]. *)
Definition shift (op : token.Token) (x y : operand) : Checked operand :=
  match x with
  | op_constant tx vx =>
      let xval := constant.ToInt vx in
      if negb (isInteger tx
               || (isUntyped tx && constant.Kind_eqb (constant.Value_Kind xval) constant.Int))
      then Error InvalidShiftOperand
      else
        match y with
        | op_constant ty vy =>
            let yval := constant.ToInt vy in
            match yval with
            | constant.intVal i =>
                if i <? 0 then Error InvalidShiftCount else Done tt
            | _ => Done tt
            end;;
            (if isUntyped ty then representableUint ty vy else Done tt);;
            match vx, vy with
            | constant.unknownVal, _ | _, constant.unknownVal =>
                Done (op_constant (if isInteger tx then tx else Typ UntypedInt)
                                  constant.unknownVal)
            | _, _ =>
                match constant.Uint64Val yval with
                | Some (s, ok) =>
                    if negb ok || (shiftBound <? s) then Error InvalidShiftCount
                    else
                      match constant.Shift xval op s with
                      | Some v => overflow (if isInteger tx then tx else Typ UntypedInt) v
                      | None => Panic
                      end
                | None => Panic
                end
            end
        | _ => Error InvalidShiftCount
        end
  | _ => Error InvalidShiftOperand
  end.

(** [Checker.comparison] on two constants whose types were matched. *)
Definition comparison (op : token.Token) (tx : Type_) (vx : constant.Value)
    (ty : Type_) (vy : constant.Value) : Checked operand :=
  if negb (Identical tx ty) then Error MismatchedTypes
  else
    match op with
    | token.EQL | token.NEQ =>
        match constant.Compare vx op vy with
        | Some b => Done (op_constant (Typ UntypedBool) (constant.MakeBool b))
        | None => Panic
        end
    | _ =>
        if negb (isOrdered tx) then Error UndefinedOp
        else
          match constant.Compare vx op vy with
          | Some b => Done (op_constant (Typ UntypedBool) (constant.MakeBool b))
          | None => Panic
          end
    end.

(** [Checker.matchTypes] on two untyped constants: both take the larger
    type when one may convert to the other. *)
Definition matchTypes (tx ty : Type_) : Type_ * Type_ :=
  if negb (Bool.eqb (isBoolean tx) (isBoolean ty)) then (tx, ty)
  else if negb (Bool.eqb (isString tx) (isString ty)) then (tx, ty)
  else match maxType tx ty with
       | Some m => (m, m)
       | None => (tx, ty)
       end.

(** The zero-divisor tests of [Checker.binary]. *)
Definition zeroDivisor (tx : Type_) (vy : constant.Value) : Checked bool :=
  match constant.Sign vy with
  | None => Panic
  | Some 0 => Done true
  | Some _ =>
      if isComplex tx then
        match constant.Real vy, constant.Imag vy with
        | Some re, Some im =>
            match constant.BinaryOp re token.MUL re,
                  constant.BinaryOp im token.MUL im with
            | Some re2, Some im2 =>
                match constant.Sign re2, constant.Sign im2 with
                | Some a, Some b => Done ((a =? 0) && (b =? 0))
                | _, _ => Panic
                end
            | _, _ => Panic
            end
        | _, _ => Panic
        end
      else Done false
  end.

(** [Checker.binary] on two checked operands. *)
Definition binary (op : token.Token) (x y : operand) : Checked operand :=
  match x, y with
  | op_invalid, _ | _, op_invalid => Done op_invalid
  | op_constant tx0 vx, op_constant ty0 vy =>
      if isShift op then shift op x y
      else
        let '(tx, ty) := matchTypes tx0 ty0 in
        if isComparison op then comparison op tx vx ty vy
        else if negb (Identical tx ty) then Error MismatchedTypes
        else
          match binaryOpPredicate op with
          | None => Error UndefinedOp
          | Some pred =>
              if negb (pred tx) then Error UndefinedOp
              else
                zero ← (match op with
                        | token.QUO | token.REM => zeroDivisor tx vy
                        | _ => Done false
                        end);
                if (zero : bool) then Error DivByZero
                else
                  match vx, vy with
                  | constant.unknownVal, _ | _, constant.unknownVal =>
                      Done (op_constant tx constant.unknownVal)
                  | _, _ =>
                      let op' := match op with
                                 | token.QUO =>
                                     if isInteger tx then token.QUO_ASSIGN else op
                                 | _ => op
                                 end in
                      match constant.BinaryOp vx op' vy with
                      | Some v => overflow tx v
                      | None => Panic
                      end
                  end
          end
  | _, _ =>
      (* an operand that is the value nil *)
      if isShift op then
        match x with
        | op_constant _ _ => Error InvalidShiftCount
        | _ => Error InvalidShiftOperand
        end
      else
        match x, y with
        | op_value tx, op_value ty =>
            if isComparison op then Error UndefinedOp
            else if Identical tx ty then Error UndefinedOp
            else Error MismatchedTypes
        | _, _ => Error MismatchedTypes
        end
  end.

Section Checker.

(** The range table [unicode.Upper], the store of packages and the
    package the expression is evaluated in. *)
Variable Upper : Z -> bool.
Variable h : Store.
Variable pkg : option PackageRef.

(** [token.IsExported], which is also [Object.Exported]. *)
Definition IsExported (n : string) : bool :=
  unicode.IsUpper Upper (utf8.DecodeRuneInString n).1.

(** [Checker.ident]. *)
Definition ident (n : string) : Checked operand :=
  match LookupParent h pkg n with
  | None =>
      if String.eqb n "_" then Error InvalidBlank else Error UndeclaredName
  | Some (PkgName _) => Error InvalidPkgUse
  | Some (Const None _) => Panic
  | Some (Const (Some (Typ Invalid)) _) => Done op_invalid
  | Some (Const (Some _) None) => Panic
  | Some (Const (Some t) (Some v)) => constOperand t v
  | Some Iota => Error InvalidIota
  | Some (TypeName t) => Done (op_typexpr t)
  | Some Nil => Done (op_value (Typ UntypedNil))
  | Some Builtin => Done op_builtin
  end.

(** The qualified-identifier case of [Checker.selector]: [sel] is
    looked up in the scope of the imported package only and must be
    exported. *)
Definition qualified (imported : PackageRef) (sel : string) : Checked operand :=
  match Scope_Lookup h imported sel with
  | None => Error UndeclaredImportedName
  | Some exp =>
      if negb (IsExported sel) then Error UnexportedName
      else
        match exp with
        | Const (Some t) (Some v) => constOperand t v
        | Const _ _ => Panic
        | TypeName t => Done (op_typexpr t)
        | Builtin => Done op_builtin
        | _ => Panic
        end
  end.

(** [Checker.rawExpr]; the operands of an operator go through
    [Checker.expr], which excludes types and builtins. *)
Fixpoint rawExpr (e : ast.Expr) : Checked operand :=
  match e with
  | ast.Ident n => ident n
  | ast.BasicLit kind lit => basicLit kind lit
  | ast.ParenExpr x => rawExpr x
  | ast.SelectorExpr x sel =>
      let general :=
        x' ← rawExpr x;
        match x' with
        | op_invalid => Done op_invalid
        | op_builtin => Error UncalledBuiltin
        | op_typexpr (Named _) => Error OutsideFragment
        | _ => Error MissingFieldOrMethod
        end in
      match x with
      | ast.Ident n =>
          match LookupParent h pkg n with
          | Some (PkgName imported) => qualified imported sel
          | _ => general
          end
      | _ => general
      end
  | ast.UnaryExpr op x =>
      x' ← rawExpr x;
      x'' ← exclude x';
      unary op x''
  | ast.BinaryExpr x op y =>
      x' ← rawExpr x;
      x'' ← exclude x';
      y' ← rawExpr y;
      y'' ← exclude y';
      binary op x'' y''
  end.

(** [Checker.record]: what [Info.Types] holds for the expression. *)
Definition record (x : operand) : TypeAndValue :=
  match x with
  | op_invalid => {| tv_Type := None; tv_Value := None |}
  | op_builtin => {| tv_Type := Some (Typ Invalid); tv_Value := None |}
  | op_typexpr t => {| tv_Type := Some t; tv_Value := None |}
  | op_constant t v => {| tv_Type := Some t; tv_Value := Some v |}
  | op_value t => {| tv_Type := Some t; tv_Value := None |}
  end.

(** The error value of [types.Eval]. *)
Inductive EvalError :=
| ParseError (e : parser.ParseError)
| TypeError (code : Code).

(** Outcome of [types.Eval]: a [TypeAndValue] with a nil error, a
    non-nil error, or a panic. *)
Inductive EvalResult :=
| Evaluated (tv : TypeAndValue)
| Failed (err : EvalError)
| Panicked.

(** [types.Eval(fset, pkg, token.NoPos, expr)]. *)
Definition Eval (expr : string) : EvalResult :=
  match parser.ParseExprFrom expr with
  | parser.POk e =>
      match rawExpr e with
      | Done x => Evaluated (record x)
      | Error OutsideFragment => Failed (ParseError parser.NotModelled)
      | Error c => Failed (TypeError c)
      | Panic => Panicked
      end
  | parser.PErr e => Failed (ParseError e)
  | parser.PFuel => Failed (ParseError (parser.SyntaxError "exceeded max nesting depth"))
  end.

End Checker.

End types.

(* ===================================================================== *)
(** * Package calc (main.go) *)
(* ===================================================================== *)

Module calc.

(** [Scope]: the zero value, with a nil package, is valid. *)
Record Scope := { p : option types.PackageRef }.

(** The errors the package returns: the error of [types.Eval] passed
    through, and the errors built with [fmt.Errorf], by format string:
    - [NotFloat]: "not representable as a float (%v): %q"
    - [NotComplex]: "not representable as a complex (%v): %q"
    - [NotInt]: "not representable as an int (%v): %q"
    - [NotInt64]: "not exactly representable as an int64: %q"
    - [NotUint64]: "not exactly representable as an uint64: %q"
    - [NotBool]: "not representable as a bool (%v): %q"
    - [NotString]: "not representable as a string (%v): %q"
    - [PackageExported]: "package names cannot be exported: %v" *)
Inductive error :=
| EvalError (e : types.EvalError)
| NotFloat (k : constant.Kind) (expr : string)
| NotComplex (k : constant.Kind) (expr : string)
| NotInt (k : constant.Kind) (expr : string)
| NotInt64 (expr : string)
| NotUint64 (expr : string)
| NotBool (k : constant.Kind) (expr : string)
| NotString (k : constant.Kind) (expr : string)
| PackageExported (name : string).

(** A call returns or panics. *)
Inductive Outcome (A : Type) :=
| Return (a : A)
| Panics.
Arguments Return {A} a.
Arguments Panics {A}.

(** The machine values of the narrowing functions. *)
Definition NaN : spec_float := S754_nan.
Definition complex128 : Type := constant.float64 * constant.float64.
Definition complex64 : Type := constant.float32 * constant.float32.
Definition complex_zero : spec_float * spec_float := (S754_zero false, S754_zero false).

(** [constant.ToFloat], [ToInt] and [ToComplex] take an interface value;
    on the nil interface their type switch falls through to Unknown. *)
Definition ToFloat (val : option constant.Value) : constant.Value :=
  from_option constant.ToFloat constant.unknownVal val.
Definition ToInt (val : option constant.Value) : constant.Value :=
  from_option constant.ToInt constant.unknownVal val.
Definition ToComplex (val : option constant.Value) : constant.Value :=
  from_option constant.ToComplex constant.unknownVal val.

(** [val.Kind()], a nil dereference on the nil interface. *)
Definition Kind (val : option constant.Value) : Outcome constant.Kind :=
  match val with
  | Some v => Return (constant.Value_Kind v)
  | None => Panics
  end.

(** The dynamic values [AssignValue] may be given: the sixteen kinds of
    its type switch, and [other] for a value of any other dynamic type
    (named by [T]), the nil interface included. *)
Inductive any :=
| float64 (o : constant.float64)
| float32 (o : constant.float32)
| complex_128 (re im : constant.float64)
| complex_64 (re im : constant.float32)
| int64 (o : Z)
| int32 (o : Z)
| int16 (o : Z)
| int8 (o : Z)
| int (o : Z)
| uint64 (o : Z)
| uint32 (o : Z)
| uint16 (o : Z)
| uint8 (o : Z)
| uint (o : Z)
| bool_ (o : bool)
| string_ (o : string)
| other (T : string).

Section Calc.

(** The range table [unicode.Upper] and the store of packages. *)
Variable Upper : Z -> bool.

(** [Scope.eval]. *)
Definition Scope_eval (h : types.Store) (s : Scope) (expr : string)
  : Outcome (option constant.Value * option error) :=
  match types.Eval Upper h (p s) expr with
  | types.Evaluated tv => Return (types.tv_Value tv, None)
  | types.Failed err => Return (None, Some (EvalError err))
  | types.Panicked => Panics
  end.

(** [Scope.pack]: the package of the scope, allocated on first use. *)
Definition Scope_pack (s : Scope) (h : types.Store)
  : types.PackageRef * Scope * types.Store :=
  match p s with
  | Some a => (a, s, h)
  | None =>
      let '(a, h') := types.NewPackage "main" "main" h in
      (a, {| p := Some a |}, h')
  end.

(** [Scope.assign]. *)
Definition Scope_assign (s : Scope) (name : string) (tv : types.TypeAndValue)
    (h : types.Store) : Scope * types.Store :=
  let '(a, s', h') := Scope_pack s h in
  (s', types.Scope_Insert h' a name
         (types.Const (types.tv_Type tv) (types.tv_Value tv))).

(** [Scope.Float64]. *)
Definition Scope_Float64 (h : types.Store) (s : Scope) (expr : string)
  : Outcome (constant.float64 * option error) :=
  match Scope_eval h s expr with
  | Panics => Panics
  | Return (_, Some err) => Return (NaN, Some err)
  | Return (val, None) =>
      let fval := ToFloat val in
      match constant.Value_Kind fval with
      | constant.Unknown =>
          match Kind val with
          | Return k => Return (NaN, Some (NotFloat k expr))
          | Panics => Panics
          end
      | _ =>
          match constant.Float64Val fval with
          | Some (f, _) => Return (f, None)
          | None => Panics
          end
      end
  end.

(** [Scope.Float32]. *)
Definition Scope_Float32 (h : types.Store) (s : Scope) (expr : string)
  : Outcome (constant.float32 * option error) :=
  match Scope_eval h s expr with
  | Panics => Panics
  | Return (_, Some err) => Return (NaN, Some err)
  | Return (val, None) =>
      let fval := ToFloat val in
      match constant.Value_Kind fval with
      | constant.Unknown =>
          match Kind val with
          | Return k => Return (NaN, Some (NotFloat k expr))
          | Panics => Panics
          end
      | _ =>
          match constant.Float32Val fval with
          | Some (f, _) => Return (f, None)
          | None => Panics
          end
      end
  end.

(** [Scope.Complex128]; the named result [cplx] is zero on an error. *)
Definition Scope_Complex128 (h : types.Store) (s : Scope) (expr : string)
  : Outcome (complex128 * option error) :=
  match Scope_eval h s expr with
  | Panics => Panics
  | Return (_, Some err) => Return (complex_zero, Some err)
  | Return (val, None) =>
      let fval := ToComplex val in
      match constant.Value_Kind fval with
      | constant.Unknown =>
          match Kind val with
          | Return k => Return (complex_zero, Some (NotComplex k expr))
          | Panics => Panics
          end
      | _ =>
          match constant.Real fval ≫= constant.Float64Val,
                constant.Imag fval ≫= constant.Float64Val with
          | Some (r, _), Some (i, _) => Return ((r, i), None)
          | _, _ => Panics
          end
      end
  end.

(** [Scope.Complex64]. *)
Definition Scope_Complex64 (h : types.Store) (s : Scope) (expr : string)
  : Outcome (complex64 * option error) :=
  match Scope_eval h s expr with
  | Panics => Panics
  | Return (_, Some err) => Return (complex_zero, Some err)
  | Return (val, None) =>
      let fval := ToComplex val in
      match constant.Value_Kind fval with
      | constant.Unknown =>
          match Kind val with
          | Return k => Return (complex_zero, Some (NotComplex k expr))
          | Panics => Panics
          end
      | _ =>
          match constant.Real fval ≫= constant.Float32Val,
                constant.Imag fval ≫= constant.Float32Val with
          | Some (r, _), Some (i, _) => Return ((r, i), None)
          | _, _ => Panics
          end
      end
  end.

(** [Scope.Int]. *)
Definition Scope_Int (h : types.Store) (s : Scope) (expr : string)
  : Outcome (Z * option error) :=
  match Scope_eval h s expr with
  | Panics => Panics
  | Return (_, Some err) => Return (0, Some err)
  | Return (val, None) =>
      let ival := ToInt val in
      match constant.Value_Kind ival with
      | constant.Unknown =>
          match Kind val with
          | Return k => Return (0, Some (NotInt k expr))
          | Panics => Panics
          end
      | _ =>
          match constant.Int64Val ival with
          | Some (i, ok) =>
              if negb ok then Return (0, Some (NotInt64 expr))
              else Return (i, None)
          | None => Panics
          end
      end
  end.

(** [Scope.Uint]. *)
Definition Scope_Uint (h : types.Store) (s : Scope) (expr : string)
  : Outcome (Z * option error) :=
  match Scope_eval h s expr with
  | Panics => Panics
  | Return (_, Some err) => Return (0, Some err)
  | Return (val, None) =>
      let ival := ToInt val in
      match constant.Value_Kind ival with
      | constant.Unknown =>
          match Kind val with
          | Return k => Return (0, Some (NotInt k expr))
          | Panics => Panics
          end
      | _ =>
          match constant.Uint64Val ival with
          | Some (i, ok) =>
              if negb ok then Return (0, Some (NotUint64 expr))
              else Return (i, None)
          | None => Panics
          end
      end
  end.

(** [Scope.Bool]. *)
Definition Scope_Bool (h : types.Store) (s : Scope) (expr : string)
  : Outcome (bool * option error) :=
  match Scope_eval h s expr with
  | Panics => Panics
  | Return (_, Some err) => Return (false, Some err)
  | Return (val, None) =>
      match val with
      | None => Panics
      | Some v =>
          match constant.Value_Kind v with
          | constant.Bool =>
              match constant.BoolVal v with
              | Some b => Return (b, None)
              | None => Panics
              end
          | k => Return (false, Some (NotBool k expr))
          end
      end
  end.

(** [Scope.String]. *)
Definition Scope_String (h : types.Store) (s : Scope) (expr : string)
  : Outcome (string * option error) :=
  match Scope_eval h s expr with
  | Panics => Panics
  | Return (_, Some err) => Return (EmptyString, Some err)
  | Return (val, None) =>
      match val with
      | None => Panics
      | Some v =>
          match constant.Value_Kind v with
          | constant.String =>
              match constant.StringVal v with
              | Some str => Return (str, None)
              | None => Panics
              end
          | k => Return (EmptyString, Some (NotString k expr))
          end
      end
  end.

(** [Scope.Assign].  The receiver is a pointer: the call returns the
    error together with the receiver and the store as it leaves
    them. *)
Definition Scope_Assign (s : Scope) (name expr : string) (h : types.Store)
  : Outcome (option error * Scope * types.Store) :=
  match types.Eval Upper h (p s) expr with
  | types.Panicked => Panics
  | types.Failed err => Return (Some (EvalError err), s, h)
  | types.Evaluated tv =>
      let '(s', h') := Scope_assign s name tv h in
      Return (None, s', h')
  end.

(** The complex constant [x + yi] that [AssignValue] builds. *)
Definition complexConst (re im : spec_float) : option constant.Value :=
  let x := constant.MakeFloat64 re in
  let y := constant.MakeFloat64 im in
  constant.MakeImag y ≫= constant.BinaryOp x token.ADD.

(** [Scope.AssignValue]. *)
Definition Scope_AssignValue (s : Scope) (name : string) (v : any)
    (h : types.Store) : Outcome (Scope * types.Store) :=
  let assign k val :=
    Return (Scope_assign s name
              {| types.tv_Type := Some (types.Typ k);
                 types.tv_Value := Some val |} h) in
  match v with
  | float64 o => assign types.UntypedFloat (constant.MakeFloat64 o)
  | float32 o => assign types.UntypedFloat (constant.MakeFloat64 o)
  | complex_128 re im | complex_64 re im =>
      match complexConst re im with
      | Some val => assign types.UntypedComplex val
      | None => Panics
      end
  | int64 o | int32 o | int16 o | int8 o | int o =>
      assign types.UntypedInt (constant.MakeInt64 o)
  | uint64 o | uint32 o | uint16 o | uint8 o | uint o =>
      assign types.UntypedInt (constant.MakeUint64 o)
  | bool_ o => assign types.UntypedBool (constant.MakeBool o)
  | string_ o => assign types.UntypedString (constant.MakeString o)
  | other _ => Panics
  end.

(** [Scope.Import].  Receiver and [lib] are pointers to two distinct
    [Scope] variables; the call returns the error, both scopes and the
    store as it leaves them. *)
Definition Scope_Import (s : Scope) (name : string) (lib : Scope)
    (h : types.Store) : option error * Scope * Scope * types.Store :=
  let '(ch, _) := utf8.DecodeRuneInString name in
  if unicode.IsUpper Upper ch then (Some (PackageExported name), s, lib, h)
  else
    let '(a, s', h1) := Scope_pack s h in
    let '(b, lib', h2) := Scope_pack lib h1 in
    (None, s', lib', types.Scope_Insert h2 a name (types.PkgName b)).

(** The package-level functions evaluate in the zero [Scope]. *)
Definition zero : Scope := {| p := None |}.

Definition Float32 (h : types.Store) (expr : string) := Scope_Float32 h zero expr.
Definition Float64 (h : types.Store) (expr : string) := Scope_Float64 h zero expr.
Definition Complex64 (h : types.Store) (expr : string) := Scope_Complex64 h zero expr.
Definition Complex128 (h : types.Store) (expr : string) := Scope_Complex128 h zero expr.
Definition Int (h : types.Store) (expr : string) := Scope_Int h zero expr.
Definition Uint (h : types.Store) (expr : string) := Scope_Uint h zero expr.
Definition Bool (h : types.Store) (expr : string) := Scope_Bool h zero expr.
Definition String (h : types.Store) (expr : string) := Scope_String h zero expr.

End Calc.

End calc.

(* ===================================================================== *)
(** * Notions used to state the properties *)
(* ===================================================================== *)

(** A range table with no entry above Latin-1, to run the definitions on
    names written in ASCII. *)
Definition no_upper_table : Z -> bool := fun _ => false.

(** [lit] is scanned as one integer literal token and denotes [a]. *)
Definition IntLiteral (lit : string) (a : Z) : Prop :=
  scanner.isDecimal (scanner.peek lit) = true
  /\ scanner.scanNumber lit
     = scanner.Scanned token.INT lit
         {| scanner.src := EmptyString; scanner.insertSemi := true |}
  /\ constant.MakeFromLiteral lit token.INT = constant.intVal a.

(** A non-empty string of decimal digits that does not start with 0. *)
Fixpoint all_decimal (s : string) : bool :=
  match s with
  | EmptyString => true
  | String c r => scanner.isDecimal c && all_decimal r
  end.

Definition decimal_numeral (s : string) : Prop :=
  all_decimal s = true /\ s <> EmptyString /\ scanner.peek s <> "0"%char.

(** The limit of [Checker.basicLit] on the length of a numeric literal. *)
Definition literal_limit : nat := Z.to_nat 10000.

(** An integer literal of 10001 characters that denotes 1: ten thousand
    zeros, then a one (a legacy octal literal). *)
Fixpoint zeros (n : nat) : string :=
  match n with
  | O => EmptyString
  | S k => String "0" (zeros k)
  end.

Definition long_literal : string := (zeros literal_limit +:+ "1")%string.

(** A scope without entries: the zero [Scope], or one whose package has an
    empty scope. *)
Definition Scope_empty (h : types.Store) (s : calc.Scope) : Prop :=
  match calc.p s with
  | None => True
  | Some a => exists pkg, h !! a = Some pkg /\ types.scope pkg = ∅
  end.

(** The package of a scope is allocated in the store. *)
Definition Scope_valid (h : types.Store) (s : calc.Scope) : Prop :=
  match calc.p s with
  | None => True
  | Some a => is_Some (h !! a)
  end.

(** What [name] denotes in the scope itself (not in the universe). *)
Definition Scope_binding (h : types.Store) (s : calc.Scope) (name : string)
  : option types.Object :=
  match calc.p s with
  | None => None
  | Some a => types.Scope_Lookup h a name
  end.

(** The kinds of the type switch of [AssignValue]. *)
Definition recognized (v : calc.any) : bool :=
  match v with
  | calc.other _ => false
  | _ => true
  end.

(** Sequencing of calls that may panic. *)
Definition andThen {A B} (r : calc.Outcome A) (k : A -> calc.Outcome B)
  : calc.Outcome B :=
  match r with
  | calc.Return a => k a
  | calc.Panics => calc.Panics
  end.

(** The program of [ExampleScope_Import]: a library scope [lib] receives
    S, M, H and D through [Assign], is imported into [c] as "time", and
    the expression is narrowed with [c.Int].  Both scopes start as zero
    values in an empty store. *)
Definition ExampleScope_Import (Upper : Z -> bool)
  : calc.Outcome (list (option calc.error) * (Z * option calc.error)) :=
  let c := calc.zero in
  let lib := calc.zero in
  andThen (calc.Scope_Assign Upper lib "S" "1" []) (fun '(e1, lib, h) =>
  andThen (calc.Scope_Assign Upper lib "M" "60*S" h) (fun '(e2, lib, h) =>
  andThen (calc.Scope_Assign Upper lib "H" "60*M" h) (fun '(e3, lib, h) =>
  andThen (calc.Scope_Assign Upper lib "D" "24*H" h) (fun '(e4, lib, h) =>
  let '(e5, c, lib, h) := calc.Scope_Import Upper c "time" lib h in
  andThen (calc.Scope_Int Upper h c "2*time.D + 4*time.H") (fun r =>
  calc.Return ([e1; e2; e3; e4; e5], r)))))).

(** [Assign("x","1")], then [Assign("x","2")], then [Int("x")] on the
    scope, in sequence: the two errors and the result of [Int]. *)
Definition assign_twice (Upper : Z -> bool) (s : calc.Scope) (h : types.Store)
  : calc.Outcome (option calc.error * option calc.error * (Z * option calc.error)) :=
  andThen (calc.Scope_Assign Upper s "x" "1" h) (fun '(e1, s1, h1) =>
  andThen (calc.Scope_Assign Upper s1 "x" "2" h1) (fun '(e2, s2, h2) =>
  andThen (calc.Scope_Int Upper h2 s2 "x") (fun r =>
  calc.Return (e1, e2, r)))).

(** The scanner state [n] with a space and [r] appended to the unread
    text. *)
Definition frame (r : string) (n : scanner.number) : scanner.number :=
  {| scanner.n_tok := scanner.n_tok n; scanner.n_base := scanner.n_base n;
     scanner.n_prefix := scanner.n_prefix n; scanner.n_digit := scanner.n_digit n;
     scanner.n_sep := scanner.n_sep n; scanner.n_invalid := scanner.n_invalid n;
     scanner.n_err := scanner.n_err n; scanner.n_lit := scanner.n_lit n;
     scanner.n_rest := (scanner.n_rest n +:+ String " " r)%string |}.

(** An upper bound on the tokens, other than the end of input, that a
    scanner state still yields, and the same bound for a parser state,
    which holds one token already. *)
Definition scanner_weight (sc : scanner.Scanner) : nat :=
  (2 * String.length (scanner.src sc) + (if scanner.insertSemi sc then 1 else 0))%nat.

Definition token_weight (t : token.Token) : nat :=
  match t with token.EOF => 0%nat | _ => 1%nat end.

Definition parser_weight (p : parser.parser) : nat :=
  (token_weight (parser.tok p) + scanner_weight (parser.sc p))%nat.

(** A parsing result that is not a spent budget and whose final parser
    state weighs at most [n]. *)
Definition within {A} (r : parser.PResult (A * parser.parser)) (n : nat) : Prop :=
  r <> parser.PFuel
  /\ forall x p', r = parser.POk (x, p') -> (parser_weight p' <= n)%nat.

(** The float64 value 2.5 = 5629499534213120 * 2^-51. *)
Definition f64_2_5 : constant.float64 := S754_finite false 5629499534213120 (-51).

(** The store with one package whose scope is empty. *)
Definition one_empty_package : types.Store :=
  [ {| types.path := "main"; types.name := "main"; types.scope := ∅ |} ].

(** What a call tells besides its value: the error it returns, or that
    it panics. *)
Definition verdict {A} (r : calc.Outcome (A * option calc.error))
  : calc.Outcome (option calc.error) :=
  match r with
  | calc.Return (_, err) => calc.Return err
  | calc.Panics => calc.Panics
  end.

(** The characters of an identifier written in ASCII. *)
Fixpoint ident_chars (s : string) : bool :=
  match s with
  | EmptyString => true
  | String c r => (scanner.isLetter c || scanner.isDecimal c) && ident_chars r
  end.

(** A Go identifier written in ASCII that is no keyword: a letter or an
    underscore, then letters, digits and underscores. *)
Definition isIdentifier (name : string) : bool :=
  scanner.isLetter (scanner.peek name) && ident_chars name
  && token.eqb (token.Lookup name) token.IDENT.

(** An operand that is a constant has an untyped type. *)
Definition untyped_operand (x : types.operand) : Prop :=
  match x with
  | types.op_constant t _ => types.isUntyped t = true
  | _ => True
  end.

(** The decimal text of an integer, as [strconv.FormatInt] in base 10
    prints it. *)
Definition FormatInt (z : Z) : string := NilZero.string_of_int (Z.to_int z).

(** The program of [ExampleInt]: the values that the calls of [calc.Int]
    print, in order, each with the error the example drops (the line
    printed from [strconv.ParseInt] is no call of this package). *)
Definition ExampleInt (Upper : Z -> bool)
  : list (calc.Outcome (Z * option calc.error)) :=
  calc.Int Upper [] <$>
    [ "2"; "2+2"; "1<<100 + 2 - 1<<100"; "0777"; "0xFF";
      "0b1010 ^ 0b0101"; "0xFF - 0b11111110" ]%string.

(** The program of [ExampleScope_Assign]: the scope [c] receives s, m,
    h, d and w through [Assign]; then [c.Int] of "2.5*d" and of
    "2*d + 4*h" and [c.Float64] of "2.5*s". *)
Definition ExampleScope_Assign (Upper : Z -> bool)
  : calc.Outcome (list (option calc.error)
                  * (Z * option calc.error) * (Z * option calc.error)
                  * (constant.float64 * option calc.error)) :=
  let c := calc.zero in
  andThen (calc.Scope_Assign Upper c "s" "1" []) (fun '(e1, c, h) =>
  andThen (calc.Scope_Assign Upper c "m" "60*s" h) (fun '(e2, c, h) =>
  andThen (calc.Scope_Assign Upper c "h" "60*m" h) (fun '(e3, c, h) =>
  andThen (calc.Scope_Assign Upper c "d" "24*h" h) (fun '(e4, c, h) =>
  andThen (calc.Scope_Assign Upper c "w" "7*d" h) (fun '(e5, c, h) =>
  andThen (calc.Scope_Int Upper h c "2.5*d") (fun r1 =>
  andThen (calc.Scope_Int Upper h c "2*d + 4*h") (fun r2 =>
  andThen (calc.Scope_Float64 Upper h c "2.5*s") (fun r3 =>
  calc.Return ([e1; e2; e3; e4; e5], r1, r2, r3))))))))).

(* ===================================================================== *)
(** * Properties of the scanner *)
(* ===================================================================== *)

Section ScannerFacts.

Import scanner.

Implicit Types (s r : string) (c k : ascii).

Lemma peek_app_nonempty s r :
  s <> EmptyString -> peek (s +:+ String " " r) = peek s.
Proof. destruct s; [congruence|reflexivity]. Qed.

Lemma advance_app_nonempty s r :
  s <> EmptyString -> advance (s +:+ String " " r) = (advance s +:+ String " " r)%string.
Proof. destruct s; [congruence|reflexivity]. Qed.

(** A space after the text reads like the end of the text to every test
    [scanNumber] makes on the next character. *)
Lemma peek_app_eqb s r k :
  Ascii.eqb " " k = false -> Ascii.eqb "000" k = false ->
  Ascii.eqb (peek (s +:+ String " " r)) k = Ascii.eqb (peek s) k.
Proof. destruct s; simpl; congruence. Qed.

Lemma peek_app_lower s r : lower (peek (s +:+ String " " r)) = lower (peek s).
Proof. destruct s; reflexivity. Qed.

Lemma peek_eqb_nonempty s k :
  Ascii.eqb "000" k = false -> Ascii.eqb (peek s) k = true -> s <> EmptyString.
Proof. destruct s; simpl; congruence. Qed.

Lemma peek_lower_nonempty s k :
  Ascii.eqb " " k = false -> Ascii.eqb (lower (peek s)) k = true -> s <> EmptyString.
Proof. destruct s; [|congruence]. simpl. change (lower "000") with " "%char. congruence. Qed.

Lemma digits_app_space base s r :
  digits base (s +:+ String " " r)
  = let '(d, sp, iv, l, s2) := digits base s in
    (d, sp, iv, l, (s2 +:+ String " " r)%string).
Proof.
  induction s as [|c s IH]; simpl.
  - now destruct (base <=? 10)%N.
  - destruct ((if (base <=? 10)%N then isDecimal c else isHex c) || Ascii.eqb c "_");
      [|reflexivity].
    rewrite IH. now destruct (digits base s) as [[[[d sp] iv] l] s2].
Qed.

Lemma numberInt_frame s0 r :
  numberInt (s0 +:+ String " " r) = frame r (numberInt s0).
Proof.
  unfold numberInt.
  rewrite !peek_app_eqb by reflexivity.
  destruct (Ascii.eqb (peek s0) ".") eqn:Hdot; [reflexivity|].
  destruct (Ascii.eqb (peek s0) "0") eqn:H0.
  - assert (Hs0 : s0 <> EmptyString) by (eapply peek_eqb_nonempty; [|exact H0]; reflexivity).
    rewrite (advance_app_nonempty s0 r Hs0), peek_app_lower.
    set (t := advance s0).
    destruct (Ascii.eqb (lower (peek t)) "x") eqn:Hx;
      [|destruct (Ascii.eqb (lower (peek t)) "o") eqn:Ho;
        [|destruct (Ascii.eqb (lower (peek t)) "b") eqn:Hb]].
    1-3: match goal with
         | H : Ascii.eqb (lower (peek ?u)) _ = true |- _ =>
             assert (Ht : u <> EmptyString)
               by (eapply peek_lower_nonempty; [|exact H]; reflexivity);
             rewrite (peek_app_nonempty u r Ht), (advance_app_nonempty u r Ht),
               digits_app_space;
             now destruct (digits _ (advance u)) as [[[[d sp] iv] l] s2]
         end.
    rewrite digits_app_space. now destruct (digits _ t) as [[[[d sp] iv] l] s2].
  - rewrite digits_app_space. now destruct (digits _ s0) as [[[[d sp] iv] l] s2].
Qed.

Lemma numberFrac_frame n r : numberFrac (frame r n) = frame r (numberFrac n).
Proof.
  unfold numberFrac, frame; simpl.
  rewrite peek_app_eqb by reflexivity.
  destruct (Ascii.eqb (peek (n_rest n)) ".") eqn:Hdot; [|reflexivity].
  assert (Hs : n_rest n <> EmptyString) by (eapply peek_eqb_nonempty; [|exact Hdot]; reflexivity).
  rewrite (advance_app_nonempty _ r Hs), digits_app_space.
  now destruct (digits _ (advance (n_rest n))) as [[[[d sp] iv] l] s2].
Qed.

Lemma numberExp_frame n r : numberExp (frame r n) = frame r (numberExp n).
Proof.
  unfold numberExp, frame; simpl.
  rewrite peek_app_lower.
  destruct (Ascii.eqb (lower (peek (n_rest n))) "e" || Ascii.eqb (lower (peek (n_rest n))) "p")
    eqn:He; [|reflexivity].
  assert (Hs : n_rest n <> EmptyString).
  { apply orb_true_iff in He as [He|He];
      (eapply peek_lower_nonempty; [|exact He]; reflexivity). }
  rewrite (peek_app_nonempty _ r Hs), (advance_app_nonempty _ r Hs).
  set (t := advance (n_rest n)).
  rewrite !peek_app_eqb by reflexivity.
  destruct (Ascii.eqb (peek t) "+" || Ascii.eqb (peek t) "-") eqn:Hsign.
  - assert (Ht : t <> EmptyString).
    { apply orb_true_iff in Hsign as [Hsign|Hsign];
        (eapply peek_eqb_nonempty; [|exact Hsign]; reflexivity). }
    rewrite (peek_app_nonempty t r Ht), (advance_app_nonempty t r Ht), digits_app_space.
    now destruct (digits _ (advance t)) as [[[[d sp] iv] l] s2].
  - rewrite digits_app_space. now destruct (digits _ t) as [[[[d sp] iv] l] s2].
Qed.

Lemma numberImag_frame n r : numberImag (frame r n) = frame r (numberImag n).
Proof.
  unfold numberImag, frame; simpl.
  rewrite peek_app_eqb by reflexivity.
  destruct (Ascii.eqb (peek (n_rest n)) "i") eqn:Hi; [|reflexivity].
  assert (Hs : n_rest n <> EmptyString) by (eapply peek_eqb_nonempty; [|exact Hi]; reflexivity).
  now rewrite (advance_app_nonempty _ r Hs).
Qed.

(** [scanNumber] reads a number followed by a space as it reads the
    number alone, and leaves the space. *)
Lemma scanNumber_frame s0 r :
  scanNumber (s0 +:+ String " " r)
  = match scanNumber s0 with
    | Scanned tok lit sc =>
        Scanned tok lit {| src := (src sc +:+ String " " r)%string;
                           insertSemi := insertSemi sc |}
    | res => res
    end.
Proof.
  unfold scanNumber.
  rewrite numberInt_frame, numberFrac_frame, numberExp_frame, numberImag_frame.
  set (n := numberImag (numberExp (numberFrac (numberInt s0)))).
  unfold frame; cbn [n_tok n_prefix n_sep n_invalid n_err n_lit n_rest].
  destruct (orErr _ _ _); [reflexivity|].
  now destruct (negb _ && _).
Qed.

(** A decimal digit is no white space and no letter. *)
Lemma isDecimal_class c :
  isDecimal c = true ->
  Ascii.eqb c " " = false /\ Ascii.eqb c "009" = false
  /\ Ascii.eqb c "010" = false /\ Ascii.eqb c "013" = false
  /\ nonASCII c = false /\ isLetter c = false.
Proof.
  destruct c as [[] [] [] [] [] [] [] []]; lazy; intros H;
    try discriminate H; repeat split.
Qed.

Lemma skipWhitespace_digit ins s :
  isDecimal (peek s) = true -> skipWhitespace ins s = s.
Proof.
  destruct s as [|c s]; [reflexivity|]. simpl. intros Hc.
  destruct (isDecimal_class c Hc) as (-> & -> & -> & -> & _). reflexivity.
Qed.

(** [Scan] on a text that starts with a decimal digit is [scanNumber]. *)
Lemma Scan_digit ins s :
  isDecimal (peek s) = true ->
  Scan {| src := s; insertSemi := ins |} = scanNumber s.
Proof.
  intros Hc. unfold Scan. simpl. rewrite (skipWhitespace_digit ins s Hc).
  destruct s as [|c s]; [discriminate|]. simpl in Hc.
  destruct (isDecimal_class c Hc) as (_ & _ & _ & _ & -> & ->).
  now rewrite Hc.
Qed.

Lemma Scan_space ins s :
  Scan {| src := String " " s; insertSemi := ins |}
  = Scan {| src := s; insertSemi := ins |}.
Proof. reflexivity. Qed.

(** ** Decimal numerals are integer literals *)

Lemma isDecimal_digit c :
  isDecimal c = true ->
  Ascii.eqb c "_" = false /\ Ascii.eqb c "." = false
  /\ (code "0" + 10 <=? code c)%N = false
  /\ (constant.digitVal c <? 10) = true.
Proof.
  destruct c as [[] [] [] [] [] [] [] []]; lazy; intros H;
    try discriminate H; repeat split.
Qed.

Lemma digits_all_decimal s :
  all_decimal s = true ->
  digits 10 s = (negb (String.eqb s EmptyString), false, false, s, EmptyString).
Proof.
  induction s as [|c s IH]; [reflexivity|]. cbn [all_decimal].
  intros [Hc Hs]%andb_true_iff. cbn [digits]. rewrite (IH Hs).
  destruct (isDecimal_digit c Hc) as (Hu & _ & Hb & _).
  cbn [N.leb N.compare Pos.compare Pos.compare_cont]. rewrite Hc, Hu, Hb.
  cbn [negb andb orb String.eqb]. now rewrite orb_true_r.
Qed.

Lemma parseDigits_all_decimal s acc :
  all_decimal s = true -> exists v, constant.parseDigits 10 s acc = Some v.
Proof.
  revert acc. induction s as [|c s IH]; intros acc; [now eexists|].
  cbn [all_decimal]. intros [Hc Hs]%andb_true_iff. cbn [constant.parseDigits].
  destruct (isDecimal_digit c Hc) as (-> & _ & _ & ->). now apply IH.
Qed.

Lemma makeIntFromLiteral_decimal s :
  decimal_numeral s ->
  constant.makeIntFromLiteral s
  = match constant.parseDigits 10 s 0 with
    | Some i => constant.intVal i
    | None => constant.unknownVal
    end.
Proof.
  intros (_ & Hne & H0). destruct s as [|c s]; [congruence|]. cbn [peek] in H0.
  unfold constant.makeIntFromLiteral.
  destruct c as [[] [] [] [] [] [] [] []]; try reflexivity. congruence.
Qed.

(** Every decimal numeral is an integer literal. *)
Lemma decimal_numeral_IntLiteral s :
  decimal_numeral s -> exists a, IntLiteral s a.
Proof.
  intros Hs. pose proof Hs as (Hall & Hne & H0).
  destruct (parseDigits_all_decimal s 0 Hall) as [v Hv].
  exists v. unfold IntLiteral.
  destruct s as [|c s]; [congruence|]. cbn [peek] in *.
  cbn [all_decimal] in Hall. apply andb_true_iff in Hall as [Hc Hall'].
  destruct (isDecimal_digit c Hc) as (Hu & Hdot & Hb & Hd).
  split; [exact Hc|]. split.
  - unfold scanNumber, numberInt. cbn [peek]. rewrite Hdot.
    destruct (Ascii.eqb_spec c "0") as [->|_]; [congruence|].
    rewrite (digits_all_decimal (String c s))
      by (cbn [all_decimal]; now rewrite Hc, Hall').
    reflexivity.
  - unfold constant.MakeFromLiteral.
    rewrite (makeIntFromLiteral_decimal (String c s) Hs), Hv. reflexivity.
Qed.

End ScannerFacts.

(* ===================================================================== *)
(** * Parsing the sum of two integer literals *)
(* ===================================================================== *)

Section LiteralSum.

Import scanner parser.

Variables (la lb : string) (a b : Z).
Hypothesis Ha : IntLiteral la a.
Hypothesis Hb : IntLiteral lb b.

Lemma IntLiteral_nonempty l v : IntLiteral l v -> l <> EmptyString.
Proof. intros (Hd & _ & _) ->. discriminate Hd. Qed.

Lemma Scan_first ins :
  Scan {| src := (la +:+ " + " +:+ lb)%string; insertSemi := ins |}
  = Scanned token.INT la
      {| src := String " " (String "+" (String " " lb)); insertSemi := true |}.
Proof.
  destruct Ha as (Hd & Hs & _).
  change (la +:+ " + " +:+ lb)%string
    with (la +:+ String " " (String "+" (String " " lb)))%string.
  rewrite Scan_digit
    by (rewrite peek_app_nonempty; [exact Hd|now apply (IntLiteral_nonempty la a)]).
  now rewrite scanNumber_frame, Hs.
Qed.

Lemma Scan_plus ins :
  Scan {| src := String " " (String "+" (String " " lb)); insertSemi := ins |}
  = Scanned token.ADD EmptyString {| src := String " " lb; insertSemi := false |}.
Proof. reflexivity. Qed.

Lemma Scan_second ins :
  Scan {| src := String " " lb; insertSemi := ins |}
  = Scanned token.INT lb {| src := EmptyString; insertSemi := true |}.
Proof.
  destruct Hb as (Hd & Hs & _). rewrite Scan_space, Scan_digit by exact Hd. exact Hs.
Qed.

Lemma Scan_end :
  Scan {| src := EmptyString; insertSemi := true |}
  = Scanned token.SEMICOLON (String "010" EmptyString)
      {| src := EmptyString; insertSemi := false |}.
Proof. reflexivity. Qed.

Lemma Scan_eof :
  Scan {| src := EmptyString; insertSemi := false |}
  = Scanned token.EOF EmptyString {| src := EmptyString; insertSemi := false |}.
Proof. reflexivity. Qed.

Lemma next_Scanned t0 l0 s0 t l s :
  Scan s0 = Scanned t l s ->
  next {| tok := t0; lit := l0; sc := s0 |} = POk {| tok := t; lit := l; sc := s |}.
Proof. unfold next. cbn [sc]. now intros ->. Qed.

(** One-step equations of the parser on the tokens of a sum. *)
Lemma parseBinaryExpr_S f p prec1 :
  parseBinaryExpr (S f) p prec1
  = parseUnaryExpr f p ≫= λ '(x, p1), binaryLoop f x p1 prec1.
Proof. reflexivity. Qed.

Lemma parseUnaryExpr_INT f l s :
  parseUnaryExpr (S (S f)) {| tok := token.INT; lit := l; sc := s |}
  = next {| tok := token.INT; lit := l; sc := s |}
    ≫= λ p1, primaryLoop (S f) (ast.BasicLit token.INT l) p1.
Proof.
  cbn [parseUnaryExpr parseOperand tok lit].
  now destruct (next _).
Qed.

Lemma primaryLoop_ADD f x l s :
  primaryLoop (S f) x {| tok := token.ADD; lit := l; sc := s |}
  = POk (x, {| tok := token.ADD; lit := l; sc := s |}).
Proof. reflexivity. Qed.

Lemma primaryLoop_SEMICOLON f x l s :
  primaryLoop (S f) x {| tok := token.SEMICOLON; lit := l; sc := s |}
  = POk (x, {| tok := token.SEMICOLON; lit := l; sc := s |}).
Proof. reflexivity. Qed.

Lemma binaryLoop_ADD f x l s :
  binaryLoop (S f) x {| tok := token.ADD; lit := l; sc := s |} (S token.LowestPrec)
  = next {| tok := token.ADD; lit := l; sc := s |}
    ≫= λ p1, parseBinaryExpr f p1 5
    ≫= λ '(y, p2), binaryLoop f (ast.BinaryExpr x token.ADD y) p2 (S token.LowestPrec).
Proof. reflexivity. Qed.

Lemma binaryLoop_SEMICOLON f x l s prec1 :
  binaryLoop (S f) x {| tok := token.SEMICOLON; lit := l; sc := s |} (S prec1)
  = POk (x, {| tok := token.SEMICOLON; lit := l; sc := s |}).
Proof. reflexivity. Qed.

Lemma bind_POk {A B} (x : A) (k : A -> PResult B) : (POk x ≫= k) = k x.
Proof. reflexivity. Qed.

(** The parser on the four tokens of a sum of two literals. *)
Lemma parse_sum_tokens f (s0 s1 s2 s3 : Scanner) nl :
  Scan s0 = Scanned token.ADD EmptyString s1 ->
  Scan s1 = Scanned token.INT lb s2 ->
  Scan s2 = Scanned token.SEMICOLON nl s3 ->
  parseBinaryExpr (S (S (S (S (S (S f)))))) {| tok := token.INT; lit := la; sc := s0 |}
                  (S token.LowestPrec)
  = POk (ast.BinaryExpr (ast.BasicLit token.INT la) token.ADD
                        (ast.BasicLit token.INT lb),
         {| tok := token.SEMICOLON; lit := nl; sc := s3 |}).
Proof.
  intros H0 H1 H2.
  rewrite parseBinaryExpr_S, parseUnaryExpr_INT, (next_Scanned _ _ _ _ _ _ H0).
  rewrite bind_POk, primaryLoop_ADD, bind_POk.
  rewrite binaryLoop_ADD, (next_Scanned _ _ _ _ _ _ H1), bind_POk.
  rewrite parseBinaryExpr_S, parseUnaryExpr_INT, (next_Scanned _ _ _ _ _ _ H2).
  rewrite bind_POk, primaryLoop_SEMICOLON, bind_POk.
  rewrite binaryLoop_SEMICOLON, bind_POk.
  apply binaryLoop_SEMICOLON.
Qed.

Lemma parse_literal_sum :
  ParseExprFrom (la +:+ " + " +:+ lb)
  = POk (ast.BinaryExpr (ast.BasicLit token.INT la) token.ADD
                        (ast.BasicLit token.INT lb)).
Proof.
  unfold ParseExprFrom, budget.
  set (n := (6 * String.length _)%nat).
  change (16 + n)%nat with (S (S (S (S (S (S (10 + n)))))))%nat.
  rewrite (next_Scanned _ _ _ _ _ _ (Scan_first false)), bind_POk.
  rewrite (parse_sum_tokens _ _ _ _ _ _ (Scan_plus true) (Scan_second false) Scan_end).
  rewrite bind_POk.
  cbn [tok lit].
  rewrite (next_Scanned _ _ _ _ _ _ Scan_eof), bind_POk.
  reflexivity.
Qed.

End LiteralSum.

(* ===================================================================== *)
(** * The parser never runs out of budget *)
(* ===================================================================== *)

Section ParserTotal.

Import scanner parser.

Lemma advance_length s : (String.length (advance s) <= String.length s)%nat.
Proof. destruct s; simpl; lia. Qed.

Lemma skipWhitespace_length ins s :
  (String.length (skipWhitespace ins s) <= String.length s)%nat.
Proof.
  induction s as [|c s IH]; simpl; [lia|].
  destruct (_ || _); simpl; lia.
Qed.

Lemma scanIdentifier_length s :
  (String.length (scanIdentifier s).2 <= String.length s)%nat.
Proof.
  induction s as [|c s IH]; simpl; [lia|].
  destruct (isLetter c || isDecimal c); simpl; [|lia].
  destruct (scanIdentifier s) as [id r]. simpl in *. lia.
Qed.

Lemma scanIdentifier_letter_length c s :
  isLetter c = true ->
  (String.length (scanIdentifier (String c s)).2 < String.length (String c s))%nat.
Proof.
  intros Hc. simpl. rewrite Hc. simpl. pose proof (scanIdentifier_length s).
  destruct (scanIdentifier s) as [id r]. simpl in *. lia.
Qed.

Lemma digits_length base s :
  (String.length (digits base s).2 <= String.length s)%nat.
Proof.
  induction s as [|c s IH]; simpl; [lia|].
  destruct (_ || _); simpl; [|lia].
  destruct (digits base s) as [[[[d sp] iv] l] r]. simpl in *. lia.
Qed.

Lemma digits_decimal_length base c s :
  isDecimal c = true ->
  (String.length (digits base (String c s)).2 < String.length (String c s))%nat.
Proof.
  intros Hc. simpl.
  assert (Hd : (if (base <=? 10)%N then isDecimal c else isHex c) = true).
  { destruct (base <=? 10)%N; [exact Hc|]. unfold isHex. fold (isDecimal c).
    now rewrite Hc. }
  rewrite Hd. simpl. pose proof (digits_length base s).
  destruct (digits base s) as [[[[d sp] iv] l] r]. simpl in *. lia.
Qed.

Lemma numberFrac_length n :
  (String.length (n_rest (numberFrac n)) <= String.length (n_rest n))%nat.
Proof.
  unfold numberFrac. destruct (Ascii.eqb (peek (n_rest n)) "."); [|simpl; lia].
  pose proof (digits_length (n_base n) (advance (n_rest n))).
  pose proof (advance_length (n_rest n)).
  destruct (digits _ _) as [[[[d sp] iv] l] r]. simpl in *. lia.
Qed.

Lemma numberFrac_dot_length n c s :
  n_rest n = String c s -> Ascii.eqb c "." = true ->
  (String.length (n_rest (numberFrac n)) < String.length (n_rest n))%nat.
Proof.
  intros Hr Hc. unfold numberFrac. rewrite Hr. simpl. rewrite Hc.
  pose proof (digits_length (n_base n) s).
  destruct (digits _ _) as [[[[d sp] iv] l] r]. simpl in *. lia.
Qed.

Lemma numberExp_length n :
  (String.length (n_rest (numberExp n)) <= String.length (n_rest n))%nat.
Proof.
  unfold numberExp. destruct (_ || _); [|simpl; lia].
  pose proof (advance_length (n_rest n)).
  destruct (_ || _).
  - pose proof (advance_length (advance (n_rest n))).
    pose proof (digits_length 10 (advance (advance (n_rest n)))).
    destruct (digits _ _) as [[[[d sp] iv] l] r]. simpl in *. lia.
  - pose proof (digits_length 10 (advance (n_rest n))).
    destruct (digits _ _) as [[[[d sp] iv] l] r]. simpl in *. lia.
Qed.

Lemma numberImag_length n :
  (String.length (n_rest (numberImag n)) <= String.length (n_rest n))%nat.
Proof.
  unfold numberImag. destruct (Ascii.eqb _ _); simpl; [apply advance_length|lia].
Qed.

(** [scanNumber] consumes at least one character where [Scan] calls it. *)
Lemma scanNumber_length c s t l sc' :
  isDecimal c || (Ascii.eqb c "." && isDecimal (peek s)) = true ->
  scanNumber (String c s) = Scanned t l sc' ->
  (String.length (src sc') < String.length (String c s))%nat.
Proof.
  intros Hc. unfold scanNumber.
  set (n0 := numberInt (String c s)).
  assert (Hn : (String.length (n_rest (numberFrac n0)) < String.length (String c s))%nat).
  { destruct (Ascii.eqb c ".") eqn:Hdot.
    - assert (Hr : n_rest n0 = String c s)
        by (unfold n0, numberInt; simpl; now rewrite Hdot).
      pose proof (numberFrac_dot_length n0 c s Hr Hdot). rewrite Hr in *. exact H.
    - try rewrite Hdot in Hc. simpl in Hc. rewrite orb_false_r in Hc.
      pose proof (numberFrac_length n0).
      assert (String.length (n_rest n0) < String.length (String c s))%nat; [|lia].
      unfold n0, numberInt. cbn [peek]. rewrite Hdot.
      destruct (Ascii.eqb c "0") eqn:H0.
      + cbn [advance].
        destruct (Ascii.eqb (lower (peek s)) "x");
          [|destruct (Ascii.eqb (lower (peek s)) "o");
            [|destruct (Ascii.eqb (lower (peek s)) "b")]].
        1-3: pose proof (advance_length s);
             match goal with
             | |- context [digits ?base (advance ?u)] =>
                 pose proof (digits_length base (advance u));
                 destruct (digits base (advance u)) as [[[[d sp] iv] l0] r]
             end;
             simpl in *; lia.
        pose proof (digits_length 8 s).
        destruct (digits 8 s) as [[[[d sp] iv] l0] r]. simpl in *. lia.
      + pose proof (digits_decimal_length 10 c s Hc).
        destruct (digits 10 (String c s)) as [[[[d sp] iv] l0] r]. simpl in *. lia. }
  pose proof (numberExp_length (numberFrac n0)).
  pose proof (numberImag_length (numberExp (numberFrac n0))).
  destruct (orErr _ _ _); [discriminate|].
  destruct (negb _ && _); [discriminate|].
  intros [= _ _ <-]. cbn [src String.length] in *. lia.
Qed.

Lemma switch2_length s t0 t1 :
  (String.length (switch2 s t0 t1).2 <= String.length s)%nat.
Proof. unfold switch2. destruct (Ascii.eqb _ _); simpl; [apply advance_length|lia]. Qed.

Lemma switch3_length s t0 t1 c t2 :
  (String.length (switch3 s t0 t1 c t2).2 <= String.length s)%nat.
Proof.
  unfold switch3. repeat destruct (Ascii.eqb _ _); simpl;
    try apply advance_length; lia.
Qed.

Lemma switch4_length s t0 t1 c t2 t3 :
  (String.length (switch4 s t0 t1 c t2 t3).2 <= String.length s)%nat.
Proof.
  unfold switch4. pose proof (advance_length s).
  pose proof (advance_length (advance s)).
  repeat destruct (Ascii.eqb _ _); simpl; lia.
Qed.

Lemma emit_weight ts semi t l sc' n :
  emit ts semi = Scanned t l sc' ->
  (String.length ts.2 <= n)%nat ->
  (token_weight t + scanner_weight sc' <= 2 * S n)%nat.
Proof.
  unfold emit. intros [= <- _ <-] Hn. unfold scanner_weight. simpl.
  destruct (fst ts), semi; simpl; lia.
Qed.

(** A scan step yields a token out of the weight of the scanner state. *)
Lemma Scan_weight sc t l sc' :
  Scan sc = Scanned t l sc' ->
  (token_weight t + scanner_weight sc' <= scanner_weight sc)%nat.
Proof.
  unfold Scan. pose proof (skipWhitespace_length (insertSemi sc) (src sc)) as Hs.
  unfold scanner_weight at 2.
  destruct (skipWhitespace (insertSemi sc) (src sc)) as [|ch r].
  - destruct (insertSemi sc); intros [= <- _ <-]; unfold scanner_weight; simpl; lia.
  - simpl in Hs.
    assert (Hgen : forall n k, (n <= String.length r)%nat -> (k <= 1)%nat ->
              forall tk, (token_weight tk + (2 * n + k)
                          <= 2 * String.length (src sc)
                             + (if insertSemi sc then 1 else 0))%nat).
    { intros n k Hn Hk tk. destruct tk, (insertSemi sc); simpl; lia. }
    pose proof (advance_length r). pose proof (advance_length (advance r)).
    pose proof (switch2_length r). pose proof (switch2_length (advance r)).
    pose proof (switch3_length r). pose proof (switch4_length r).
    unfold emit.
    repeat match goal with
           | |- (if ?b then _ else _) = _ -> _ => destruct b eqn:?
           | Hl : isLetter ch = true |- (let '(_, _) := ?x in _) = _ -> _ =>
               let H := fresh "Hid" in
               pose proof (scanIdentifier_letter_length ch r Hl) as H;
               destruct x; cbn [snd String.length] in H
           end;
      try discriminate;
      try (intros [= <- _ <-]; unfold scanner_weight; cbn [src insertSemi fst snd];
           apply Hgen; [simpl; eauto; lia|simpl; lia]).
    + (* identifier *)
      intros [= <- _ <-]. unfold scanner_weight; cbn [src insertSemi].
      apply Hgen; [lia|].
      destruct (if (1 <? String.length s)%nat then token.Lookup s else token.IDENT);
        simpl; lia.
    + (* number *)
      intros Hn. pose proof (scanNumber_length ch r t l sc' Heqb1 Hn) as Hlt.
      unfold scanner_weight. destruct sc' as [rest semi]. simpl in *.
      apply Hgen; [lia|destruct semi; lia].
    + (* + and ++ *)
      intros [= <- _ <-]. unfold scanner_weight; cbn [src insertSemi].
      apply Hgen; [apply H3|destruct (token.eqb _ _); lia].
    + (* - and -- *)
      intros [= <- _ <-]. unfold scanner_weight; cbn [src insertSemi].
      apply Hgen; [apply H3|destruct (token.eqb _ _); lia].
    + (* &^ *)
      intros [= <- _ <-]. unfold scanner_weight; cbn [src insertSemi].
      pose proof (H2 token.AND_NOT token.AND_NOT_ASSIGN).
      apply Hgen; lia.
Qed.

Lemma next_weight p p' :
  next p = POk p' -> (parser_weight p' <= scanner_weight (sc p))%nat.
Proof.
  unfold next. destruct (Scan (sc p)) as [t l s| |] eqn:Hs; try discriminate.
  intros [= <-]. unfold parser_weight. simpl. eapply Scan_weight; eauto.
Qed.

Lemma within_weaken {A} (r : PResult (A * parser)) n m :
  within r n -> (n <= m)%nat -> within r m.
Proof. intros [H1 H2] Hnm. split; [exact H1|]. intros x p' Hr. specialize (H2 x p' Hr). lia. Qed.

Lemma within_POk {A} (x : A) p n : (parser_weight p <= n)%nat -> within (POk (x, p)) n.
Proof. intros H. split; [discriminate|]. now intros ? ? [= <- <-]. Qed.

Lemma within_PErr {A} e n : within (PErr e : PResult (A * parser)) n.
Proof. split; discriminate. Qed.

Lemma within_bind {A B} (r : PResult (A * parser)) (k : A * parser -> PResult (B * parser)) n m :
  within r n ->
  (forall x p1, (parser_weight p1 <= n)%nat -> within (k (x, p1)) m) ->
  within (r ≫= k) m.
Proof.
  intros [H1 H2] Hk. destruct r as [[x p1]| |]; [|apply within_PErr|congruence].
  apply Hk. now apply (H2 x).
Qed.

Lemma within_next {B} p (k : parser -> PResult (B * parser)) m :
  (forall p1, (parser_weight p1 <= scanner_weight (sc p))%nat -> within (k p1) m) ->
  within (next p ≫= k) m.
Proof.
  intros Hk. destruct (next p) as [p1| |] eqn:Hn.
  - apply Hk. now apply next_weight.
  - apply within_PErr.
  - unfold next in Hn. destruct (Scan (sc p)); discriminate.
Qed.

Lemma weight_token p :
  tok p <> token.EOF -> parser_weight p = S (scanner_weight (sc p)).
Proof. unfold parser_weight. destruct (tok p); simpl; congruence. Qed.

Lemma primaryLoop_within fuel :
  forall x p, (parser_weight p < fuel)%nat ->
              within (primaryLoop fuel x p) (parser_weight p).
Proof.
  induction fuel as [|f IH]; intros x p Hf; [lia|].
  cbn [primaryLoop].
  destruct (tok p) eqn:Htok;
    try (apply within_POk; lia); try apply within_PErr.
  - (* LBRACE *)
    destruct (ast.Unparen x); try apply within_PErr; apply within_POk; lia.
  - (* PERIOD *)
    assert (Hw := weight_token p ltac:(rewrite Htok; discriminate)).
    apply within_next. intros p1 Hp1.
    destruct (tok p1) eqn:Htok1; try apply within_PErr.
    assert (Hw1 := weight_token p1 ltac:(rewrite Htok1; discriminate)).
    apply within_next. intros p2 Hp2.
    eapply within_weaken; [apply IH|]; lia.
Qed.

(** With a budget of three calls for every token that is left, and three
    more, no parsing function runs out of budget, and none of them returns
    a heavier state than it was given. *)
Lemma parse_within fuel :
  (forall p prec, (3 * parser_weight p + 3 <= fuel)%nat ->
                  within (parseBinaryExpr fuel p (S prec)) (parser_weight p))
  /\ (forall x p prec, (3 * parser_weight p + 1 <= fuel)%nat ->
                       within (binaryLoop fuel x p (S prec)) (parser_weight p))
  /\ (forall p, (3 * parser_weight p + 2 <= fuel)%nat ->
                within (parseUnaryExpr fuel p) (parser_weight p))
  /\ (forall p, (3 * parser_weight p + 1 <= fuel)%nat ->
                within (parseOperand fuel p) (parser_weight p)).
Proof.
  induction fuel as [|f (IHbin & IHloop & IHun & IHop)];
    [repeat split; intros; lia|].
  split; [|split; [|split]].
  - (* parseBinaryExpr *)
    intros p prec Hf. cbn [parseBinaryExpr].
    apply (within_bind _ _ (parser_weight p)); [apply IHun; lia|].
    intros x p1 Hp1. cbn beta iota.
    eapply within_weaken; [apply IHloop; lia|lia].
  - (* binaryLoop *)
    intros x p prec Hf. cbn [binaryLoop].
    destruct (tok p) eqn:Htok; cbn [token.Precedence token.LowestPrec];
      try apply within_PErr;
      try (change (0 <? S prec)%nat with true; apply within_POk; lia);
      (destruct (_ <? _)%nat; [apply within_POk; lia|]);
      assert (Hw := weight_token p ltac:(rewrite Htok; discriminate));
      apply within_next; intros p1 Hp1;
      (apply (within_bind _ _ (parser_weight p1)); [apply IHbin; lia|]);
      intros y p2 Hp2; cbn beta iota;
      (eapply within_weaken; [apply IHloop; lia|lia]).
  - (* parseUnaryExpr *)
    intros p Hf. cbn [parseUnaryExpr].
    destruct (tok p) eqn:Htok; try apply within_PErr;
      try (apply (within_bind _ _ (parser_weight p)); [apply IHop; lia|];
           intros x p1 Hp1; cbn beta iota;
           eapply within_weaken; [apply primaryLoop_within; lia|lia]);
      assert (Hw := weight_token p ltac:(rewrite Htok; discriminate));
      apply within_next; intros p1 Hp1;
      (apply (within_bind _ _ (parser_weight p1)); [apply IHun; lia|]);
      intros x p2 Hp2; cbn beta iota; apply within_POk; lia.
  - (* parseOperand *)
    intros p Hf. cbn [parseOperand].
    destruct (tok p) eqn:Htok; try apply within_PErr;
      assert (Hw := weight_token p ltac:(rewrite Htok; discriminate));
      apply within_next; intros p1 Hp1;
      try (apply within_POk; lia).
    (* LPAREN *)
    apply (within_bind _ _ (parser_weight p1)); [apply IHbin; lia|].
    intros x p2 Hp2. cbn beta iota.
    destruct (tok p2) eqn:Htok2; try apply within_PErr.
    apply within_next. intros p3 Hp3. apply within_POk.
    pose proof (weight_token p2 ltac:(rewrite Htok2; discriminate)). lia.
Qed.

Lemma next_not_PFuel p : next p <> PFuel.
Proof. unfold next. destruct (Scan (sc p)); discriminate. Qed.

Lemma parse_then_EOF_not_PFuel (n : nat) (p0 : parser) :
  (3 * parser_weight p0 + 3 <= n)%nat ->
  ('(e, p1) ← parseBinaryExpr n p0 (S token.LowestPrec);
   p2 ← (match tok p1, lit p1 with
         | token.SEMICOLON, String "010" EmptyString => next p1
         | _, _ => POk p1
         end);
   match tok p2 with
   | token.EOF => POk e
   | _ => PErr (SyntaxError "expected 'EOF'")
   end) <> PFuel.
Proof.
  intros Hn.
  destruct (proj1 (parse_within n) p0 token.LowestPrec Hn) as [Hne _].
  destruct (parseBinaryExpr n p0 (S token.LowestPrec)) as [[e p1]| |];
    [|discriminate|congruence].
  cbn [mbind PResult_bind].
  match goal with
  | |- ?r ≫= _ <> _ => assert (Hr : r <> PFuel); [|destruct r as [p2| |]]
  end.
  - pose proof (next_not_PFuel p1).
    destruct (tok p1); try discriminate.
    destruct (lit p1) as [|c [|c' l']]; try discriminate;
      destruct c as [[] [] [] [] [] [] [] []]; try discriminate; assumption.
  - cbn [mbind PResult_bind]. destruct (tok p2); discriminate.
  - discriminate.
  - congruence.
Qed.

(** The budget of [ParseExprFrom] never runs out: every source text gets
    a syntax tree or an error. *)
Lemma ParseExprFrom_total (src : string) : ParseExprFrom src <> PFuel.
Proof.
  unfold ParseExprFrom.
  assert (Hb : (3 * scanner_weight
                      {| scanner.src := src; scanner.insertSemi := false |} + 3
                <= budget src)%nat).
  { unfold budget, scanner_weight. cbn [scanner.src insertSemi]. lia. }
  revert Hb. generalize (budget src). intros n Hb.
  generalize (next_weight {| tok := token.ILLEGAL; lit := EmptyString;
    sc := {| scanner.src := src; scanner.insertSemi := false |} |}).
  generalize (next_not_PFuel {| tok := token.ILLEGAL; lit := EmptyString;
    sc := {| scanner.src := src; scanner.insertSemi := false |} |}).
  destruct (next _) as [p0| |]; intros Hne Hw; [|discriminate|congruence].
  specialize (Hw p0 eq_refl). cbn [sc] in Hw.
  apply (parse_then_EOF_not_PFuel n p0). lia.
Qed.

End ParserTotal.

(* ===================================================================== *)
(** * Properties *)
(* ===================================================================== *)

Section Properties.

Variable Upper : Z -> bool.

Implicit Types (h : types.Store) (s : calc.Scope) (e expr name : string).

(** ** The evaluator only sees a scope through its lookups *)

Lemma rawExpr_ext h pkg pkg' (x : ast.Expr) :
  (forall n, types.LookupParent h pkg n = types.LookupParent h pkg' n) ->
  types.rawExpr Upper h pkg x = types.rawExpr Upper h pkg' x.
Proof.
  intros Hl. induction x as [n|k l|x IH|x IH sel|op x IH|x IHx op y IHy]; simpl.
  - unfold types.ident. now rewrite Hl.
  - reflexivity.
  - exact IH.
  - rewrite IH. destruct x; try reflexivity. now rewrite Hl.
  - now rewrite IH.
  - now rewrite IHx, IHy.
Qed.

Lemma LookupParent_empty h s :
  Scope_empty h s ->
  forall n, types.LookupParent h (calc.p s) n = types.LookupParent h None n.
Proof.
  unfold Scope_empty. intros He n. destruct (calc.p s) as [a|]; [|reflexivity].
  destruct He as (pkg & Ha & Hs). unfold types.LookupParent, types.Scope_Lookup.
  rewrite Ha, Hs. now rewrite lookup_empty.
Qed.

Lemma Eval_empty h s e :
  Scope_empty h s ->
  types.Eval Upper h (calc.p s) e = types.Eval Upper h None e.
Proof.
  intros He. unfold types.Eval. destruct (parser.ParseExprFrom e); try reflexivity.
  now rewrite (rawExpr_ext h (calc.p s) None a (LookupParent_empty h s He)).
Qed.

Lemma Scope_eval_empty h s e :
  Scope_empty h s -> calc.Scope_eval Upper h s e = calc.Scope_eval Upper h calc.zero e.
Proof. intros He. unfold calc.Scope_eval. now rewrite (Eval_empty h s e He). Qed.

(** C7. Each package-level narrowing function is the method of the same
    name on the zero [Scope], and the zero [Scope] behaves as any empty
    scope: for every expression text and every scope without entries,
    [Int], [Uint], [Float64], [Float32], [Complex128], [Complex64],
    [Bool] and [String] agree with the method on that scope. *)
Theorem package_functions_use_empty_scope h s e :
  Scope_empty h s ->
  (calc.Int Upper h e = calc.Scope_Int Upper h {| calc.p := None |} e
   /\ calc.Uint Upper h e = calc.Scope_Uint Upper h {| calc.p := None |} e
   /\ calc.Float64 Upper h e = calc.Scope_Float64 Upper h {| calc.p := None |} e
   /\ calc.Float32 Upper h e = calc.Scope_Float32 Upper h {| calc.p := None |} e
   /\ calc.Complex128 Upper h e = calc.Scope_Complex128 Upper h {| calc.p := None |} e
   /\ calc.Complex64 Upper h e = calc.Scope_Complex64 Upper h {| calc.p := None |} e
   /\ calc.Bool Upper h e = calc.Scope_Bool Upper h {| calc.p := None |} e
   /\ calc.String Upper h e = calc.Scope_String Upper h {| calc.p := None |} e)
  /\ (calc.Int Upper h e = calc.Scope_Int Upper h s e
      /\ calc.Uint Upper h e = calc.Scope_Uint Upper h s e
      /\ calc.Float64 Upper h e = calc.Scope_Float64 Upper h s e
      /\ calc.Float32 Upper h e = calc.Scope_Float32 Upper h s e
      /\ calc.Complex128 Upper h e = calc.Scope_Complex128 Upper h s e
      /\ calc.Complex64 Upper h e = calc.Scope_Complex64 Upper h s e
      /\ calc.Bool Upper h e = calc.Scope_Bool Upper h s e
      /\ calc.String Upper h e = calc.Scope_String Upper h s e).
Proof.
  intros He. split.
  - repeat split; reflexivity.
  - unfold calc.Int, calc.Uint, calc.Float64, calc.Float32, calc.Complex128,
      calc.Complex64, calc.Bool, calc.String,
      calc.Scope_Int, calc.Scope_Uint, calc.Scope_Float64, calc.Scope_Float32,
      calc.Scope_Complex128, calc.Scope_Complex64, calc.Scope_Bool,
      calc.Scope_String.
    rewrite (Scope_eval_empty h s e He). repeat split; reflexivity.
Qed.

(** ** Narrowing *)

Lemma Scope_eval_Evaluated h s e tv :
  types.Eval Upper h (calc.p s) e = types.Evaluated tv ->
  calc.Scope_eval Upper h s e = calc.Return (types.tv_Value tv, None).
Proof. unfold calc.Scope_eval. now intros ->. Qed.

(** C8. When the expression evaluates to a constant value [v]:
    [Scope.Bool] returns the boolean payload with a nil error if the kind
    of [v] is Bool, and otherwise [false] with the error "not
    representable as a bool"; so it succeeds exactly when the kind is
    Bool.  [Scope.String] does the same for the kind String.  No Int,
    Float or Complex value is coerced. *)
Theorem Bool_String_need_exact_kind h s e tv v :
  types.Eval Upper h (calc.p s) e = types.Evaluated tv ->
  types.tv_Value tv = Some v ->
  (forall b, v = constant.boolVal b ->
             calc.Scope_Bool Upper h s e = calc.Return (b, None))
  /\ (constant.Value_Kind v <> constant.Bool ->
      calc.Scope_Bool Upper h s e
      = calc.Return (false, Some (calc.NotBool (constant.Value_Kind v) e)))
  /\ ((exists b, calc.Scope_Bool Upper h s e = calc.Return (b, None))
      <-> constant.Value_Kind v = constant.Bool)
  /\ (forall str, v = constant.stringVal str ->
                  calc.Scope_String Upper h s e = calc.Return (str, None))
  /\ (constant.Value_Kind v <> constant.String ->
      calc.Scope_String Upper h s e
      = calc.Return (EmptyString, Some (calc.NotString (constant.Value_Kind v) e)))
  /\ ((exists str, calc.Scope_String Upper h s e = calc.Return (str, None))
      <-> constant.Value_Kind v = constant.String).
Proof.
  intros HE Hv. unfold calc.Scope_Bool, calc.Scope_String.
  rewrite (Scope_eval_Evaluated h s e tv HE), Hv.
  repeat split.
  - now intros b ->.
  - destruct v; simpl; congruence.
  - intros [b Hb]. destruct v; simpl in *; congruence.
  - destruct v; simpl; try discriminate. eauto.
  - now intros str ->.
  - destruct v; simpl; congruence.
  - intros [b Hb]. destruct v; simpl in *; congruence.
  - destruct v; simpl; try discriminate. eauto.
Qed.

(** C10. Whenever a narrowing method returns a non-nil error, the value
    next to it is the fixed sentinel: NaN for [Float64] and [Float32],
    0 for [Int] and [Uint], the complex zero for [Complex128] and
    [Complex64], [false] for [Bool] and the empty string for [String]. *)
Theorem failing_calls_return_sentinels h s e :
  (forall v err, calc.Scope_Float64 Upper h s e = calc.Return (v, Some err) -> v = calc.NaN)
  /\ (forall v err, calc.Scope_Float32 Upper h s e = calc.Return (v, Some err) -> v = calc.NaN)
  /\ (forall v err, calc.Scope_Int Upper h s e = calc.Return (v, Some err) -> v = 0)
  /\ (forall v err, calc.Scope_Uint Upper h s e = calc.Return (v, Some err) -> v = 0)
  /\ (forall v err, calc.Scope_Complex128 Upper h s e = calc.Return (v, Some err)
                    -> v = (S754_zero false, S754_zero false))
  /\ (forall v err, calc.Scope_Complex64 Upper h s e = calc.Return (v, Some err)
                    -> v = (S754_zero false, S754_zero false))
  /\ (forall v err, calc.Scope_Bool Upper h s e = calc.Return (v, Some err) -> v = false)
  /\ (forall v err, calc.Scope_String Upper h s e = calc.Return (v, Some err)
                    -> v = EmptyString).
Proof.
  unfold calc.Scope_Float64, calc.Scope_Float32, calc.Scope_Int, calc.Scope_Uint,
    calc.Scope_Complex128, calc.Scope_Complex64, calc.Scope_Bool, calc.Scope_String,
    calc.complex_zero, calc.NaN.
  destruct (calc.Scope_eval Upper h s e) as [[val [err0|]]|];
    repeat split; intros v err H; try congruence;
    repeat match type of H with
           | context [match ?x with _ => _ end] => destruct x; try congruence
           end.
Qed.


(** C5. In the program of [ExampleScope_Import], with S=1, M=60*S,
    H=60*M and D=24*H assigned in a library scope that is imported as
    "time", every call returns a nil error and [Int] of
    "2*time.D + 4*time.H" is 187200. *)
Theorem namespaced_lookup_is_exact :
  ExampleScope_Import Upper
  = calc.Return ([None; None; None; None; None], (187200, None)).
Proof. vm_compute. reflexivity. Qed.

(** C6. [Import] returns the error "package names cannot be exported"
    exactly when the first rune of the name is an upper-case letter (the
    test of Go's exported names), and then leaves both scopes and the
    store as they were; otherwise it returns nil.  [Import] of "Time"
    fails and adds no binding; [Import] of "time" succeeds. *)
Theorem Import_fails_iff_exported s name lib h :
  (calc.Scope_Import Upper s name lib h
   = (Some (calc.PackageExported name), s, lib, h)
   <-> types.IsExported Upper name = true)
  /\ ((calc.Scope_Import Upper s name lib h).1.1.1 = None
      <-> types.IsExported Upper name = false)
  /\ ((calc.Scope_Import Upper s name lib h).1.1.1 <> None
      -> calc.Scope_Import Upper s name lib h
         = (Some (calc.PackageExported name), s, lib, h))
  /\ calc.Scope_Import Upper s "Time" lib h
     = (Some (calc.PackageExported "Time"), s, lib, h)
  /\ (calc.Scope_Import Upper s "time" lib h).1.1.1 = None.
Proof.
  assert (Hok : forall n, types.IsExported Upper n = false ->
                          (calc.Scope_Import Upper s n lib h).1.1.1 = None).
  { intros n Hn. unfold calc.Scope_Import, types.IsExported in *.
    destruct (utf8.DecodeRuneInString n) as [ch w]. simpl in Hn. rewrite Hn.
    destruct (calc.Scope_pack s h) as [[a s'] h1].
    now destruct (calc.Scope_pack lib h1) as [[b lib'] h2]. }
  assert (Hko : forall n, types.IsExported Upper n = true ->
                          calc.Scope_Import Upper s n lib h
                          = (Some (calc.PackageExported n), s, lib, h)).
  { intros n Hn. unfold calc.Scope_Import, types.IsExported in *.
    destruct (utf8.DecodeRuneInString n) as [ch w]. simpl in Hn. now rewrite Hn. }
  split; [|split; [|split; [|split]]].
  - split; [|apply Hko].
    intros H. destruct (types.IsExported Upper name) eqn:Hx; [reflexivity|].
    apply Hok in Hx. rewrite H in Hx. discriminate.
  - split; [|apply Hok].
    intros H. destruct (types.IsExported Upper name) eqn:Hx; [|reflexivity].
    apply Hko in Hx. rewrite Hx in H. discriminate.
  - intros H. destruct (types.IsExported Upper name) eqn:Hx; [now apply Hko|].
    now apply Hok in Hx.
  - now apply Hko.
  - now apply Hok.
Qed.

(** C9. [AssignValue] panics exactly on a value whose dynamic type is
    none of the sixteen kinds of its type switch; on a value of a
    recognized kind it returns (it has no error result). *)
Theorem AssignValue_panics_iff_unsupported s name (v : calc.any) h :
  (recognized v = false -> calc.Scope_AssignValue s name v h = calc.Panics)
  /\ (recognized v = true ->
      exists s' h', calc.Scope_AssignValue s name v h = calc.Return (s', h'))
  /\ (calc.Scope_AssignValue s name v h = calc.Panics <-> recognized v = false).
Proof.
  assert (Hc : forall re im, exists val, calc.complexConst re im = Some val).
  { intros re im. unfold calc.complexConst, constant.MakeFloat64.
    destruct (constant.float_to_rat re), (constant.float_to_rat im);
      simpl; eauto. }
  assert (Hr : recognized v = true ->
               exists s' h', calc.Scope_AssignValue s name v h = calc.Return (s', h')).
  { intros Hv. destruct v; try discriminate; simpl;
      try (destruct (Hc re im) as [val ->]);
      match goal with
      | |- context [calc.Scope_assign ?a ?b ?c ?d] =>
          destruct (calc.Scope_assign a b c d) as [s' h'] eqn:?
      end; eauto. }
  repeat split.
  - destruct v; try discriminate. reflexivity.
  - exact Hr.
  - intros H. destruct (recognized v) eqn:Hv; [|reflexivity].
    destruct (Hr eq_refl) as (s' & h' & Heq). congruence.
  - destruct v; try discriminate. reflexivity.
Qed.

(** ** Short-circuit operators *)








(** ** Insert-once assignment *)

Lemma Scope_assign_bound s name tv h a obj :
  calc.p s = Some a ->
  types.Scope_Lookup h a name = Some obj ->
  calc.Scope_assign s name tv h = (s, h).
Proof.
  unfold calc.Scope_assign, calc.Scope_pack, types.Scope_Insert, types.Scope_Lookup.
  intros -> H. destruct (h !! a); [|discriminate]. now rewrite H.
Qed.

Lemma Scope_assign_fresh s name tv h :
  Scope_valid h s ->
  Scope_binding h s name = None ->
  Scope_valid (calc.Scope_assign s name tv h).2 (calc.Scope_assign s name tv h).1
  /\ Scope_binding (calc.Scope_assign s name tv h).2 (calc.Scope_assign s name tv h).1 name
     = Some (types.Const (types.tv_Type tv) (types.tv_Value tv)).
Proof.
  unfold Scope_valid, Scope_binding, calc.Scope_assign, calc.Scope_pack,
    types.Scope_Insert, types.Scope_Lookup, types.NewPackage.
  destruct (calc.p s) as [a|] eqn:Hp; simpl.
  - intros [pkg Ha] Hn. rewrite Ha in *. rewrite Hn. simpl. rewrite Hp.
    assert (Hlt : (a < length h)%nat) by (eapply lookup_lt_Some; eauto).
    rewrite list_lookup_insert_eq by exact Hlt. simpl.
    split; [eauto|]. now rewrite lookup_insert_eq.
  - intros _ _.
    rewrite list_lookup_middle by reflexivity. simpl.
    rewrite lookup_empty. simpl.
    rewrite list_lookup_insert_eq by (rewrite length_app; simpl; lia). simpl.
    split; [eauto|]. now rewrite lookup_insert_eq.
Qed.

Lemma Eval_literal_1 h pkg :
  types.Eval Upper h pkg "1"
  = types.Evaluated {| types.tv_Type := Some (types.Typ types.UntypedInt);
                       types.tv_Value := Some (constant.intVal 1) |}.
Proof. reflexivity. Qed.

Lemma Eval_literal_2 h pkg :
  types.Eval Upper h pkg "2"
  = types.Evaluated {| types.tv_Type := Some (types.Typ types.UntypedInt);
                       types.tv_Value := Some (constant.intVal 2) |}.
Proof. reflexivity. Qed.

Lemma Eval_bound_x h s t v :
  Scope_binding h s "x" = Some (types.Const (Some t) (Some v)) ->
  types.isUntyped t = true ->
  types.Eval Upper h (calc.p s) "x"
  = types.Evaluated {| types.tv_Type := Some t; types.tv_Value := Some v |}.
Proof.
  unfold Scope_binding. intros Hb Ht. unfold types.Eval.
  change (parser.ParseExprFrom "x") with (parser.POk (ast.Ident "x")).
  simpl. unfold types.ident, types.LookupParent.
  destruct (calc.p s); [|discriminate]. rewrite Hb.
  unfold types.constOperand. rewrite Ht.
  destruct t as [[]|]; try discriminate; reflexivity.
Qed.

(** C3. [Assign] is insert-once.  When the name is already bound in the
    Scope, a later [Assign] of that name leaves the Scope and the whole
    store as they were, and returns a nil error whenever its expression
    evaluates (an expression that fails to evaluate returns its error,
    again without touching the binding).  In any valid Scope in which
    "x" is not yet bound, [Assign("x","1")] then [Assign("x","2")]
    return nil errors and [Int("x")] is 1. *)
Theorem Assign_is_insert_once h s :
  (forall name expr a obj,
      calc.p s = Some a ->
      types.Scope_Lookup h a name = Some obj ->
      (forall tv, types.Eval Upper h (calc.p s) expr = types.Evaluated tv ->
                  calc.Scope_Assign Upper s name expr h = calc.Return (None, s, h))
      /\ (forall err s' h',
             calc.Scope_Assign Upper s name expr h = calc.Return (err, s', h') ->
             s' = s /\ h' = h))
  /\ (Scope_valid h s ->
      Scope_binding h s "x" = None ->
      assign_twice Upper s h = calc.Return (None, None, (1, None))).
Proof.
  split.
  - intros name expr a obj Hp Hb. unfold calc.Scope_Assign. split.
    + intros tv ->. now rewrite (Scope_assign_bound s name tv h a obj Hp Hb).
    + intros err s' h'. destruct (types.Eval Upper h (calc.p s) expr) as [tv|e|].
      * rewrite (Scope_assign_bound s name tv h a obj Hp Hb). now intros [= _ <- <-].
      * now intros [= _ <- <-].
      * discriminate.
  - intros Hv Hn. unfold assign_twice, calc.Scope_Assign at 1.
    rewrite Eval_literal_1.
    set (tv1 := {| types.tv_Type := Some (types.Typ types.UntypedInt);
                   types.tv_Value := Some (constant.intVal 1) |}).
    destruct (Scope_assign_fresh s "x" tv1 h Hv Hn) as [Hv1 Hb1].
    destruct (calc.Scope_assign s "x" tv1 h) as [s1 h1]. simpl in *.
    assert (exists a, calc.p s1 = Some a /\ types.Scope_Lookup h1 a "x"
                      = Some (types.Const (Some (types.Typ types.UntypedInt))
                                          (Some (constant.intVal 1))))
      as (a & Hp1 & Hl1).
    { unfold Scope_binding in Hb1. destruct (calc.p s1) as [a|]; [eauto|discriminate]. }
    unfold calc.Scope_Assign. rewrite Eval_literal_2.
    rewrite (Scope_assign_bound s1 "x" _ h1 a _ Hp1 Hl1). simpl.
    unfold calc.Scope_Int, calc.Scope_eval.
    rewrite (Eval_bound_x h1 s1 _ _ Hb1 eq_refl). reflexivity.
Qed.

(** ** Sums of integer literals *)

Lemma digitVal_nonneg c : 0 <= constant.digitVal c.
Proof.
  unfold constant.digitVal.
  repeat match goal with
         | |- context [if ?t then _ else _] => destruct t eqn:?
         end; lia.
Qed.

Lemma parseDigits_nonneg base str acc v :
  0 <= base -> 0 <= acc ->
  constant.parseDigits base str acc = Some v -> 0 <= v.
Proof.
  intros Hbase. revert acc. induction str as [|c str IH]; simpl; intros acc Hacc.
  - now intros [= <-].
  - destruct (Ascii.eqb c "_"); [now apply IH|].
    destruct (constant.digitVal c <? base); [|discriminate].
    apply IH. pose proof (digitVal_nonneg c). nia.
Qed.

Lemma IntLiteral_nonneg lit v : IntLiteral lit v -> 0 <= v.
Proof.
  intros (_ & _ & Hv). unfold constant.MakeFromLiteral, constant.makeIntFromLiteral in Hv.
  match type of Hv with
  | match ?r with _ => _ end = _ => destruct r as [i|] eqn:Hr; [|discriminate]
  end.
  injection Hv as <-.
  repeat match type of Hr with
         | match ?x with _ => _ end = _ => destruct x; try discriminate
         | (if ?t then _ else _) = _ => destruct t
         end;
    (eapply parseDigits_nonneg; [| |exact Hr]; lia).
Qed.

Lemma overflow_int t v :
  0 <= v < 2 ^ 512 ->
  types.overflow t (constant.intVal v) = types.Done (types.op_constant t (constant.intVal v)).
Proof.
  intros Hv. unfold types.overflow, constant.BitLen, types.prec.
  destruct (Z.eqb_spec v 0) as [->|Hne]; [reflexivity|].
  assert (Hlog : Z.log2 (Z.abs v) < 512).
  { rewrite Z.abs_eq by lia. apply Z.log2_lt_pow2; lia. }
  destruct (Z.ltb_spec 512 (Z.log2 (Z.abs v) + 1)); [lia|reflexivity].
Qed.

Lemma basicLit_IntLiteral lit v :
  IntLiteral lit v ->
  (String.length lit <= literal_limit)%nat ->
  v < 2 ^ 512 ->
  types.basicLit token.INT lit
  = types.Done (types.op_constant (types.Typ types.UntypedInt) (constant.intVal v)).
Proof.
  intros Hl Hlen Hv. pose proof (IntLiteral_nonneg lit v Hl) as H0.
  destruct Hl as (_ & _ & Hm). unfold types.basicLit.
  destruct (Z.ltb_spec 10000 (Z.of_nat (String.length lit))) as [Hlt|_].
  { unfold literal_limit in Hlen. lia. }
  rewrite Hm. apply overflow_int. lia.
Qed.

Lemma binary_ADD_int x y :
  0 <= x + y < 2 ^ 512 ->
  types.binary token.ADD
    (types.op_constant (types.Typ types.UntypedInt) (constant.intVal x))
    (types.op_constant (types.Typ types.UntypedInt) (constant.intVal y))
  = types.Done (types.op_constant (types.Typ types.UntypedInt) (constant.intVal (x + y))).
Proof. intros H. cbn. now apply overflow_int. Qed.

(** Evaluation of a sum of two integer literals is exact as long as the
    sum stays within the 512 bits of an untyped integer constant. *)
Lemma Eval_literal_sum h pkg la lb a b :
  IntLiteral la a -> IntLiteral lb b ->
  (String.length la <= literal_limit)%nat ->
  (String.length lb <= literal_limit)%nat ->
  a + b < 2 ^ 512 ->
  types.Eval Upper h pkg (la +:+ " + " +:+ lb)
  = types.Evaluated {| types.tv_Type := Some (types.Typ types.UntypedInt);
                       types.tv_Value := Some (constant.intVal (a + b)) |}.
Proof.
  intros Ha Hb Hla Hlb Hsum.
  pose proof (IntLiteral_nonneg la a Ha). pose proof (IntLiteral_nonneg lb b Hb).
  unfold types.Eval. rewrite (parse_literal_sum la lb a b Ha Hb).
  cbn [types.rawExpr].
  rewrite (basicLit_IntLiteral la a Ha Hla) by lia.
  rewrite (basicLit_IntLiteral lb b Hb Hlb) by lia.
  cbn [mbind types.Checked_bind types.exclude].
  rewrite binary_ADD_int by lia. reflexivity.
Qed.

(** C1, as the code has it.  For all integer literals [la] and [lb] of
    at most 10000 characters each, denoting [a] and [b]: when the sum
    [a + b] fits in int64, [Int] of the text "la + lb" is that sum with
    a nil error.  [Int] of "1<<100 + 2 - 1<<100" is 2 with a nil
    error. *)
Theorem Int_literal_sum_exact h la lb a b :
  IntLiteral la a -> IntLiteral lb b ->
  (String.length la <= literal_limit)%nat ->
  (String.length lb <= literal_limit)%nat ->
  a + b < constant.two63 ->
  calc.Int Upper h (la +:+ " + " +:+ lb) = calc.Return (a + b, None)
  /\ calc.Int Upper h "1<<100 + 2 - 1<<100" = calc.Return (2, None).
Proof.
  intros Ha Hb Hla Hlb Hsum. split; [|vm_compute; reflexivity].
  pose proof (IntLiteral_nonneg la a Ha). pose proof (IntLiteral_nonneg lb b Hb).
  unfold calc.Int, calc.Scope_Int, calc.Scope_eval.
  rewrite (Eval_literal_sum h _ la lb a b Ha Hb Hla Hlb)
    by (unfold constant.two63 in Hsum; lia).
  cbn [types.tv_Value calc.ToInt from_option constant.ToInt constant.Value_Kind].
  assert (Hr : (- constant.two63 <=? a + b) && (a + b <? constant.two63) = true).
  { apply andb_true_iff. split; [apply Z.leb_le|apply Z.ltb_lt];
      unfold constant.two63 in *; lia. }
  unfold constant.Int64Val. rewrite Hr. reflexivity.
Qed.

End Properties.

(* ===================================================================== *)
(** * Instances on concrete inputs *)
(* ===================================================================== *)

(** C1 fails as stated: a literal of 10001 characters that denotes 1,
    added to the literal 1, does not narrow to 2; the checker rejects a
    numeric literal longer than 10000 characters. *)
Lemma Int_literal_sum_counterexample :
  IntLiteral long_literal 1 /\ IntLiteral "1" 1 /\ 1 + 1 < constant.two63
  /\ calc.Int no_upper_table [] (long_literal +:+ " + " +:+ "1")
     = calc.Return (0, Some (calc.EvalError (types.TypeError types.InvalidConstVal)))
  /\ calc.Int no_upper_table [] (long_literal +:+ " + " +:+ "1")
     <> calc.Return (1 + 1, None).
Proof.
  assert (H : calc.Int no_upper_table [] (long_literal +:+ " + " +:+ "1")
              = calc.Return (0, Some (calc.EvalError (types.TypeError types.InvalidConstVal))))
    by (vm_compute; reflexivity).
  split; [|split; [|split; [|split]]].
  - repeat split; vm_compute; reflexivity.
  - repeat split; vm_compute; reflexivity.
  - vm_compute. reflexivity.
  - exact H.
  - rewrite H. discriminate.
Qed.

Lemma Int_literal_sum_exact_witness :
  calc.Int no_upper_table [] ("0x_FF" +:+ " + " +:+ "0777") = calc.Return (255 + 511, None)
  /\ calc.Int no_upper_table [] "1<<100 + 2 - 1<<100" = calc.Return (2, None).
Proof.
  apply (Int_literal_sum_exact no_upper_table [] "0x_FF" "0777" 255 511).
  - repeat split; vm_compute; reflexivity.
  - repeat split; vm_compute; reflexivity.
  - vm_compute. lia.
  - vm_compute. lia.
  - vm_compute. reflexivity.
Defined.



Lemma Assign_is_insert_once_witness :
  assign_twice no_upper_table calc.zero [] = calc.Return (None, None, (1, None))
  /\ calc.Scope_Assign no_upper_table {| calc.p := Some 0%nat |} "x" "2"
       [ {| types.path := "main"; types.name := "main";
            types.scope := {[ "x" := types.Const (Some (types.Typ types.UntypedInt))
                                                 (Some (constant.intVal 1)) ]} |} ]
     = calc.Return (None, {| calc.p := Some 0%nat |},
         [ {| types.path := "main"; types.name := "main";
              types.scope := {[ "x" := types.Const (Some (types.Typ types.UntypedInt))
                                                   (Some (constant.intVal 1)) ]} |} ]).
Proof.
  split.
  - apply (proj2 (Assign_is_insert_once no_upper_table [] calc.zero)); reflexivity.
  - eapply (proj1 (Assign_is_insert_once no_upper_table _ {| calc.p := Some 0%nat |}));
      reflexivity.
Defined.


Lemma Import_fails_iff_exported_witness :
  calc.Scope_Import no_upper_table calc.zero "Time" calc.zero []
  = (Some (calc.PackageExported "Time"), calc.zero, calc.zero, []).
Proof.
  apply (proj1 (proj2 (proj2
           (Import_fails_iff_exported no_upper_table calc.zero "Time" calc.zero [])))).
  vm_compute. discriminate.
Defined.

Lemma package_functions_use_empty_scope_witness :
  calc.Int no_upper_table one_empty_package "2+2"
  = calc.Scope_Int no_upper_table one_empty_package {| calc.p := Some 0%nat |} "2+2".
Proof.
  apply (package_functions_use_empty_scope no_upper_table one_empty_package
           {| calc.p := Some 0%nat |} "2+2").
  eexists. split; reflexivity.
Defined.

Lemma Bool_String_need_exact_kind_witness :
  calc.Scope_Bool no_upper_table [] calc.zero "1 < 2" = calc.Return (true, None)
  /\ calc.Scope_String no_upper_table [] calc.zero "1 < 2"
     = calc.Return (EmptyString, Some (calc.NotString constant.Bool "1 < 2")).
Proof.
  pose proof (Bool_String_need_exact_kind no_upper_table [] calc.zero "1 < 2"
                {| types.tv_Type := Some (types.Typ types.UntypedBool);
                   types.tv_Value := Some (constant.boolVal true) |}
                (constant.boolVal true) eq_refl eq_refl) as (H1 & _ & _ & _ & H5 & _).
  split; [exact (H1 true eq_refl)|apply H5; discriminate].
Defined.

Lemma AssignValue_panics_iff_unsupported_witness :
  calc.Scope_AssignValue calc.zero "d" (calc.other "time.Duration") [] = calc.Panics
  /\ exists s' h', calc.Scope_AssignValue calc.zero "n" (calc.int64 7) []
                   = calc.Return (s', h').
Proof.
  split.
  - apply (proj1 (AssignValue_panics_iff_unsupported calc.zero "d"
                    (calc.other "time.Duration") [])).
    reflexivity.
  - apply (proj1 (proj2 (AssignValue_panics_iff_unsupported calc.zero "n"
                           (calc.int64 7) []))).
    reflexivity.
Defined.

Lemma failing_calls_return_sentinels_witness :
  calc.Scope_Float64 no_upper_table [] calc.zero "1/0"
  = calc.Return (calc.NaN, Some (calc.EvalError (types.TypeError types.DivByZero)))
  /\ calc.NaN = calc.NaN.
Proof.
  assert (H : calc.Scope_Float64 no_upper_table [] calc.zero "1/0"
              = calc.Return (calc.NaN, Some (calc.EvalError (types.TypeError types.DivByZero))))
    by (vm_compute; reflexivity).
  split; [exact H|].
  exact (proj1 (failing_calls_return_sentinels no_upper_table [] calc.zero "1/0") _ _ H).
Defined.

(* ===================================================================== *)
(** * Narrowing: ranges and accepted kinds *)
(* ===================================================================== *)

Section Narrowing.

Variable Upper : Z -> bool.

Implicit Types (h : types.Store) (s : calc.Scope) (e expr name : string).

Lemma Scope_eval_value h s e tv v :
  types.Eval Upper h (calc.p s) e = types.Evaluated tv ->
  types.tv_Value tv = Some v ->
  calc.Scope_eval Upper h s e = calc.Return (Some v, None).
Proof. unfold calc.Scope_eval. now intros -> <-. Qed.

(** [constant.ToInt] yields an integer or Unknown. *)
Lemma ToInt_cases (val : option constant.Value) :
  calc.ToInt val = constant.unknownVal \/ exists j, calc.ToInt val = constant.intVal j.
Proof.
  destruct val as [v|]; [|now left]. unfold calc.ToInt, constant.ToInt.
  cbn [from_option].
  destruct v as [ |b|str|i|q|re im]; eauto.
  - destruct (constant.rat_IsInt q); eauto.
  - destruct (constant.ToFloat (constant.complexVal re im)); eauto.
    destruct (constant.rat_IsInt q); eauto.
Qed.

Lemma Int64Val_in_range i :
  - constant.two63 <= i < constant.two63 ->
  constant.Int64Val (constant.intVal i) = Some (i, true).
Proof.
  intros Hr. unfold constant.Int64Val.
  assert (H : (- constant.two63 <=? i) && (i <? constant.two63) = true) by lia.
  now rewrite H.
Qed.

Lemma Int64Val_out_of_range i :
  ~ (- constant.two63 <= i < constant.two63) ->
  exists w, constant.Int64Val (constant.intVal i) = Some (w, false).
Proof.
  intros Hr. unfold constant.Int64Val.
  assert (H : (- constant.two63 <=? i) && (i <? constant.two63) = false) by lia.
  rewrite H. eauto.
Qed.

Lemma Uint64Val_in_range i :
  0 <= i < constant.two64 ->
  constant.Uint64Val (constant.intVal i) = Some (i, true).
Proof.
  intros Hr. unfold constant.Uint64Val, constant.wrap_uint64.
  destruct ((- constant.two63 <=? i) && (i <? constant.two63)) eqn:H.
  - rewrite Z.mod_small by lia. do 2 f_equal. lia.
  - rewrite Z.abs_eq, Z.mod_small by lia. do 2 f_equal. lia.
Qed.

Lemma Uint64Val_out_of_range i :
  ~ (0 <= i < constant.two64) ->
  exists w, constant.Uint64Val (constant.intVal i) = Some (w, false).
Proof.
  intros Hr. unfold constant.Uint64Val.
  destruct ((- constant.two63 <=? i) && (i <? constant.two63)) eqn:H.
  - assert (H0 : (0 <=? i) = false) by (unfold constant.two63, constant.two64 in *; lia).
    rewrite H0. eauto.
  - assert (H0 : (0 <=? i) && (i <? constant.two64) = false) by lia.
    rewrite H0. eauto.
Qed.


(** X2. [Scope.Uint] on an integer constant: the value itself when it
    lies between 0 and 2^64 - 1, and otherwise (a negative value
    included) 0 with the error "not exactly representable as an uint64";
    the value is never wrapped around. *)
Theorem Uint_is_exact_or_fails h s e tv i :
  types.Eval Upper h (calc.p s) e = types.Evaluated tv ->
  types.tv_Value tv = Some (constant.intVal i) ->
  (0 <= i < constant.two64 ->
   calc.Scope_Uint Upper h s e = calc.Return (i, None))
  /\ (~ (0 <= i < constant.two64) ->
      calc.Scope_Uint Upper h s e = calc.Return (0, Some (calc.NotUint64 e))).
Proof.
  intros HE Hv. unfold calc.Scope_Uint. rewrite (Scope_eval_value h s e tv _ HE Hv).
  cbn [calc.ToInt from_option constant.ToInt constant.Value_Kind]. split; intros Hr.
  - now rewrite (Uint64Val_in_range i Hr).
  - now destruct (Uint64Val_out_of_range i Hr) as [w ->].
Qed.

(** What a successful [Int] or [Uint] says about the evaluation. *)
Lemma Scope_Int_success h s e i :
  calc.Scope_Int Upper h s e = calc.Return (i, None) ->
  exists val, calc.Scope_eval Upper h s e = calc.Return (val, None)
              /\ calc.ToInt val = constant.intVal i
              /\ - constant.two63 <= i < constant.two63.
Proof.
  unfold calc.Scope_Int.
  destruct (calc.Scope_eval Upper h s e) as [[val [err|]]|]; try discriminate.
  destruct (ToInt_cases val) as [Hu|[j Hj]]; rewrite ?Hu, ?Hj;
    cbn [constant.Value_Kind].
  - destruct (calc.Kind val); discriminate.
  - destruct (Z_le_dec (- constant.two63) j) as [H1|H1];
      [destruct (Z_lt_dec j constant.two63) as [H2|H2]|].
    + rewrite (Int64Val_in_range j (conj H1 H2)). cbn. intros [= <-]. eauto.
    + destruct (Int64Val_out_of_range j) as [w ->]; [lia|]. discriminate.
    + destruct (Int64Val_out_of_range j) as [w ->]; [lia|]. discriminate.
Qed.

Lemma Scope_Uint_success h s e i :
  calc.Scope_Uint Upper h s e = calc.Return (i, None) ->
  exists val, calc.Scope_eval Upper h s e = calc.Return (val, None)
              /\ calc.ToInt val = constant.intVal i
              /\ 0 <= i < constant.two64.
Proof.
  unfold calc.Scope_Uint.
  destruct (calc.Scope_eval Upper h s e) as [[val [err|]]|]; try discriminate.
  destruct (ToInt_cases val) as [Hu|[j Hj]]; rewrite ?Hu, ?Hj;
    cbn [constant.Value_Kind].
  - destruct (calc.Kind val); discriminate.
  - destruct (Z_le_dec 0 j) as [H1|H1];
      [destruct (Z_lt_dec j constant.two64) as [H2|H2]|].
    + rewrite (Uint64Val_in_range j (conj H1 H2)). cbn. intros [= <-]. eauto.
    + destruct (Uint64Val_out_of_range j) as [w ->]; [lia|]. discriminate.
    + destruct (Uint64Val_out_of_range j) as [w ->]; [lia|]. discriminate.
Qed.

(** X3. [Int] and [Uint] agree wherever their ranges overlap: a
    non-negative result of [Int] is the result of [Uint] on the same
    expression, and a result of [Uint] below 2^63 is the result of
    [Int]; a successful result always lies in the range of its type. *)
Theorem Int_and_Uint_agree h s e i :
  (calc.Scope_Int Upper h s e = calc.Return (i, None) ->
   - constant.two63 <= i < constant.two63
   /\ (0 <= i -> calc.Scope_Uint Upper h s e = calc.Return (i, None)))
  /\ (calc.Scope_Uint Upper h s e = calc.Return (i, None) ->
      0 <= i < constant.two64
      /\ (i < constant.two63 -> calc.Scope_Int Upper h s e = calc.Return (i, None))).
Proof.
  split.
  - intros H. destruct (Scope_Int_success h s e i H) as (val & Hev & Hi & Hr).
    split; [exact Hr|]. intros H0. unfold calc.Scope_Uint. rewrite Hev, Hi.
    cbn [constant.Value_Kind].
    rewrite Uint64Val_in_range by (unfold constant.two63, constant.two64 in *; lia).
    reflexivity.
  - intros H. destruct (Scope_Uint_success h s e i H) as (val & Hev & Hi & Hr).
    split; [exact Hr|]. intros H0. unfold calc.Scope_Int. rewrite Hev, Hi.
    cbn [constant.Value_Kind].
    rewrite Int64Val_in_range by (unfold constant.two63, constant.two64 in *; lia).
    reflexivity.
Qed.


(** X5. The 32-bit and the 64-bit variant of a narrowing method accept
    the same expressions: [Float32] returns an error exactly when
    [Float64] does, and then the same error, and panics exactly when
    [Float64] does; the same holds for [Complex64] and [Complex128]. *)
Theorem width_does_not_change_acceptance h s e :
  verdict (calc.Scope_Float32 Upper h s e) = verdict (calc.Scope_Float64 Upper h s e)
  /\ verdict (calc.Scope_Complex64 Upper h s e)
     = verdict (calc.Scope_Complex128 Upper h s e).
Proof.
  unfold calc.Scope_Float64, calc.Scope_Float32, calc.Scope_Complex128,
    calc.Scope_Complex64, constant.Float64Val, constant.Float32Val.
  destruct (calc.Scope_eval Upper h s e) as [[val [err0|]]|];
    [split; reflexivity| |split; reflexivity].
  split.
  - destruct (calc.ToFloat val); cbn; try reflexivity; now destruct (calc.Kind val).
  - destruct (calc.ToComplex val) as [ |b|str|i|q|re im]; cbn; try reflexivity;
      try (now destruct (calc.Kind val)).
    destruct re, im; reflexivity.
Qed.

(** X6. [Scope.Complex128] and [Scope.Complex64] accept every Int and
    Float constant and return it as the real part, equal to the result of
    [Float64] (or [Float32]) on the same expression, with the imaginary
    part +0; a Bool, String or Unknown constant gives the complex zero
    with the error "not representable as a complex". *)
Theorem Complex_accepts_real_numbers h s e tv v :
  types.Eval Upper h (calc.p s) e = types.Evaluated tv ->
  types.tv_Value tv = Some v ->
  ((constant.Value_Kind v = constant.Int \/ constant.Value_Kind v = constant.Float) ->
   (exists f, calc.Scope_Float64 Upper h s e = calc.Return (f, None)
              /\ calc.Scope_Complex128 Upper h s e
                 = calc.Return ((f, S754_zero false), None))
   /\ (exists f, calc.Scope_Float32 Upper h s e = calc.Return (f, None)
                 /\ calc.Scope_Complex64 Upper h s e
                    = calc.Return ((f, S754_zero false), None)))
  /\ ((constant.Value_Kind v = constant.Bool \/ constant.Value_Kind v = constant.String
       \/ constant.Value_Kind v = constant.Unknown) ->
      calc.Scope_Complex128 Upper h s e
      = calc.Return (calc.complex_zero, Some (calc.NotComplex (constant.Value_Kind v) e))
      /\ calc.Scope_Complex64 Upper h s e
         = calc.Return (calc.complex_zero, Some (calc.NotComplex (constant.Value_Kind v) e))).
Proof.
  intros HE Hv.
  unfold calc.Scope_Float64, calc.Scope_Float32, calc.Scope_Complex128,
    calc.Scope_Complex64.
  rewrite (Scope_eval_value h s e tv v HE Hv). split.
  - intros [Hk|Hk]; destruct v; try discriminate Hk; split; eexists; split; reflexivity.
  - intros [Hk|[Hk|Hk]]; destruct v; try discriminate Hk; split; reflexivity.
Qed.

(** X7. An expression that [types.Eval] accepts but that is no
    constant ([nil], a type such as [int], a builtin such as [len]) has a
    nil [constant.Value]; every narrowing method then panics: none
    returns an error.  [Int] of "nil" panics. *)
Theorem narrowing_a_non_constant_panics h s e tv :
  types.Eval Upper h (calc.p s) e = types.Evaluated tv ->
  types.tv_Value tv = None ->
  calc.Scope_Float64 Upper h s e = calc.Panics
  /\ calc.Scope_Float32 Upper h s e = calc.Panics
  /\ calc.Scope_Complex128 Upper h s e = calc.Panics
  /\ calc.Scope_Complex64 Upper h s e = calc.Panics
  /\ calc.Scope_Int Upper h s e = calc.Panics
  /\ calc.Scope_Uint Upper h s e = calc.Panics
  /\ calc.Scope_Bool Upper h s e = calc.Panics
  /\ calc.Scope_String Upper h s e = calc.Panics.
Proof.
  intros HE Hv.
  unfold calc.Scope_Float64, calc.Scope_Float32, calc.Scope_Complex128,
    calc.Scope_Complex64, calc.Scope_Int, calc.Scope_Uint, calc.Scope_Bool,
    calc.Scope_String, calc.Scope_eval.
  rewrite HE, Hv. repeat split; reflexivity.
Qed.

End Narrowing.

(* ===================================================================== *)
(** * Parsing identifiers and qualified identifiers *)
(* ===================================================================== *)

Section IdentifierSyntax.

Import scanner parser.

Implicit Types (s r name sel : string) (c : ascii).

(** A letter is no white space, no digit, no period and is ASCII. *)
Lemma isLetter_class c :
  isLetter c = true ->
  Ascii.eqb c " " = false /\ Ascii.eqb c "009" = false
  /\ Ascii.eqb c "010" = false /\ Ascii.eqb c "013" = false
  /\ nonASCII c = false /\ isDecimal c = false /\ Ascii.eqb c "." = false.
Proof.
  destruct c as [[] [] [] [] [] [] [] []]; lazy; intros H;
    try discriminate H; repeat split.
Qed.

Lemma isIdentifier_inv name :
  isIdentifier name = true ->
  exists c r, name = String c r /\ isLetter c = true
              /\ ident_chars name = true /\ token.Lookup name = token.IDENT.
Proof.
  unfold isIdentifier. intros [[Hl Hc]%andb_true_iff Hk]%andb_true_iff.
  destruct name as [|c r]; [discriminate Hl|]. exists c, r.
  repeat split; try assumption.
  unfold token.eqb in Hk. now destruct (token.eq_dec _ _).
Qed.

Lemma append_nil_l r : (EmptyString +:+ r)%string = r.
Proof. reflexivity. Qed.

Lemma append_cons c s r : (String c s +:+ r)%string = String c (s +:+ r).
Proof. reflexivity. Qed.

Lemma scanIdentifier_app name r :
  ident_chars name = true ->
  isLetter (peek r) || isDecimal (peek r) = false ->
  scanIdentifier (name +:+ r) = (name, r).
Proof.
  intros Hn Hr. induction name as [|c name IH].
  - rewrite append_nil_l. destruct r as [|c r]; [reflexivity|].
    cbn [peek scanIdentifier] in *. now rewrite Hr.
  - cbn [ident_chars] in Hn. apply andb_true_iff in Hn as [Hc Hn].
    rewrite append_cons. cbn [scanIdentifier]. rewrite Hc, (IH Hn). reflexivity.
Qed.

(** [Scan] on an identifier followed by a character that ends it. *)
Lemma Scan_identifier ins name r :
  isIdentifier name = true ->
  isLetter (peek r) || isDecimal (peek r) = false ->
  nonASCII (peek r) = false ->
  Scan {| src := (name +:+ r)%string; insertSemi := ins |}
  = Scanned token.IDENT name {| src := r; insertSemi := true |}.
Proof.
  intros Hid Hr Ha.
  destruct (isIdentifier_inv name Hid) as (c & n & -> & Hl & Hc & Hk).
  destruct (isLetter_class c Hl) as (H1 & H2 & H3 & H4 & H5 & _).
  unfold Scan. rewrite append_cons. cbn [src insertSemi skipWhitespace].
  rewrite H1, H2, H3, H4. cbn [orb andb]. rewrite H5, Hl.
  rewrite <- append_cons.
  rewrite (scanIdentifier_app _ r Hc Hr), Ha, Hk.
  now destruct (1 <? String.length (String c n))%nat.
Qed.

Lemma app_empty_r s : (s +:+ EmptyString)%string = s.
Proof. induction s as [|c s IH]; [reflexivity|]. now rewrite append_cons, IH. Qed.

Lemma Scan_identifier_end ins name :
  isIdentifier name = true ->
  Scan {| src := name; insertSemi := ins |}
  = Scanned token.IDENT name {| src := EmptyString; insertSemi := true |}.
Proof.
  intros Hid. rewrite <- (app_empty_r name) at 1.
  now apply Scan_identifier.
Qed.

(** The period before a selector. *)
Lemma Scan_period ins sel :
  isLetter (peek sel) = true ->
  Scan {| src := String "." sel; insertSemi := ins |}
  = Scanned token.PERIOD EmptyString {| src := sel; insertSemi := false |}.
Proof.
  intros Hl. destruct sel as [|c sel]; [discriminate Hl|]. cbn [peek] in Hl.
  destruct (isLetter_class c Hl) as (_ & _ & _ & _ & _ & Hd & Hp).
  unfold Scan. cbn [src insertSemi skipWhitespace].
  destruct ins; cbn; rewrite Hd, Hp; reflexivity.
Qed.

Lemma parseUnaryExpr_IDENT f l (s0 : Scanner) :
  parseUnaryExpr (S (S f)) {| tok := token.IDENT; lit := l; sc := s0 |}
  = next {| tok := token.IDENT; lit := l; sc := s0 |}
    ≫= λ p1, primaryLoop (S f) (ast.Ident l) p1.
Proof.
  cbn [parseUnaryExpr parseOperand tok lit].
  now destruct (next _).
Qed.

Lemma primaryLoop_PERIOD f x l (s0 : Scanner) :
  primaryLoop (S f) x {| tok := token.PERIOD; lit := l; sc := s0 |}
  = next {| tok := token.PERIOD; lit := l; sc := s0 |}
    ≫= λ p1, match tok p1 with
             | token.IDENT =>
                 next p1 ≫= λ p2, primaryLoop f (ast.SelectorExpr x (lit p1)) p2
             | token.LPAREN => PErr NotModelled
             | _ => PErr (SyntaxError "expected selector or type assertion")
             end.
Proof. reflexivity. Qed.

(** An identifier alone parses to itself. *)
Lemma parse_identifier name :
  isIdentifier name = true ->
  ParseExprFrom name = POk (ast.Ident name).
Proof.
  intros Hid. unfold ParseExprFrom, budget.
  set (n := (6 * String.length _)%nat).
  change (16 + n)%nat with (S (S (S (13 + n))))%nat.
  rewrite (next_Scanned _ _ _ _ _ _ (Scan_identifier_end false name Hid)), bind_POk.
  rewrite parseBinaryExpr_S, parseUnaryExpr_IDENT.
  rewrite (next_Scanned _ _ _ _ _ _ Scan_end), bind_POk.
  rewrite primaryLoop_SEMICOLON, bind_POk, binaryLoop_SEMICOLON, bind_POk.
  cbn [tok lit].
  rewrite (next_Scanned _ _ _ _ _ _ Scan_eof), bind_POk.
  reflexivity.
Qed.

(** A qualified identifier parses to a selector on the package name. *)
Lemma parse_qualified name sel :
  isIdentifier name = true -> isIdentifier sel = true ->
  ParseExprFrom (name +:+ "." +:+ sel)
  = POk (ast.SelectorExpr (ast.Ident name) sel).
Proof.
  intros Hid Hsel. unfold ParseExprFrom, budget.
  set (n := (6 * String.length _)%nat).
  change (16 + n)%nat with (S (S (S (S (12 + n)))))%nat.
  destruct (isIdentifier_inv sel Hsel) as (c & r & Heq & Hl & _).
  assert (Hp : isLetter (peek sel) = true) by now rewrite Heq.
  change ("." +:+ sel)%string with (String "." sel).
  rewrite (next_Scanned _ _ _ _ _ _
             (Scan_identifier false name (String "." sel) Hid eq_refl eq_refl)), bind_POk.
  rewrite parseBinaryExpr_S, parseUnaryExpr_IDENT.
  rewrite (next_Scanned _ _ _ _ _ _ (Scan_period true sel Hp)), bind_POk.
  rewrite primaryLoop_PERIOD.
  rewrite (next_Scanned _ _ _ _ _ _ (Scan_identifier_end false sel Hsel)), bind_POk.
  cbn [tok lit].
  rewrite (next_Scanned _ _ _ _ _ _ Scan_end), bind_POk.
  rewrite primaryLoop_SEMICOLON, bind_POk, binaryLoop_SEMICOLON, bind_POk.
  cbn [tok lit].
  rewrite (next_Scanned _ _ _ _ _ _ Scan_eof), bind_POk.
  reflexivity.
Qed.

End IdentifierSyntax.

(* ===================================================================== *)
(** * Constants of the fragment are untyped *)
(* ===================================================================== *)

Section Untyped.

Variable Upper : Z -> bool.

Import types.

Lemma overflow_Done t v x : overflow t v = Done x -> x = op_constant t v.
Proof.
  unfold overflow. destruct v; try (now intros [= <-]); try discriminate.
  destruct (constant.BitLen _); [|discriminate].
  destruct (prec <? z); [discriminate|now intros [= <-]].
Qed.

Lemma constOperand_Done t v x :
  constOperand t v = Done x -> x = op_constant t v /\ isUntyped t = true.
Proof.
  unfold constOperand. destruct (isUntyped t); [|discriminate]. now intros [= <-].
Qed.

Lemma exclude_Done x x' : exclude x = Done x' -> x' = x.
Proof. destruct x; cbn; congruence. Qed.

Lemma basicLit_untyped kind lit x : basicLit kind lit = Done x -> untyped_operand x.
Proof.
  unfold basicLit.
  destruct kind; try discriminate;
    (destruct (10000 <? _); [discriminate|]);
    (destruct (constant.MakeFromLiteral _ _) eqn:Hm; try discriminate);
    intros ->%overflow_Done; reflexivity.
Qed.

Lemma unary_untyped op x x' :
  untyped_operand x -> unary op x = Done x' -> untyped_operand x'.
Proof.
  intros Hx. unfold unary. destruct x as [| |t|t v|t]; try discriminate.
  - now intros [= <-].
  - destruct op; try discriminate;
      (destruct (unaryOpPredicate _) as [pred|]; [|discriminate]);
      (destruct (negb (pred t)); [discriminate|]);
      (destruct v; try (now intros [= <-]));
      (destruct (constant.UnaryOp _ _); [|discriminate]);
      intros ->%overflow_Done; exact Hx.
  - destruct op; try discriminate;
      (destruct (unaryOpPredicate _) as [pred|]; [|discriminate]);
      (destruct (negb (pred t)); [discriminate|]); now intros [= <-].
Qed.

Lemma matchTypes_untyped tx0 ty0 :
  isUntyped tx0 = true -> isUntyped ty0 = true ->
  isUntyped (matchTypes tx0 ty0).1 = true.
Proof.
  intros Hx Hy. unfold matchTypes, maxType.
  destruct (negb _); [exact Hx|]. destruct (negb _); [exact Hx|].
  destruct (Identical tx0 ty0); [exact Hx|].
  destruct (numericRank tx0), (numericRank ty0); try exact Hx.
  cbn [fst]. destruct (n <? n0)%nat; assumption.
Qed.

Lemma shift_untyped op x y x' :
  untyped_operand x -> shift op x y = Done x' -> untyped_operand x'.
Proof.
  intros Hx. unfold shift. destruct x as [| |t|tx vx|t]; try discriminate.
  destruct (negb _); [discriminate|].
  destruct y as [| |t|ty vy|t]; try discriminate.
  assert (Ht : isUntyped (if isInteger tx then tx else Typ UntypedInt) = true)
    by (destruct (isInteger tx); [exact Hx|reflexivity]).
  destruct (match constant.ToInt vy with
            | constant.intVal i => if i <? 0 then Error InvalidShiftCount else Done ()
            | _ => Done ()
            end); try discriminate.
  cbn [mbind Checked_bind].
  destruct (if isUntyped ty then representableUint ty vy else Done ()); try discriminate.
  cbn [mbind Checked_bind].
  destruct vx, vy; try (intros [= <-]; exact Ht);
    (destruct (constant.Uint64Val _) as [[sh ok]|]; [|discriminate]);
    (destruct (negb ok || _); [discriminate|]);
    (destruct (constant.Shift _ _ _); [|discriminate]);
    intros ->%overflow_Done; exact Ht.
Qed.

Lemma comparison_untyped op tx vx ty vy x' :
  comparison op tx vx ty vy = Done x' -> untyped_operand x'.
Proof.
  unfold comparison. destruct (negb _); [discriminate|].
  destruct op; try (destruct (negb (isOrdered tx)); [discriminate|]);
    (destruct (constant.Compare _ _ _); [|discriminate]);
    intros [= <-]; reflexivity.
Qed.

Lemma binary_untyped op x y x' :
  untyped_operand x -> untyped_operand y ->
  binary op x y = Done x' -> untyped_operand x'.
Proof.
  intros Hx Hy. unfold binary.
  destruct x as [| |t|tx0 vx|t]; destruct y as [| |t'|ty0 vy|t'];
    try (now intros [= <-]);
    try (destruct (isShift op); [discriminate|];
         repeat match goal with
                | |- context [if ?b then _ else _] => destruct b
                end; discriminate);
    try (destruct (isShift op); discriminate).
  destruct (isShift op); [now apply shift_untyped|].
  pose proof (matchTypes_untyped tx0 ty0 Hx Hy) as Hm.
  destruct (matchTypes tx0 ty0) as [tx ty]. cbn [fst] in Hm.
  destruct (isComparison op); [apply comparison_untyped|].
  destruct (negb (Identical tx ty)); [discriminate|].
  destruct (binaryOpPredicate op) as [pred|]; [|discriminate].
  destruct (negb (pred tx)); [discriminate|].
  match goal with
  | |- (?m ≫= _) = _ -> _ => destruct m as [[]| |]; try discriminate
  end.
  cbn [mbind Checked_bind].
  destruct vx, vy; try (intros [= <-]; exact Hm);
    (destruct (constant.BinaryOp _ _ _); [|discriminate]);
    intros ->%overflow_Done; exact Hm.
Qed.

Lemma ident_untyped h pkg n x : ident h pkg n = Done x -> untyped_operand x.
Proof.
  unfold ident.
  destruct (LookupParent h pkg n) as [[typ val| | | | |]|];
    try discriminate; try (now intros [= <-]).
  - destruct typ as [t0|]; [|discriminate].
    destruct val as [v|].
    + destruct t0 as [[]|]; try (now intros [= <-]);
        intros [-> H]%constOperand_Done; exact H.
    + destruct t0 as [[]|]; try discriminate; now intros [= <-].
  - destruct (String.eqb n "_"); discriminate.
Qed.

Lemma qualified_untyped h imported sel x :
  qualified Upper h imported sel = Done x -> untyped_operand x.
Proof.
  unfold qualified. destruct (Scope_Lookup h imported sel) as [exp|]; [|discriminate].
  destruct (negb _); [discriminate|].
  destruct exp as [typ val| | | | |]; try discriminate; try (now intros [= <-]).
  destruct typ as [t0|], val as [v|]; try discriminate.
  intros [-> H]%constOperand_Done. exact H.
Qed.

(** Every constant operand the checker computes has an untyped type. *)
Lemma rawExpr_untyped h pkg (e : ast.Expr) x :
  rawExpr Upper h pkg e = Done x -> untyped_operand x.
Proof.
  revert x. induction e as [n|k l|e IH|e IH sel|op e IH|e1 IH1 op e2 IH2];
    intros x; cbn [rawExpr].
  - apply ident_untyped.
  - apply basicLit_untyped.
  - apply IH.
  - assert (Hg : (rawExpr Upper h pkg e ≫= λ x',
                    match x' with
                    | op_invalid => Done op_invalid
                    | op_builtin => Error UncalledBuiltin
                    | op_typexpr (Named _) => Error OutsideFragment
                    | _ => Error MissingFieldOrMethod
                    end) = Done x -> untyped_operand x).
    { destruct (rawExpr Upper h pkg e) as [x'| |]; try discriminate.
      cbn [mbind Checked_bind].
      destruct x' as [| |[]| |]; try discriminate. now intros [= <-]. }
    destruct e as [n| | | | |]; try exact Hg.
    destruct (LookupParent h pkg n) as [[]|]; try exact Hg.
    apply qualified_untyped.
  - destruct (rawExpr Upper h pkg e) as [x'| |]; try discriminate.
    cbn [mbind Checked_bind].
    destruct (exclude x') as [x''| |] eqn:Hx; try discriminate.
    apply exclude_Done in Hx as ->. cbn [mbind Checked_bind].
    apply unary_untyped. now apply IH.
  - destruct (rawExpr Upper h pkg e1) as [x1| |]; try discriminate.
    cbn [mbind Checked_bind].
    destruct (exclude x1) as [x1'| |] eqn:Hx1; try discriminate.
    apply exclude_Done in Hx1 as ->. cbn [mbind Checked_bind].
    destruct (rawExpr Upper h pkg e2) as [x2| |]; try discriminate.
    cbn [mbind Checked_bind].
    destruct (exclude x2) as [x2'| |] eqn:Hx2; try discriminate.
    apply exclude_Done in Hx2 as ->. cbn [mbind Checked_bind].
    apply binary_untyped; [now apply IH1|now apply IH2].
Qed.

(** A value that [types.Eval] returns comes with an untyped type. *)
Lemma Eval_value_untyped h pkg expr tv v :
  Eval Upper h pkg expr = Evaluated tv ->
  tv_Value tv = Some v ->
  exists t, tv = {| tv_Type := Some t; tv_Value := Some v |} /\ isUntyped t = true.
Proof.
  unfold Eval. destruct (parser.ParseExprFrom expr) as [e| |]; try discriminate.
  destruct (rawExpr Upper h pkg e) as [x| |] eqn:Hx; try discriminate.
  - intros [= <-]. apply rawExpr_untyped in Hx.
    destruct x; cbn; try discriminate. intros [= ->]. eauto.
  - destruct code; discriminate.
Qed.

End Untyped.

(* ===================================================================== *)
(** * Scopes in the store of packages *)
(* ===================================================================== *)

Section Stores.

Variable Upper : Z -> bool.

Implicit Types (h : types.Store) (s lib : calc.Scope) (a b : types.PackageRef).
Implicit Types (name expr sel n m : string) (obj : types.Object).

Lemma Scope_Insert_same h a n obj :
  is_Some (h !! a) -> types.Scope_Lookup h a n = None ->
  types.Scope_Lookup (types.Scope_Insert h a n obj) a n = Some obj.
Proof.
  unfold types.Scope_Lookup, types.Scope_Insert. intros [pkg Ha]. rewrite Ha.
  intros ->. rewrite list_lookup_insert_eq by (eapply lookup_lt_Some; eauto).
  cbn. now rewrite lookup_insert_eq.
Qed.

Lemma Scope_Insert_other h a n obj b m :
  b <> a \/ m <> n ->
  types.Scope_Lookup (types.Scope_Insert h a n obj) b m = types.Scope_Lookup h b m.
Proof.
  intros Hne. unfold types.Scope_Lookup, types.Scope_Insert.
  destruct (h !! a) as [pkg|] eqn:Ha; [|reflexivity].
  destruct (types.scope pkg !! n) eqn:Hn; [reflexivity|].
  destruct (decide (b = a)) as [->|Hb].
  - rewrite list_lookup_insert_eq by (eapply lookup_lt_Some; eauto).
    rewrite Ha. cbn. destruct Hne as [?|Hm]; [congruence|].
    now rewrite lookup_insert_ne by congruence.
  - now rewrite list_lookup_insert_ne by congruence.
Qed.

(** [Scope.Insert] never replaces an entry. *)
Lemma Scope_Insert_keeps h a n obj b m o :
  types.Scope_Lookup h b m = Some o ->
  types.Scope_Lookup (types.Scope_Insert h a n obj) b m = Some o.
Proof.
  intros Ho. destruct (decide (b = a)) as [->|Hb];
    [destruct (decide (m = n)) as [->|Hm]|].
  - unfold types.Scope_Insert. unfold types.Scope_Lookup in Ho.
    destruct (h !! a) as [pkg|] eqn:Ha; [|discriminate]. rewrite Ho.
    unfold types.Scope_Lookup. now rewrite Ha.
  - rewrite Scope_Insert_other by (right; exact Hm). exact Ho.
  - rewrite Scope_Insert_other by (left; exact Hb). exact Ho.
Qed.

Lemma Scope_Insert_allocated h a n obj b :
  is_Some (types.Scope_Insert h a n obj !! b) <-> is_Some (h !! b).
Proof.
  unfold types.Scope_Insert. destruct (h !! a) as [pkg|]; [|reflexivity].
  destruct (types.scope pkg !! n); [reflexivity|].
  rewrite !lookup_lt_is_Some, length_insert. reflexivity.
Qed.

(** [Scope.pack]: the package it returns is the package of the scope
    from then on; a package it allocates is new and empty, and the store
    is otherwise as before. *)
Lemma Scope_pack_spec s h :
  Scope_valid h s ->
  exists a s' h',
    calc.Scope_pack s h = (a, s', h')
    /\ calc.p s' = Some a /\ is_Some (h' !! a)
    /\ (calc.p s = Some a /\ s' = s /\ h' = h
        \/ calc.p s = None /\ a = length h
           /\ h' = h ++ [{| types.path := "main"; types.name := "main";
                            types.scope := ∅ |}])
    /\ (forall m, types.Scope_Lookup h' a m = Scope_binding h s m)
    /\ (forall b m, b <> a -> types.Scope_Lookup h' b m = types.Scope_Lookup h b m)
    /\ (forall b, is_Some (h !! b) -> is_Some (h' !! b)).
Proof.
  unfold Scope_valid, calc.Scope_pack, Scope_binding, types.NewPackage.
  destruct s as [[a|]]; cbn [calc.p].
  - intros Ha. exists a, {| calc.p := Some a |}, h. repeat split; eauto.
  - intros _. eexists (length h), _, _. split; [reflexivity|].
    split; [reflexivity|]. split.
    { rewrite lookup_lt_is_Some, length_app. cbn. lia. }
    split; [right; repeat split|]. split; [|split].
    + intros m. unfold types.Scope_Lookup.
      rewrite list_lookup_middle by reflexivity. cbn. apply lookup_empty.
    + intros b m Hb. unfold types.Scope_Lookup.
      destruct (decide (b < length h)%nat) as [Hlt|Hge].
      * now rewrite lookup_app_l by exact Hlt.
      * rewrite !lookup_ge_None_2 by (rewrite ?length_app; cbn; lia). reflexivity.
    + intros b Hb. apply lookup_lt_is_Some in Hb.
      apply lookup_lt_is_Some. rewrite length_app. lia.
Qed.

(** [Scope.assign] in terms of the store: the scope has a package
    afterwards, the name denotes what it denoted before or, if it was
    free, the new constant, and nothing else changes. *)
Lemma Scope_assign_spec s name tv h :
  Scope_valid h s ->
  exists a s' h',
    calc.Scope_assign s name tv h = (s', h')
    /\ calc.p s' = Some a /\ is_Some (h' !! a)
    /\ (calc.p s = Some a \/ calc.p s = None /\ a = length h)
    /\ (forall obj, Scope_binding h s name = Some obj ->
                    types.Scope_Lookup h' a name = Some obj)
    /\ (Scope_binding h s name = None ->
        types.Scope_Lookup h' a name
        = Some (types.Const (types.tv_Type tv) (types.tv_Value tv)))
    /\ (forall m, m <> name -> types.Scope_Lookup h' a m = Scope_binding h s m)
    /\ (forall b m, b <> a -> types.Scope_Lookup h' b m = types.Scope_Lookup h b m)
    /\ (forall b, is_Some (h !! b) -> is_Some (h' !! b)).
Proof.
  intros Hv. unfold calc.Scope_assign.
  destruct (Scope_pack_spec s h Hv) as (a & s' & h1 & -> & Hp & Ha & Hor & Hsame & Hoth & Hal).
  eexists a, s', _. split; [reflexivity|]. split; [exact Hp|].
  split; [now apply Scope_Insert_allocated|].
  split; [destruct Hor as [(?&_)|(?&?&_)]; eauto|].
  split; [|split; [|split; [|split]]].
  - intros obj Hb. apply Scope_Insert_keeps. now rewrite Hsame.
  - intros Hb. apply Scope_Insert_same; [exact Ha|]. now rewrite Hsame.
  - intros m Hm. rewrite Scope_Insert_other by (right; exact Hm). apply Hsame.
  - intros b m Hb. rewrite Scope_Insert_other by (left; exact Hb). now apply Hoth.
  - intros b Hb. apply Scope_Insert_allocated. now apply Hal.
Qed.

Lemma Scope_binding_Some h s a :
  calc.p s = Some a -> forall m, Scope_binding h s m = types.Scope_Lookup h a m.
Proof. unfold Scope_binding. now intros ->. Qed.

(** X8. [Assign] touches one name of one scope: whatever it returns,
    every other name of the scope denotes what it denoted before, a name
    that was bound keeps its object, and the scope of every other
    package of the store is unchanged. *)
Theorem Assign_touches_one_name h s name expr err s' h' :
  Scope_valid h s ->
  calc.Scope_Assign Upper s name expr h = calc.Return (err, s', h') ->
  Scope_valid h' s'
  /\ (forall m, m <> name -> Scope_binding h' s' m = Scope_binding h s m)
  /\ (forall obj, Scope_binding h s name = Some obj ->
                  Scope_binding h' s' name = Some obj)
  /\ (forall b m, calc.p s' <> Some b ->
                  types.Scope_Lookup h' b m = types.Scope_Lookup h b m).
Proof.
  intros Hv. unfold calc.Scope_Assign.
  destruct (types.Eval Upper h (calc.p s) expr) as [tv|e|]; [| |discriminate].
  - destruct (Scope_assign_spec s name tv h Hv)
      as (a & s1 & h1 & -> & Hp & Ha & _ & Hold & _ & Hm & Hoth & _).
    intros [= <- <- <-]. unfold Scope_valid. rewrite Hp.
    split; [exact Ha|]. split; [|split].
    + intros m Hne. rewrite (Scope_binding_Some h1 s1 a Hp). now apply Hm.
    + intros obj Hb. rewrite (Scope_binding_Some h1 s1 a Hp). now apply Hold.
    + intros b m Hb. apply Hoth. congruence.
  - intros [= <- <- <-]. repeat split; eauto.
Qed.

(** X9. The only error of [Assign] is the error of the evaluation:
    [Assign] returns a non-nil error exactly when [types.Eval] fails on
    the expression, it returns that error, and it leaves the scope and the
    store as they were (a zero Scope stays zero).  When the expression
    evaluates, [Assign] returns nil for every name, and the name is bound
    in the scope afterwards. *)
Theorem Assign_fails_only_with_the_expression h s name expr :
  Scope_valid h s ->
  (forall e, types.Eval Upper h (calc.p s) expr = types.Failed e ->
     calc.Scope_Assign Upper s name expr h
     = calc.Return (Some (calc.EvalError e), s, h))
  /\ (forall err s' h',
        calc.Scope_Assign Upper s name expr h = calc.Return (Some err, s', h') ->
        s' = s /\ h' = h
        /\ exists e, err = calc.EvalError e
                     /\ types.Eval Upper h (calc.p s) expr = types.Failed e)
  /\ (forall tv, types.Eval Upper h (calc.p s) expr = types.Evaluated tv ->
        exists s' h',
          calc.Scope_Assign Upper s name expr h = calc.Return (None, s', h')
          /\ is_Some (Scope_binding h' s' name)).
Proof.
  intros Hv. unfold calc.Scope_Assign. split; [|split].
  - now intros e ->.
  - intros err s' h'.
    destruct (types.Eval Upper h (calc.p s) expr) as [tv|e|]; [| |discriminate].
    + now destruct (calc.Scope_assign s name tv h).
    + intros [= <- <- <-]. eauto.
  - intros tv ->.
    destruct (Scope_assign_spec s name tv h Hv)
      as (a & s1 & h1 & -> & Hp & _ & _ & Hold & Hnew & _).
    exists s1, h1. split; [reflexivity|].
    rewrite (Scope_binding_Some h1 s1 a Hp).
    destruct (Scope_binding h s name) as [obj|] eqn:Hb.
    + rewrite (Hold obj eq_refl). eauto.
    + rewrite (Hnew eq_refl). eauto.
Qed.

(** ** Names that are read back *)

Lemma Eval_identifier h pkg name :
  isIdentifier name = true ->
  types.Eval Upper h pkg name
  = match types.ident h pkg name with
    | types.Done x => types.Evaluated (types.record x)
    | types.Error types.OutsideFragment =>
        types.Failed (types.ParseError parser.NotModelled)
    | types.Error c => types.Failed (types.TypeError c)
    | types.Panic => types.Panicked
    end.
Proof. intros Hid. unfold types.Eval. now rewrite (parse_identifier name Hid). Qed.

Lemma Eval_constant_name h s a name t v :
  isIdentifier name = true ->
  calc.p s = Some a ->
  types.Scope_Lookup h a name = Some (types.Const (Some t) (Some v)) ->
  types.isUntyped t = true ->
  types.Eval Upper h (calc.p s) name
  = types.Evaluated {| types.tv_Type := Some t; types.tv_Value := Some v |}.
Proof.
  intros Hid Hp Hl Ht. rewrite (Eval_identifier h _ name Hid).
  unfold types.ident, types.LookupParent. rewrite Hp, Hl.
  unfold types.constOperand. rewrite Ht.
  destruct t as [[]|]; try discriminate; reflexivity.
Qed.

Lemma Eval_qualified h pkg name sel b :
  isIdentifier name = true -> isIdentifier sel = true ->
  types.LookupParent h pkg name = Some (types.PkgName b) ->
  types.Eval Upper h pkg (name +:+ "." +:+ sel)
  = match types.qualified Upper h b sel with
    | types.Done x => types.Evaluated (types.record x)
    | types.Error types.OutsideFragment =>
        types.Failed (types.ParseError parser.NotModelled)
    | types.Error c => types.Failed (types.TypeError c)
    | types.Panic => types.Panicked
    end.
Proof.
  intros Hid Hsel Hl. unfold types.Eval.
  rewrite (parse_qualified name sel Hid Hsel). cbn [types.rawExpr]. now rewrite Hl.
Qed.

(** X10. A name reads back what was assigned to it.  In a scope in which
    the identifier [name] is free, [Assign] of an expression that
    evaluates to a constant returns nil, and evaluating [name] in the
    scope afterwards gives that constant: [Scope.eval] of the name
    returns what [Scope.eval] of the expression returned.  The name may
    be a predeclared one such as [true]: the scope shadows the
    universe. *)
Theorem Assign_then_evaluate h s name expr tv v :
  Scope_valid h s ->
  isIdentifier name = true ->
  Scope_binding h s name = None ->
  types.Eval Upper h (calc.p s) expr = types.Evaluated tv ->
  types.tv_Value tv = Some v ->
  exists s' h',
    calc.Scope_Assign Upper s name expr h = calc.Return (None, s', h')
    /\ calc.Scope_eval Upper h' s' name = calc.Return (Some v, None)
    /\ calc.Scope_eval Upper h' s' name = calc.Scope_eval Upper h s expr.
Proof.
  intros Hv Hid Hfree HE Hval.
  destruct (Eval_value_untyped Upper h _ expr tv v HE Hval) as (t & -> & Ht).
  unfold calc.Scope_Assign. rewrite HE.
  destruct (Scope_assign_spec s name
              {| types.tv_Type := Some t; types.tv_Value := Some v |} h Hv)
    as (a & s1 & h1 & -> & Hp & _ & _ & _ & Hnew & _).
  exists s1, h1. split; [reflexivity|].
  assert (H1 : calc.Scope_eval Upper h1 s1 name = calc.Return (Some v, None)).
  { unfold calc.Scope_eval.
    now rewrite (Eval_constant_name h1 s1 a name t v Hid Hp (Hnew Hfree) Ht). }
  split; [exact H1|]. rewrite H1. unfold calc.Scope_eval. now rewrite HE.
Qed.

Lemma complexConst_Some (re im : spec_float) :
  exists val, calc.complexConst re im = Some val.
Proof.
  unfold calc.complexConst, constant.MakeFloat64.
  destruct (constant.float_to_rat re), (constant.float_to_rat im); cbn; eauto.
Qed.

(** X11. [AssignValue] is insert-once, as its documentation says: when
    the name is already bound in the scope, [AssignValue] of a value of
    any of the sixteen kinds leaves the scope and the whole store as they
    were. *)
Theorem AssignValue_is_insert_once h s name (v : calc.any) a obj :
  calc.p s = Some a ->
  types.Scope_Lookup h a name = Some obj ->
  recognized v = true ->
  calc.Scope_AssignValue s name v h = calc.Return (s, h).
Proof.
  intros Hp Hb Hr. destruct v; try discriminate Hr; cbn [calc.Scope_AssignValue];
    try (destruct (complexConst_Some re im) as [val ->]);
    now rewrite (Scope_assign_bound s name _ h a obj Hp Hb).
Qed.

(** What is read back from a fresh name bound to an untyped constant. *)
Lemma assign_then_eval s name k val h :
  Scope_valid h s ->
  isIdentifier name = true ->
  Scope_binding h s name = None ->
  types.isUntyped (types.Typ k) = true ->
  exists s' h',
    calc.Scope_assign s name
      {| types.tv_Type := Some (types.Typ k); types.tv_Value := Some val |} h
    = (s', h')
    /\ calc.Scope_eval Upper h' s' name = calc.Return (Some val, None).
Proof.
  intros Hv Hid Hfree Hk.
  destruct (Scope_assign_spec s name
              {| types.tv_Type := Some (types.Typ k); types.tv_Value := Some val |} h Hv)
    as (a & s1 & h1 & -> & Hp & _ & _ & _ & Hnew & _).
  exists s1, h1. split; [reflexivity|]. unfold calc.Scope_eval.
  now rewrite (Eval_constant_name h1 s1 a name _ val Hid Hp (Hnew Hfree) Hk).
Qed.

(** X12. A value given to [AssignValue] reads back through the narrowing
    method of its kind.  In a scope in which the identifier [name] is
    free: after [AssignValue] of a signed integer in the int64 range,
    [Int] of the name is that integer; of an unsigned integer below 2^64,
    [Uint] of the name is that integer; of a bool, [Bool] returns it; of
    a string, [String] returns it. *)
Theorem AssignValue_then_narrow h s name :
  Scope_valid h s ->
  isIdentifier name = true ->
  Scope_binding h s name = None ->
  (forall o v, In v [calc.int64 o; calc.int32 o; calc.int16 o; calc.int8 o; calc.int o] ->
     - constant.two63 <= o < constant.two63 ->
     exists s' h', calc.Scope_AssignValue s name v h = calc.Return (s', h')
                   /\ calc.Scope_Int Upper h' s' name = calc.Return (o, None))
  /\ (forall o v, In v [calc.uint64 o; calc.uint32 o; calc.uint16 o; calc.uint8 o;
                        calc.uint o] ->
        0 <= o < constant.two64 ->
        exists s' h', calc.Scope_AssignValue s name v h = calc.Return (s', h')
                      /\ calc.Scope_Uint Upper h' s' name = calc.Return (o, None))
  /\ (forall o,
        exists s' h', calc.Scope_AssignValue s name (calc.bool_ o) h = calc.Return (s', h')
                      /\ calc.Scope_Bool Upper h' s' name = calc.Return (o, None))
  /\ (forall o,
        exists s' h', calc.Scope_AssignValue s name (calc.string_ o) h = calc.Return (s', h')
                      /\ calc.Scope_String Upper h' s' name = calc.Return (o, None)).
Proof.
  intros Hv Hid Hfree. split; [|split; [|split]].
  - intros o v Hin Hr.
    destruct (assign_then_eval s name types.UntypedInt (constant.MakeInt64 o) h
                Hv Hid Hfree eq_refl) as (s' & h' & Ha & He).
    exists s', h'. split.
    + cbn in Hin. destruct Hin as [<-|[<-|[<-|[<-|[<-|[]]]]]];
        cbn [calc.Scope_AssignValue]; now rewrite Ha.
    + unfold calc.Scope_Int. rewrite He.
      change (calc.ToInt (Some (constant.MakeInt64 o))) with (constant.intVal o).
      cbn [constant.Value_Kind]. now rewrite (Int64Val_in_range o Hr).
  - intros o v Hin Hr.
    destruct (assign_then_eval s name types.UntypedInt (constant.MakeUint64 o) h
                Hv Hid Hfree eq_refl) as (s' & h' & Ha & He).
    exists s', h'. split.
    + cbn in Hin. destruct Hin as [<-|[<-|[<-|[<-|[<-|[]]]]]];
        cbn [calc.Scope_AssignValue]; now rewrite Ha.
    + unfold calc.Scope_Uint. rewrite He.
      change (calc.ToInt (Some (constant.MakeUint64 o))) with (constant.intVal o).
      cbn [constant.Value_Kind]. now rewrite (Uint64Val_in_range o Hr).
  - intros o.
    destruct (assign_then_eval s name types.UntypedBool (constant.MakeBool o) h
                Hv Hid Hfree eq_refl) as (s' & h' & Ha & He).
    exists s', h'. split; [cbn [calc.Scope_AssignValue]; now rewrite Ha|].
    unfold calc.Scope_Bool. now rewrite He.
  - intros o.
    destruct (assign_then_eval s name types.UntypedString (constant.MakeString o) h
                Hv Hid Hfree eq_refl) as (s' & h' & Ha & He).
    exists s', h'. split; [cbn [calc.Scope_AssignValue]; now rewrite Ha|].
    unfold calc.Scope_String. now rewrite He.
Qed.

(** X13. [AssignValue] does not refuse a float that is no number: a NaN
    or an infinity is bound as an Unknown constant, and [Float64] of the
    name then returns NaN with the error "not representable as a float
    (Unknown)".  A zero of either sign reads back as +0. *)
Theorem AssignValue_of_a_float_that_is_no_number h s name (f : constant.float64) :
  Scope_valid h s ->
  isIdentifier name = true ->
  Scope_binding h s name = None ->
  (f = S754_nan \/ (exists sgn, f = S754_infinity sgn) ->
   exists s' h', calc.Scope_AssignValue s name (calc.float64 f) h = calc.Return (s', h')
                 /\ calc.Scope_Float64 Upper h' s' name
                    = calc.Return (calc.NaN, Some (calc.NotFloat constant.Unknown name)))
  /\ ((exists sgn, f = S754_zero sgn) ->
      exists s' h', calc.Scope_AssignValue s name (calc.float64 f) h = calc.Return (s', h')
                    /\ calc.Scope_Float64 Upper h' s' name
                       = calc.Return (S754_zero false, None)).
Proof.
  intros Hv Hid Hfree.
  destruct (assign_then_eval s name types.UntypedFloat (constant.MakeFloat64 f) h
              Hv Hid Hfree eq_refl) as (s' & h' & Ha & He).
  split; intros Hf; exists s', h'; (split; [cbn [calc.Scope_AssignValue]; now rewrite Ha|]);
    unfold calc.Scope_Float64; rewrite He.
  - destruct Hf as [->|[sgn ->]]; reflexivity.
  - destruct Hf as [sgn ->]. reflexivity.
Qed.

(** ** Import *)

(** [Import] in terms of the store, for a name that is not exported. *)
Lemma Scope_Import_spec h s name lib :
  Scope_valid h s -> Scope_valid h lib ->
  types.IsExported Upper name = false ->
  exists a b s' lib' h',
    calc.Scope_Import Upper s name lib h = (None, s', lib', h')
    /\ calc.p s' = Some a /\ calc.p lib' = Some b
    /\ is_Some (h' !! a) /\ is_Some (h' !! b)
    /\ (Scope_binding h s name = None ->
        types.Scope_Lookup h' a name = Some (types.PkgName b))
    /\ (forall obj, Scope_binding h s name = Some obj ->
                    types.Scope_Lookup h' a name = Some obj)
    /\ (forall m, m <> name -> types.Scope_Lookup h' a m = Scope_binding h s m)
    /\ (forall m obj, Scope_binding h lib m = Some obj ->
                      types.Scope_Lookup h' b m = Some obj)
    /\ (forall m, m <> name -> types.Scope_Lookup h' b m = Scope_binding h lib m).
Proof.
  intros Hs Hlib Hx. unfold calc.Scope_Import, types.IsExported in *.
  destruct (utf8.DecodeRuneInString name) as [ch w]. cbn [fst] in Hx. rewrite Hx.
  destruct (Scope_pack_spec s h Hs)
    as (a & s' & h1 & -> & Hp & Ha & Hor & Hsame & Hoth & Hal).
  assert (Hlib1 : Scope_valid h1 lib).
  { unfold Scope_valid in *. destruct (calc.p lib); [now apply Hal|exact I]. }
  assert (Hbind1 : forall m, Scope_binding h1 lib m = Scope_binding h lib m).
  { intros m. unfold Scope_binding, Scope_valid in *.
    destruct (calc.p lib) as [b0|]; [|reflexivity].
    destruct Hor as [(_ & _ & ->)|(_ & -> & _)]; [reflexivity|].
    apply Hoth. apply lookup_lt_is_Some in Hlib. lia. }
  destruct (Scope_pack_spec lib h1 Hlib1)
    as (b & lib' & h2 & -> & Hp' & Hb & Hor' & Hsame' & Hoth' & Hal').
  assert (Ha2 : is_Some (h2 !! a)) by now apply Hal'.
  assert (Hsame2 : forall m, types.Scope_Lookup h2 a m = Scope_binding h s m).
  { intros m. rewrite <- Hsame.
    destruct Hor' as [(_ & _ & ->)|(_ & -> & _)]; [reflexivity|].
    apply Hoth'. apply lookup_lt_is_Some in Ha. lia. }
  exists a, b, s', lib', (types.Scope_Insert h2 a name (types.PkgName b)).
  split; [reflexivity|]. split; [exact Hp|]. split; [exact Hp'|].
  split; [now apply Scope_Insert_allocated|].
  split; [now apply Scope_Insert_allocated|].
  split; [|split; [|split; [|split]]].
  - intros Hfree. apply Scope_Insert_same; [exact Ha2|]. now rewrite Hsame2.
  - intros obj Hbound. apply Scope_Insert_keeps. now rewrite Hsame2.
  - intros m Hm. rewrite Scope_Insert_other by (right; exact Hm). apply Hsame2.
  - intros m obj Hbound. apply Scope_Insert_keeps. now rewrite Hsame', Hbind1.
  - intros m Hm. rewrite Scope_Insert_other by (right; exact Hm).
    now rewrite Hsame', Hbind1.
Qed.

(** X14. What [Import] of a name that is not exported does, for two
    distinct Scope variables: it returns nil; both scopes have a package
    afterwards (a zero library is given one); a name that was free in the
    receiver denotes the package of the library; a name that was bound
    keeps its object, and [Import] still returns nil; every other name of
    the receiver and of the library denotes what it denoted before. *)
Theorem Import_binds_the_package_of_the_library h s name lib :
  Scope_valid h s -> Scope_valid h lib ->
  types.IsExported Upper name = false ->
  exists b s' lib' h',
    calc.Scope_Import Upper s name lib h = (None, s', lib', h')
    /\ Scope_valid h' s' /\ Scope_valid h' lib'
    /\ calc.p lib' = Some b
    /\ (Scope_binding h s name = None ->
        Scope_binding h' s' name = Some (types.PkgName b))
    /\ (forall obj, Scope_binding h s name = Some obj ->
                    Scope_binding h' s' name = Some obj)
    /\ (forall m, m <> name ->
                  Scope_binding h' s' m = Scope_binding h s m
                  /\ Scope_binding h' lib' m = Scope_binding h lib m).
Proof.
  intros Hs Hlib Hx.
  destruct (Scope_Import_spec h s name lib Hs Hlib Hx)
    as (a & b & s' & lib' & h' & HI & Hp & Hp' & Ha & Hb & Hfree & Hbound & Hm & _ & Hm').
  exists b, s', lib', h'. split; [exact HI|].
  unfold Scope_valid. rewrite Hp, Hp'. split; [exact Ha|]. split; [exact Hb|].
  split; [reflexivity|].
  rewrite !(Scope_binding_Some h' s' a Hp).
  split; [exact Hfree|]. split; [exact Hbound|].
  intros m Hne. rewrite (Scope_binding_Some h' s' a Hp), (Scope_binding_Some h' lib' b Hp').
  split; [now apply Hm|now apply Hm'].
Qed.

(** X15. Reading through an import.  After [Import] of the library under
    an identifier that is not exported and was free in the receiver, in
    the receiver: [name.sel] evaluates to the constant that an exported
    [sel] denotes in the library; it is the error "not exported" for a
    name of the library that is not exported, and the error "undefined"
    for a name the library does not have (names of the universe are not
    found through the import); the name alone is the error "use of
    package not in selector". *)
Theorem imported_constants_are_read_qualified h s name lib sel :
  Scope_valid h s -> Scope_valid h lib ->
  isIdentifier name = true ->
  types.IsExported Upper name = false ->
  Scope_binding h s name = None ->
  isIdentifier sel = true ->
  exists s' lib' h',
    calc.Scope_Import Upper s name lib h = (None, s', lib', h')
    /\ (forall t v,
          Scope_binding h lib sel = Some (types.Const (Some t) (Some v)) ->
          types.isUntyped t = true ->
          types.IsExported Upper sel = true ->
          calc.Scope_eval Upper h' s' (name +:+ "." +:+ sel)
          = calc.Return (Some v, None))
    /\ (forall obj,
          Scope_binding h lib sel = Some obj ->
          types.IsExported Upper sel = false ->
          calc.Scope_eval Upper h' s' (name +:+ "." +:+ sel)
          = calc.Return (None, Some (calc.EvalError (types.TypeError types.UnexportedName))))
    /\ (Scope_binding h lib sel = None ->
        sel <> name ->
        calc.Scope_eval Upper h' s' (name +:+ "." +:+ sel)
        = calc.Return (None, Some (calc.EvalError
                                     (types.TypeError types.UndeclaredImportedName))))
    /\ calc.Scope_eval Upper h' s' name
       = calc.Return (None, Some (calc.EvalError (types.TypeError types.InvalidPkgUse))).
Proof.
  intros Hs Hlib Hid Hx Hfree Hsel.
  destruct (Scope_Import_spec h s name lib Hs Hlib Hx)
    as (a & b & s' & lib' & h' & HI & Hp & Hp' & Ha & Hb & Hnew & _ & _ & Hkeep & Hm').
  exists s', lib', h'. split; [exact HI|].
  assert (Hl : types.LookupParent h' (calc.p s') name = Some (types.PkgName b)).
  { unfold types.LookupParent. now rewrite Hp, (Hnew Hfree). }
  unfold calc.Scope_eval.
  rewrite (Eval_qualified h' _ name sel b Hid Hsel Hl).
  split; [|split; [|split]].
  - intros t v Hbound Ht Hexp. unfold types.qualified.
    rewrite (Hkeep sel _ Hbound), Hexp. cbn [negb].
    unfold types.constOperand. rewrite Ht. reflexivity.
  - intros obj Hbound Hexp. unfold types.qualified.
    rewrite (Hkeep sel _ Hbound), Hexp. reflexivity.
  - intros Hnone Hne. unfold types.qualified.
    rewrite (Hm' sel Hne), Hnone. reflexivity.
  - rewrite (Eval_identifier h' _ name Hid). unfold types.ident. now rewrite Hl.
Qed.

(** X16. An import refers to the library, it does not copy it: a
    constant assigned to the library after the [Import] is read through
    the import.  After [Import] of the library under [name], [Assign] on
    the library of an exported identifier [sel] that is free in it, with
    an expression that evaluates to a constant, makes [name.sel] in the
    receiver evaluate to that constant. *)
Theorem Import_shares_the_library h s name lib sel expr :
  Scope_valid h s -> Scope_valid h lib ->
  isIdentifier name = true ->
  types.IsExported Upper name = false ->
  Scope_binding h s name = None ->
  isIdentifier sel = true ->
  types.IsExported Upper sel = true ->
  Scope_binding h lib sel = None ->
  exists s' lib' h',
    calc.Scope_Import Upper s name lib h = (None, s', lib', h')
    /\ forall tv v,
         types.Eval Upper h' (calc.p lib') expr = types.Evaluated tv ->
         types.tv_Value tv = Some v ->
         exists h'',
           calc.Scope_Assign Upper lib' sel expr h' = calc.Return (None, lib', h'')
           /\ calc.Scope_eval Upper h'' s' (name +:+ "." +:+ sel)
              = calc.Return (Some v, None).
Proof.
  intros Hs Hlib Hid Hx Hfree Hsel Hexp Hfree'.
  assert (Hne : sel <> name) by (intros ->; congruence).
  destruct (Scope_Import_spec h s name lib Hs Hlib Hx)
    as (a & b & s' & lib' & h' & HI & Hp & Hp' & Ha & Hb & Hnew & _ & _ & _ & Hm').
  exists s', lib', h'. split; [exact HI|].
  intros tv v HE Hv.
  destruct (Eval_value_untyped Upper h' _ expr tv v HE Hv) as (t & -> & Ht).
  unfold calc.Scope_Assign. rewrite HE.
  unfold calc.Scope_assign, calc.Scope_pack. rewrite Hp'.
  eexists. split; [reflexivity|]. cbn [types.tv_Type types.tv_Value].
  set (h'' := types.Scope_Insert h' b sel _).
  assert (Hl : types.LookupParent h'' (calc.p s') name = Some (types.PkgName b)).
  { unfold types.LookupParent. rewrite Hp.
    unfold h''. now rewrite (Scope_Insert_keeps h' b sel _ a name _ (Hnew Hfree)). }
  unfold calc.Scope_eval. rewrite (Eval_qualified h'' _ name sel b Hid Hsel Hl).
  unfold types.qualified, h''.
  rewrite Scope_Insert_same by (try exact Hb; now rewrite (Hm' sel Hne)).
  rewrite Hexp. cbn [negb]. unfold types.constOperand. now rewrite Ht.
Qed.

(** X20. An identifier that is bound neither in the scope nor in the
    universe is an error of every narrowing method, never a panic and
    never a default value: [Scope.eval] returns the error "undefined" of
    [types.Eval] ("cannot use _ as value" for the blank identifier), and
    each method returns its sentinel with that error. *)
Theorem unbound_identifier_is_an_error h s name :
  isIdentifier name = true ->
  types.LookupParent h (calc.p s) name = None ->
  let err := calc.EvalError (types.TypeError
               (if String.eqb name "_" then types.InvalidBlank
                else types.UndeclaredName)) in
  calc.Scope_eval Upper h s name = calc.Return (None, Some err)
  /\ calc.Scope_Int Upper h s name = calc.Return (0, Some err)
  /\ calc.Scope_Uint Upper h s name = calc.Return (0, Some err)
  /\ calc.Scope_Float64 Upper h s name = calc.Return (calc.NaN, Some err)
  /\ calc.Scope_Float32 Upper h s name = calc.Return (calc.NaN, Some err)
  /\ calc.Scope_Complex128 Upper h s name = calc.Return (calc.complex_zero, Some err)
  /\ calc.Scope_Complex64 Upper h s name = calc.Return (calc.complex_zero, Some err)
  /\ calc.Scope_Bool Upper h s name = calc.Return (false, Some err)
  /\ calc.Scope_String Upper h s name = calc.Return (EmptyString, Some err).
Proof.
  intros Hid Hl err.
  assert (He : calc.Scope_eval Upper h s name = calc.Return (None, Some err)).
  { unfold calc.Scope_eval. rewrite (Eval_identifier h _ name Hid).
    unfold types.ident. rewrite Hl. unfold err. now destruct (String.eqb name "_"). }
  unfold calc.Scope_Int, calc.Scope_Uint, calc.Scope_Float64, calc.Scope_Float32,
    calc.Scope_Complex128, calc.Scope_Complex64, calc.Scope_Bool, calc.Scope_String.
  rewrite He. repeat split; reflexivity.
Qed.

End Stores.

(* ===================================================================== *)
(** * Decimal numerals are read back exactly *)
(* ===================================================================== *)

Section DecimalNumerals.

Variable Upper : Z -> bool.

Import scanner parser.

Lemma string_of_uint_all_decimal (d : Decimal.uint) :
  all_decimal (NilEmpty.string_of_uint d) = true.
Proof. induction d; cbn [NilEmpty.string_of_uint all_decimal]; auto. Qed.

Lemma string_of_uint_length (d : Decimal.uint) :
  String.length (NilEmpty.string_of_uint d) = Decimal.nb_digits d.
Proof. induction d; cbn [NilEmpty.string_of_uint String.length Decimal.nb_digits]; auto. Qed.

Lemma parseDigits_string_of_uint (d : Decimal.uint) (acc : positive) :
  constant.parseDigits 10 (NilEmpty.string_of_uint d) (Zpos acc)
  = Some (Zpos (Pos.of_uint_acc d acc)).
Proof.
  revert acc. induction d as [|d IH|d IH|d IH|d IH|d IH|d IH|d IH|d IH|d IH|d IH];
    intros acc; [reflexivity|..];
    cbn [NilEmpty.string_of_uint constant.parseDigits Pos.of_uint_acc];
    match goal with
    | |- context [Ascii.eqb ?c "_"] =>
        change (Ascii.eqb c "_") with false;
        change (constant.digitVal c <? 10) with true;
        cbv beta iota
    end;
    match goal with
    | |- constant.parseDigits _ _ ?z = Some (Zpos (Pos.of_uint_acc _ ?q)) =>
        replace z with (Zpos q);
        [apply IH|
         match goal with
         | |- context [constant.digitVal ?c] =>
             let v := eval vm_compute in (constant.digitVal c) in
             change (constant.digitVal c) with v
         end; lia]
    end.
Qed.

Lemma of_uint_acc_lower_bound (d : Decimal.uint) (acc : positive) :
  Zpos acc * 10 ^ Z.of_nat (Decimal.nb_digits d) <= Zpos (Pos.of_uint_acc d acc).
Proof.
  revert acc. induction d as [|d IH|d IH|d IH|d IH|d IH|d IH|d IH|d IH|d IH|d IH];
    intros acc; cbn [Decimal.nb_digits Pos.of_uint_acc];
    [rewrite Z.pow_0_r; lia|..];
    rewrite Nat2Z.inj_succ, Z.pow_succ_r by lia;
    (etransitivity; [|apply IH]); nia.
Qed.

Lemma nzhead_not_D0 (d d' : Decimal.uint) : Decimal.nzhead d <> Decimal.D0 d'.
Proof. induction d; cbn [Decimal.nzhead]; try discriminate. exact IHd. Qed.

(** The digits of a positive number start with a digit that is not 0. *)
Lemma to_uint_head (p : positive) :
  exists c r, NilEmpty.string_of_uint (Pos.to_uint p) = String c r
              /\ isDecimal c = true /\ c <> "0"%char.
Proof.
  pose proof (DecimalPos.Unsigned.to_uint_nonnil p) as Hnil.
  pose proof (DecimalPos.Unsigned.to_uint_nonzero p) as Hzero.
  assert (Hnorm : Decimal.unorm (Pos.to_uint p) = Pos.to_uint p).
  { rewrite <- DecimalPos.Unsigned.to_of, DecimalPos.Unsigned.of_to. reflexivity. }
  destruct (Pos.to_uint p) as [|d|d|d|d|d|d|d|d|d|d] eqn:Hd;
    try congruence;
    try (eexists _, _; split; [reflexivity|split; [reflexivity|discriminate]]).
  exfalso. unfold Decimal.unorm in Hnorm. cbn [Decimal.nzhead] in Hnorm.
  destruct (Decimal.nzhead d) eqn:Hh; try discriminate Hnorm.
  - injection Hnorm as <-. congruence.
  - exact (nzhead_not_D0 d _ Hh).
Qed.

(** The decimal text of a positive number is an integer literal that
    denotes it. *)
Lemma to_uint_IntLiteral (p : positive) :
  IntLiteral (NilEmpty.string_of_uint (Pos.to_uint p)) (Zpos p).
Proof.
  destruct (to_uint_head p) as (c & r & Heq & Hc & H0).
  assert (Hnum : decimal_numeral (NilEmpty.string_of_uint (Pos.to_uint p))).
  { split; [apply string_of_uint_all_decimal|]. rewrite Heq. split; [discriminate|exact H0]. }
  assert (Hval : constant.parseDigits 10 (NilEmpty.string_of_uint (Pos.to_uint p)) 0
                 = Some (Zpos p)).
  { pose proof (DecimalPos.Unsigned.of_to p) as Hof.
    destruct (Pos.to_uint p) as [|d|d|d|d|d|d|d|d|d|d];
      cbn [Pos.of_uint] in Hof; try discriminate Hof;
      try (injection Heq as <- _; congruence);
      injection Hof as <-;
      cbn [NilEmpty.string_of_uint constant.parseDigits];
      match goal with
      | |- context [Ascii.eqb ?c "_"] =>
          change (Ascii.eqb c "_") with false;
          change (constant.digitVal c <? 10) with true;
          cbv beta iota
      end;
      match goal with
      | |- constant.parseDigits _ _ ?z = Some (Zpos (Pos.of_uint_acc _ ?q)) =>
          change z with (Zpos q)
      end; apply parseDigits_string_of_uint. }
  destruct (decimal_numeral_IntLiteral _ Hnum) as (a & Hd & Hs & Hm).
  split; [exact Hd|]. split; [exact Hs|].
  unfold constant.MakeFromLiteral.
  now rewrite (makeIntFromLiteral_decimal _ Hnum), Hval.
Qed.

(** A number below 10^k has at most k digits. *)
Lemma to_uint_length (p : positive) (k : nat) :
  Zpos p < 10 ^ Z.of_nat k ->
  (String.length (NilEmpty.string_of_uint (Pos.to_uint p)) <= k)%nat.
Proof.
  intros Hp. rewrite string_of_uint_length.
  pose proof (DecimalPos.Unsigned.of_to p) as Hof.
  destruct (to_uint_head p) as (c & r & Heq & _ & H0).
  destruct (Pos.to_uint p) as [|d|d|d|d|d|d|d|d|d|d];
    cbn [Pos.of_uint] in Hof; try discriminate Hof;
    try (injection Heq as <- _; congruence);
    injection Hof as <-; cbn [Decimal.nb_digits];
    match type of Hp with
    | Zpos (Pos.of_uint_acc _ ?q) < _ =>
        pose proof (of_uint_acc_lower_bound d q) as Hlow
    end;
    (destruct (le_lt_dec (S (Decimal.nb_digits d)) k) as [Hle|Hgt]; [exact Hle|]);
    exfalso;
    assert (Hpow : 10 ^ Z.of_nat k <= 10 ^ Z.of_nat (Decimal.nb_digits d))
      by (apply Z.pow_le_mono_r; lia);
    nia.
Qed.

Lemma isDecimal_no_operator c :
  isDecimal c = true -> Ascii.eqb c "=" = false /\ Ascii.eqb c "-" = false.
Proof.
  destruct c as [[] [] [] [] [] [] [] []]; lazy; intros H;
    try discriminate H; repeat split.
Qed.

Lemma Scan_minus ins lit :
  isDecimal (peek lit) = true ->
  Scan {| src := String "-" lit; insertSemi := ins |}
  = Scanned token.SUB EmptyString {| src := lit; insertSemi := false |}.
Proof.
  intros Hd. destruct (isDecimal_no_operator _ Hd) as [He Hm].
  unfold Scan. cbn [src insertSemi skipWhitespace].
  destruct ins; cbn -[peek]; unfold switch3; rewrite He, Hm; reflexivity.
Qed.

Lemma parseUnaryExpr_SUB f l (s0 : Scanner) :
  parseUnaryExpr (S f) {| tok := token.SUB; lit := l; sc := s0 |}
  = next {| tok := token.SUB; lit := l; sc := s0 |}
    ≫= λ p1, parseUnaryExpr f p1 ≫= λ '(x, p2), POk (ast.UnaryExpr token.SUB x, p2).
Proof. reflexivity. Qed.

Lemma parse_literal lit a :
  IntLiteral lit a -> ParseExprFrom lit = POk (ast.BasicLit token.INT lit).
Proof.
  intros (Hd & Hs & _). unfold ParseExprFrom, budget.
  set (n := (6 * String.length _)%nat).
  change (16 + n)%nat with (S (S (S (13 + n))))%nat.
  assert (H0 : Scan {| src := lit; insertSemi := false |}
               = Scanned token.INT lit {| src := EmptyString; insertSemi := true |})
    by (rewrite Scan_digit by exact Hd; exact Hs).
  rewrite (next_Scanned _ _ _ _ _ _ H0), bind_POk.
  rewrite parseBinaryExpr_S, parseUnaryExpr_INT.
  rewrite (next_Scanned _ _ _ _ _ _ Scan_end), bind_POk.
  rewrite primaryLoop_SEMICOLON, bind_POk, binaryLoop_SEMICOLON, bind_POk.
  cbn [tok parser.lit].
  rewrite (next_Scanned _ _ _ _ _ _ Scan_eof), bind_POk.
  reflexivity.
Qed.

Lemma parse_negated_literal lit a :
  IntLiteral lit a ->
  ParseExprFrom (String "-" lit)
  = POk (ast.UnaryExpr token.SUB (ast.BasicLit token.INT lit)).
Proof.
  intros (Hd & Hs & _). unfold ParseExprFrom, budget.
  set (n := (6 * String.length _)%nat).
  change (16 + n)%nat with (S (S (S (S (12 + n)))))%nat.
  assert (H0 : Scan {| src := lit; insertSemi := false |}
               = Scanned token.INT lit {| src := EmptyString; insertSemi := true |})
    by (rewrite Scan_digit by exact Hd; exact Hs).
  rewrite (next_Scanned _ _ _ _ _ _ (Scan_minus false lit Hd)), bind_POk.
  rewrite parseBinaryExpr_S, parseUnaryExpr_SUB.
  rewrite (next_Scanned _ _ _ _ _ _ H0), bind_POk.
  rewrite parseUnaryExpr_INT.
  rewrite (next_Scanned _ _ _ _ _ _ Scan_end), bind_POk.
  rewrite primaryLoop_SEMICOLON, !bind_POk, binaryLoop_SEMICOLON, bind_POk.
  cbn [tok parser.lit].
  rewrite (next_Scanned _ _ _ _ _ _ Scan_eof), bind_POk.
  reflexivity.
Qed.

Lemma overflow_int_abs t v :
  Z.abs v < 2 ^ 512 ->
  types.overflow t (constant.intVal v) = types.Done (types.op_constant t (constant.intVal v)).
Proof.
  intros Hv. unfold types.overflow, constant.BitLen, types.prec.
  destruct (Z.eqb_spec v 0) as [->|Hne]; [reflexivity|].
  assert (Hlog : Z.log2 (Z.abs v) < 512) by (apply Z.log2_lt_pow2; lia).
  destruct (Z.ltb_spec 512 (Z.log2 (Z.abs v) + 1)); [lia|reflexivity].
Qed.

Lemma Eval_literal h pkg lit a :
  IntLiteral lit a ->
  (String.length lit <= literal_limit)%nat ->
  a < 2 ^ 512 ->
  types.Eval Upper h pkg lit
  = types.Evaluated {| types.tv_Type := Some (types.Typ types.UntypedInt);
                       types.tv_Value := Some (constant.intVal a) |}
  /\ types.Eval Upper h pkg (String "-" lit)
     = types.Evaluated {| types.tv_Type := Some (types.Typ types.UntypedInt);
                          types.tv_Value := Some (constant.intVal (- a)) |}.
Proof.
  intros Hl Hlen Ha. pose proof (IntLiteral_nonneg lit a Hl) as H0.
  unfold types.Eval. rewrite (parse_literal lit a Hl), (parse_negated_literal lit a Hl).
  cbn [types.rawExpr]. rewrite (basicLit_IntLiteral lit a Hl Hlen Ha).
  split; [reflexivity|].
  cbn [mbind types.Checked_bind types.exclude types.unary types.unaryOpPredicate
       types.isNumeric types.isInteger orb negb constant.UnaryOp constant.unaryOp_real].
  rewrite overflow_int_abs by lia. reflexivity.
Qed.

Lemma Eval_FormatInt h pkg z :
  Z.abs z < 10 ^ 20 ->
  types.Eval Upper h pkg (FormatInt z)
  = types.Evaluated {| types.tv_Type := Some (types.Typ types.UntypedInt);
                       types.tv_Value := Some (constant.intVal z) |}.
Proof.
  intros Hz. unfold FormatInt.
  assert (Hp : forall p, Zpos p < 10 ^ 20 ->
    NilZero.string_of_uint (Pos.to_uint p) = NilEmpty.string_of_uint (Pos.to_uint p)
    /\ (String.length (NilEmpty.string_of_uint (Pos.to_uint p)) <= literal_limit)%nat
    /\ Zpos p < 2 ^ 512).
  { intros p Hlt. split; [|split].
    - pose proof (DecimalPos.Unsigned.to_uint_nonnil p).
      now destruct (Pos.to_uint p).
    - pose proof (to_uint_length p 20 Hlt). unfold literal_limit. lia.
    - eapply Z.lt_trans; [exact Hlt|]. reflexivity. }
  destruct z as [|p|p]; cbn [Z.to_int NilZero.string_of_int].
  - reflexivity.
  - destruct (Hp p Hz) as (-> & Hlen & Hbig).
    exact (proj1 (Eval_literal h pkg _ _ (to_uint_IntLiteral p) Hlen Hbig)).
  - destruct (Hp p Hz) as (-> & Hlen & Hbig).
    exact (proj2 (Eval_literal h pkg _ _ (to_uint_IntLiteral p) Hlen Hbig)).
Qed.

(** X17. [Int] and [Uint] read a number back from its decimal text, as
    [strconv.ParseInt] does: for every integer of the int64 range, [Int]
    of the text that [strconv.FormatInt] prints for it (a minus sign for
    a negative number, then the decimal digits) is that integer with a
    nil error, in every scope; for every integer from 0 to 2^64 - 1,
    [Uint] of its decimal text is that integer. *)
Theorem Int_reads_decimal_text h s z :
  (- constant.two63 <= z < constant.two63 ->
   calc.Scope_Int Upper h s (FormatInt z) = calc.Return (z, None))
  /\ (0 <= z < constant.two64 ->
      calc.Scope_Uint Upper h s (FormatInt z) = calc.Return (z, None)).
Proof.
  split; intros Hr.
  - unfold calc.Scope_Int, calc.Scope_eval.
    rewrite Eval_FormatInt by (unfold constant.two63 in Hr; lia).
    cbn [types.tv_Value calc.ToInt from_option constant.ToInt constant.Value_Kind].
    now rewrite (Int64Val_in_range z Hr).
  - unfold calc.Scope_Uint, calc.Scope_eval.
    rewrite Eval_FormatInt by (unfold constant.two64 in Hr; lia).
    cbn [types.tv_Value calc.ToInt from_option constant.ToInt constant.Value_Kind].
    now rewrite (Uint64Val_in_range z Hr).
Qed.

End DecimalNumerals.

(* ===================================================================== *)
(** * The examples of the package *)
(* ===================================================================== *)

Section Examples.

Variable Upper : Z -> bool.

(** X18. [ExampleInt] prints what its Output comment says: the seven
    calls of [Int] return 2, 4, 2, 511, 255, 15 and 1, each with a nil
    error (a decimal literal, a sum, a difference of two values beyond 64
    bits, a legacy octal literal, a hexadecimal literal, an exclusive or
    of binary literals and a difference of a hexadecimal and a binary
    literal). *)
Theorem ExampleInt_output :
  ExampleInt Upper
  = (λ v, calc.Return (v, None)) <$> [2; 4; 2; 511; 255; 15; 1].
Proof. vm_compute. reflexivity. Qed.

(** X19. [ExampleScope_Assign] prints what its Output comment says:
    with s=1, m=60*s, h=60*m, d=24*h and w=7*d assigned in order, every
    [Assign] returns nil, [Int] of "2.5*d" is 216000, [Int] of
    "2*d + 4*h" is 187200 and [Float64] of "2.5*s" is 2.5. *)
Theorem ExampleScope_Assign_output :
  ExampleScope_Assign Upper
  = calc.Return ([None; None; None; None; None],
                 (216000, None), (187200, None), (f64_2_5, None)).
Proof. vm_compute. reflexivity. Qed.

End Examples.

(* ===================================================================== *)
(** * Further instances on concrete inputs *)
(* ===================================================================== *)


Lemma Uint_is_exact_or_fails_witness :
  calc.Scope_Uint no_upper_table [] calc.zero "1<<63" = calc.Return (2 ^ 63, None)
  /\ calc.Scope_Uint no_upper_table [] calc.zero "-1"
     = calc.Return (0, Some (calc.NotUint64 "-1")).
Proof.
  split.
  - apply (proj1 (Uint_is_exact_or_fails no_upper_table [] calc.zero "1<<63" _ (2 ^ 63)
                    eq_refl eq_refl)).
    vm_compute. split; [discriminate|reflexivity].
  - apply (proj2 (Uint_is_exact_or_fails no_upper_table [] calc.zero "-1" _ (-1)
                    eq_refl eq_refl)).
    vm_compute. intros [H _]. now apply H.
Defined.

Lemma Int_and_Uint_agree_witness :
  calc.Scope_Uint no_upper_table [] calc.zero "2+2" = calc.Return (4, None).
Proof.
  apply (proj1 (Int_and_Uint_agree no_upper_table [] calc.zero "2+2" 4) eq_refl).
  vm_compute. discriminate.
Defined.


Lemma Complex_accepts_real_numbers_witness :
  exists f, calc.Scope_Float64 no_upper_table [] calc.zero "3" = calc.Return (f, None)
            /\ calc.Scope_Complex128 no_upper_table [] calc.zero "3"
               = calc.Return ((f, S754_zero false), None).
Proof.
  apply (proj1 (proj1 (Complex_accepts_real_numbers no_upper_table [] calc.zero "3"
                         _ _ eq_refl eq_refl) (or_introl eq_refl))).
Defined.

Lemma narrowing_a_non_constant_panics_witness :
  calc.Scope_Int no_upper_table [] calc.zero "nil" = calc.Panics
  /\ calc.Scope_Bool no_upper_table [] calc.zero "int" = calc.Panics.
Proof.
  split.
  - apply (narrowing_a_non_constant_panics no_upper_table [] calc.zero "nil" _
             eq_refl eq_refl).
  - apply (narrowing_a_non_constant_panics no_upper_table [] calc.zero "int" _
             eq_refl eq_refl).
Defined.

Lemma Assign_touches_one_name_witness :
  exists s' h',
    calc.Scope_Assign no_upper_table calc.zero "y" "1" [] = calc.Return (None, s', h')
    /\ Scope_valid h' s'
    /\ Scope_binding h' s' "x" = Scope_binding [] calc.zero "x".
Proof.
  eexists _, _. split; [reflexivity|].
  pose proof (Assign_touches_one_name no_upper_table [] calc.zero "y" "1" _ _ _ I eq_refl)
    as (Hv & Hm & _).
  split; [exact Hv|]. apply Hm. discriminate.
Defined.

Lemma Assign_fails_only_with_the_expression_witness :
  calc.Scope_Assign no_upper_table calc.zero "x" "1 +" []
  = calc.Return (Some (calc.EvalError
                         (types.ParseError (parser.SyntaxError "expected operand"))),
                 calc.zero, []).
Proof.
  apply (proj1 (Assign_fails_only_with_the_expression no_upper_table [] calc.zero
                  "x" "1 +" I)).
  reflexivity.
Defined.

Lemma Assign_then_evaluate_witness :
  exists s' h',
    calc.Scope_Assign no_upper_table calc.zero "true" "60*60" []
    = calc.Return (None, s', h')
    /\ calc.Scope_eval no_upper_table h' s' "true"
       = calc.Return (Some (constant.intVal 3600), None)
    /\ calc.Scope_eval no_upper_table h' s' "true"
       = calc.Scope_eval no_upper_table [] calc.zero "60*60".
Proof.
  apply (Assign_then_evaluate no_upper_table [] calc.zero "true" "60*60"
           {| types.tv_Type := Some (types.Typ types.UntypedInt);
              types.tv_Value := Some (constant.intVal 3600) |}
           (constant.intVal 3600) I eq_refl eq_refl eq_refl eq_refl).
Defined.

Lemma AssignValue_is_insert_once_witness :
  calc.Scope_AssignValue {| calc.p := Some 0%nat |} "x" (calc.int64 2)
    [ {| types.path := "main"; types.name := "main";
         types.scope := {[ "x" := types.Const (Some (types.Typ types.UntypedInt))
                                              (Some (constant.intVal 1)) ]} |} ]
  = calc.Return ({| calc.p := Some 0%nat |},
      [ {| types.path := "main"; types.name := "main";
           types.scope := {[ "x" := types.Const (Some (types.Typ types.UntypedInt))
                                                (Some (constant.intVal 1)) ]} |} ]).
Proof.
  eapply (AssignValue_is_insert_once _ {| calc.p := Some 0%nat |} "x" (calc.int64 2));
    reflexivity.
Defined.

Lemma AssignValue_then_narrow_witness :
  (exists s' h',
     calc.Scope_AssignValue calc.zero "n" (calc.int32 (-7)) [] = calc.Return (s', h')
     /\ calc.Scope_Int no_upper_table h' s' "n" = calc.Return (-7, None))
  /\ (exists s' h',
        calc.Scope_AssignValue calc.zero "n" (calc.bool_ true) [] = calc.Return (s', h')
        /\ calc.Scope_Bool no_upper_table h' s' "n" = calc.Return (true, None)).
Proof.
  split.
  - apply (proj1 (AssignValue_then_narrow no_upper_table [] calc.zero "n" I eq_refl eq_refl)
             (-7) (calc.int32 (-7))).
    + right. left. reflexivity.
    + vm_compute. split; [discriminate|reflexivity].
  - apply (proj1 (proj2 (proj2 (AssignValue_then_narrow no_upper_table [] calc.zero "n"
                                  I eq_refl eq_refl))) true).
Defined.

Lemma AssignValue_of_a_float_that_is_no_number_witness :
  exists s' h',
    calc.Scope_AssignValue calc.zero "x" (calc.float64 S754_nan) []
    = calc.Return (s', h')
    /\ calc.Scope_Float64 no_upper_table h' s' "x"
       = calc.Return (calc.NaN, Some (calc.NotFloat constant.Unknown "x")).
Proof.
  apply (proj1 (AssignValue_of_a_float_that_is_no_number no_upper_table [] calc.zero "x"
                  S754_nan I eq_refl eq_refl)).
  left. reflexivity.
Defined.

Lemma Import_binds_the_package_of_the_library_witness :
  exists b s' lib' h',
    calc.Scope_Import no_upper_table calc.zero "time" calc.zero [] = (None, s', lib', h')
    /\ calc.p lib' = Some b
    /\ Scope_binding h' s' "time" = Some (types.PkgName b).
Proof.
  destruct (Import_binds_the_package_of_the_library no_upper_table [] calc.zero "time"
              calc.zero I I eq_refl)
    as (b & s' & lib' & h' & HI & _ & _ & Hp & Hfree & _).
  exists b, s', lib', h'. split; [exact HI|]. split; [exact Hp|].
  apply Hfree. reflexivity.
Defined.

Lemma imported_constants_are_read_qualified_witness :
  exists s' lib' h',
    calc.Scope_Import no_upper_table calc.zero "time" {| calc.p := Some 0%nat |}
      [ {| types.path := "main"; types.name := "main";
           types.scope := {[ "D" := types.Const (Some (types.Typ types.UntypedInt))
                                                (Some (constant.intVal 86400)) ]} |} ]
    = (None, s', lib', h')
    /\ calc.Scope_eval no_upper_table h' s' ("time" +:+ "." +:+ "D")
       = calc.Return (Some (constant.intVal 86400), None)
    /\ calc.Scope_eval no_upper_table h' s' "time"
       = calc.Return (None, Some (calc.EvalError (types.TypeError types.InvalidPkgUse))).
Proof.
  destruct (imported_constants_are_read_qualified no_upper_table
              [ {| types.path := "main"; types.name := "main";
                   types.scope := {[ "D" := types.Const (Some (types.Typ types.UntypedInt))
                                                        (Some (constant.intVal 86400)) ]} |} ]
              calc.zero "time" {| calc.p := Some 0%nat |} "D"
              I (ex_intro _ _ eq_refl) eq_refl eq_refl eq_refl eq_refl)
    as (s' & lib' & h' & HI & Hc & _ & _ & Hn).
  exists s', lib', h'. split; [exact HI|]. split; [|exact Hn].
  apply (Hc (types.Typ types.UntypedInt) (constant.intVal 86400)); reflexivity.
Defined.

Lemma Import_shares_the_library_witness :
  exists s' lib' h' h'',
    calc.Scope_Import no_upper_table calc.zero "time" calc.zero [] = (None, s', lib', h')
    /\ calc.Scope_Assign no_upper_table lib' "H" "60*60" h' = calc.Return (None, lib', h'')
    /\ calc.Scope_eval no_upper_table h'' s' ("time" +:+ "." +:+ "H")
       = calc.Return (Some (constant.intVal 3600), None).
Proof.
  destruct (Import_shares_the_library no_upper_table [] calc.zero "time" calc.zero "H"
              "60*60" I I eq_refl eq_refl eq_refl eq_refl eq_refl eq_refl)
    as (s' & lib' & h' & HI & HA).
  destruct (HA {| types.tv_Type := Some (types.Typ types.UntypedInt);
                  types.tv_Value := Some (constant.intVal 3600) |}
               (constant.intVal 3600)) as (h'' & H1 & H2).
  - injection HI as <- <- <-. reflexivity.
  - reflexivity.
  - exists s', lib', h', h''. repeat split; assumption.
Defined.

Lemma unbound_identifier_is_an_error_witness :
  calc.Scope_Int no_upper_table [] calc.zero "days"
  = calc.Return (0, Some (calc.EvalError (types.TypeError types.UndeclaredName))).
Proof.
  apply (proj1 (proj2 (unbound_identifier_is_an_error no_upper_table [] calc.zero "days"
                         eq_refl eq_refl))).
Defined.

Lemma Int_reads_decimal_text_witness :
  calc.Scope_Int no_upper_table [] calc.zero (FormatInt (- 2 ^ 63))
  = calc.Return (- 2 ^ 63, None)
  /\ calc.Scope_Uint no_upper_table [] calc.zero (FormatInt (2 ^ 64 - 1))
     = calc.Return (2 ^ 64 - 1, None).
Proof.
  split.
  - apply (proj1 (Int_reads_decimal_text no_upper_table [] calc.zero (- 2 ^ 63))).
    vm_compute. split; [discriminate|reflexivity].
  - apply (proj2 (Int_reads_decimal_text no_upper_table [] calc.zero (2 ^ 64 - 1))).
    vm_compute. split; [discriminate|reflexivity].
Defined.
